(** * toybox lib/portability.c: mount table snapshot, type filter, watch multiplexer

    A shallow embedding of [octal_deslash], [mountlist_istype],
    [xgetmountlist] and [xnotify_init]/[xnotify_add]/[xnotify_wait], for both
    sides of the platform [#if]s, and the properties of the specification
    checked against them.

    Conventions.
    - A [char] is an [ascii]; a C string handed in by a caller or by the
      native layer is the Rocq [string] of its bytes before the terminator,
      so [EmptyString] plays the terminating NUL.
    - Memory that the code writes through pointers (the [type[]] block at the
      end of [struct mtab_list]) is a [list ascii]; a pointer into it is an
      offset.  Reading outside the block yields NUL and writing outside it
      does nothing (stdpp's list insert); [stpcpy_spec] and
      [octal_deslash_spec] say which bytes a call changes.
    - [int] values are [Z].  A call that ends the process ([error_exit],
      [perror_exit]) is the outcome [Exit]. *)

From Stdlib Require Import ZArith NArith Lia String Ascii List Bool.
From stdpp Require Import base option list gmap strings.

Local Open Scope Z_scope.

(** ** Outcomes *)

(** What a call does: it returns, or it ends the process with a diagnostic.
    [Stuck] belongs to the model only: a loop whose number of turns is not a
    syntactic bound runs on fuel and is stuck when the fuel is used up, and so
    is a dereference outside the heap; the theorems show that the entry
    points are never stuck. *)
Inductive outcome (A : Type) : Type :=
| Return (a : A)
| Exit (msg : string)
| Stuck.

Arguments Return {A} a.
Arguments Exit {A} msg.
Arguments Stuck {A}.

(** ** libc on strings *)

Definition NUL : ascii := Ascii.zero.

Definition uchar (c : ascii) : Z := Z.of_N (N_of_ascii c).

Definition is_nul (c : ascii) : bool := Ascii.eqb c NUL.

(** Conversion of an [int] to [size_t] (64 bits), as happens to the third
    argument of [strncmp]. *)
Definition size_t_of_int (z : Z) : N :=
  Z.to_N (if z <? 0 then z + 2 ^ 64 else z).

Definition strlen (s : string) : Z := Z.of_nat (String.length s).

(** [strncmp s1 s2 n]: zero when the first [n] bytes agree (or both strings
    end before), otherwise the difference of the first bytes that differ. *)
Fixpoint strncmp (s1 s2 : string) (n : N) : Z :=
  if (n =? 0)%N then 0
  else
    match s1, s2 with
    | EmptyString, EmptyString => 0
    | EmptyString, String c2 _ => - uchar c2
    | String c1 _, EmptyString => uchar c1
    | String c1 r1, String c2 r2 =>
        if Ascii.eqb c1 c2 then strncmp r1 r2 (N.pred n)
        else uchar c1 - uchar c2
    end.

(** [strchr s c]: offset of the first [c] in [s], if any. *)
Fixpoint strchr (s : string) (c : ascii) : option Z :=
  match s with
  | EmptyString => None
  | String d r =>
      if Ascii.eqb d c then Some 0
      else match strchr r c with
           | Some k => Some (k + 1)
           | None => None
           end
  end.

(** Pointer arithmetic [s + k] on a string. *)
Fixpoint ptr_add_nat (s : string) (k : nat) {struct k} : string :=
  match k, s with
  | O, _ => s
  | S k', String _ r => ptr_add_nat r k'
  | S _, EmptyString => EmptyString
  end.

Definition ptr_add (s : string) (k : Z) : string := ptr_add_nat s (Z.to_nat k).

(** [s[k]]; the byte at [strlen s] is the terminator. *)
Definition char_at (s : string) (k : Z) : ascii :=
  match String.get (Z.to_nat k) s with
  | Some c => c
  | None => NUL
  end.

(** [isdigit] of ctype.h in the C locale. *)
Definition isdigit (c : ascii) : bool := (48 <=? uchar c) && (uchar c <=? 57).

(** ** libc on memory blocks *)

Definition mem_get (m : list ascii) (p : nat) : ascii := default NUL (m !! p).

Definition mem_set (m : list ascii) (p : nat) (c : ascii) : list ascii := <[p := c]> m.

(** The C string that starts at offset [p] of the block. *)
Fixpoint cstr_of (l : list ascii) : string :=
  match l with
  | [] => EmptyString
  | c :: r => if is_nul c then EmptyString else String c (cstr_of r)
  end.

Definition cstr_at (m : list ascii) (p : nat) : string := cstr_of (drop p m).

Definition strlen_at (m : list ascii) (p : nat) : nat := String.length (cstr_at m p).

(** [stpcpy dst src] into block [m]: copies [src] with its terminator and
    returns the address of the terminator it wrote. *)
Fixpoint stpcpy (m : list ascii) (dst : nat) (src : string) : list ascii * nat :=
  match src with
  | EmptyString => (mem_set m dst NUL, dst)
  | String c r => stpcpy (mem_set m dst c) (S dst) r
  end.

Definition strcpy (m : list ascii) (dst : nat) (src : string) : list ascii :=
  fst (stpcpy m dst src).

(** ** octal_deslash *)

(** The inner [for (i = 1; i < 4; i++)] loop: [n] iterations are left, and the
    result is the final [(i, oct)]. *)
Fixpoint octal_digits (n : nat) (m : list ascii) (s i : nat) (oct : Z) : nat * Z :=
  match n with
  | O => (i, oct)
  | S n' =>
      if negb (isdigit (mem_get m (s + i))) then (i, oct)
      else octal_digits n' m s (S i) (Z.shiftl oct 3 + uchar (mem_get m (s + i)) - 48)
  end.

(** Storing an [int] into a [char] keeps its low eight bits. *)
Definition char_of_int (z : Z) : ascii := ascii_of_N (Z.to_N (z mod 256)).

(** The [while ( *s )] loop, on the block [m] with the read pointer [s] and the
    write pointer [o]; the result is the block and the final [o]. *)
Fixpoint octal_deslash_loop (fuel : nat) (m : list ascii) (s o : nat)
  : option (list ascii * nat) :=
  match fuel with
  | O => None
  | S fuel' =>
      if is_nul (mem_get m s) then Some (m, o)
      else
        let copy := octal_deslash_loop fuel' (mem_set m o (mem_get m s)) (S s) (S o) in
        if Ascii.eqb (mem_get m s) "\"%char then
          let '(i, oct) := octal_digits 3 m s 1 0 in
          if Nat.eqb i 4
          then octal_deslash_loop fuel' (mem_set m o (char_of_int oct)) (s + i) (S o)
          else copy
        else copy
  end.

(** [octal_deslash(s)] where [s] points at offset [p] of block [m].  The read
    pointer moves forward at every turn, so the loop ends within
    [length m - p] turns, see [octal_deslash_loop_fuel]. *)
Definition octal_deslash (m : list ascii) (p : nat) : option (list ascii) :=
  match octal_deslash_loop (S (length m - p)) m p p with
  | Some (m', o) => Some (mem_set m' o NUL)
  | None => None
  end.

(** [octal_deslash] run on a string of its own: the string is laid out with
    its terminator, rewritten in place, and read back. *)
Definition block_of (s : string) : list ascii := list_ascii_of_string s ++ [NUL].

Definition decode (s : string) : option string :=
  match octal_deslash (block_of s) 0 with
  | Some m => Some (cstr_at m 0)
  | None => None
  end.

(** ** struct mtab_list *)

(** [struct stat] and [struct statvfs] come from system headers and are only
    stored whole, so they are type parameters.  The three [char *] members
    point into the entry's own [type[]] block and are offsets into it, [None]
    being the null pointer [xzalloc] leaves.  The links of the list are kept
    by the list itself, see [dlist_add_nomalloc]. *)
Record mtab_list (struct_stat struct_statvfs : Type) : Type := Mtab {
  mt_stat : struct_stat;
  mt_statvfs : struct_statvfs;
  mt_dir : option nat;
  mt_device : option nat;
  mt_opts : option nat;
  mt_type : list ascii
}.

Arguments Mtab {struct_stat struct_statvfs}.
Arguments mt_stat {struct_stat struct_statvfs}.
Arguments mt_statvfs {struct_stat struct_statvfs}.
Arguments mt_dir {struct_stat struct_statvfs}.
Arguments mt_device {struct_stat struct_statvfs}.
Arguments mt_opts {struct_stat struct_statvfs}.
Arguments mt_type {struct_stat struct_statvfs}.

(** ** comma_iterate and mountlist_istype *)

(** Modelled from the spec: [comma_iterate] of lib/lib.c is not among the
    sources; the specification says the type spec is tokenized on commas.
    [comma_iterate(&list, &len)] returns the start of the next entry of the
    comma separated [list] and its length, and advances [list] behind the
    comma; it returns null once the list is null or empty.  The token is the
    pair of the start pointer (which still sees the rest of the list) and
    [len]. *)
Definition comma_iterate (list : option string)
  : option (string * Z) * option string :=
  match list with
  | None => (None, None)
  | Some EmptyString => (None, list)
  | Some start =>
      match strchr start "," with
      | None => (Some (start, strlen start), None)
      | Some e => (Some (start, e), Some (ptr_add start (e + 1)))
      end
  end.

(** The [for (;;)] loop of [mountlist_istype]; the result is the final [skip]. *)
Fixpoint mountlist_istype_loop (fuel : nat) (type : string)
    (typelist : option string) (skip : Z) : outcome Z :=
  match fuel with
  | O => Stuck
  | S fuel' =>
      match comma_iterate typelist with
      | (None, _) => Return skip
      | (Some (t, len), typelist') =>
          if skip =? 0 then
            if negb (strncmp t "no" 2 =? 0) then Exit "bad typelist"
            else if strncmp (ptr_add t 2) type (size_t_of_int (len - 2)) =? 0
            then Return 1
            else mountlist_istype_loop fuel' type typelist' skip
          else if (strncmp t type (size_t_of_int len) =? 0)
                    && is_nul (char_at type len)
          then Return 0
          else mountlist_istype_loop fuel' type typelist' skip
      end
  end.

(** Every turn of the loop eats at least one byte of the list or ends it. *)
Definition istype_fuel (typelist : string) : nat := S (String.length typelist).

(** [mountlist_istype(ml, typelist)]; a null [typelist] is [None]. *)
Definition mountlist_istype {ST SV : Type} (ml : mtab_list ST SV)
    (typelist : option string) : outcome Z :=
  match typelist with
  | None => Return 1
  | Some tl =>
      let skip := strncmp tl "no" 2 in
      match mountlist_istype_loop (istype_fuel tl) (cstr_at (mt_type ml) 0)
              (Some tl) skip with
      | Return skip' => Return (if skip' =? 0 then 1 else 0)
      | Exit msg => Exit msg
      | Stuck => Stuck
      end
  end.

(** An entry whose type is [ty], as far as [mountlist_istype] looks at it. *)
Definition entry_of_type (ty : string) : mtab_list unit unit :=
  Mtab tt tt None None None (block_of ty).

(** ** Allocation and the list of entries *)

(** The entries [xgetmountlist] allocates live in a heap, one cell per
    [xzalloc], and a [struct mtab_list *] is the index of its cell. *)

(** Modelled from the spec: [xzalloc] of lib/xwrap.c is not among the sources;
    the specification has one buffer per record, sized for the four fields
    plus terminators, with everything the code does not fill left zeroed.
    [xzalloc(sizeof(struct mtab_list) + n)] appends a cell whose members are
    zero and whose [type[]] block is [n] NUL bytes, and returns its address
    (running out of memory is not modelled). *)
Definition zero_entry {ST SV : Type} (stat0 : ST) (statvfs0 : SV) (n : Z)
  : mtab_list ST SV :=
  Mtab stat0 statvfs0 None None None (replicate (Z.to_nat n) NUL).

Definition xzalloc {ST SV : Type} (stat0 : ST) (statvfs0 : SV)
    (heap : list (mtab_list ST SV)) (n : Z) : nat * list (mtab_list ST SV) :=
  (length heap, heap ++ [zero_entry stat0 statvfs0 n]).

(** Modelled from the spec: [dlist_add_nomalloc] of lib/llist.c is not among
    the sources; the specification has the entry prepended to the result
    (front-insertion), the list being in reverse enumeration order. *)
Definition dlist_add_nomalloc (head : list nat) (new : nat) : list nat :=
  new :: head.

(** The entries a returned list points at, in list order. *)
Definition entries_of {A : Type} (heap : list A) (mtlist : list nat)
  : list (option A) :=
  map (fun mt => heap !! mt) mtlist.

(** ** xgetmountlist over getmntent (the [#else] side) *)

Module Mntent.

Record mntent : Type := Mntent {
  mnt_fsname : string;
  mnt_dir : string;
  mnt_type : string;
  mnt_opts : string;
  mnt_freq : Z;
  mnt_passno : Z
}.

Section Native.

Context {struct_stat struct_statvfs : Type}.
Variables (stat0 : struct_stat) (statvfs0 : struct_statvfs).

(** [stat] and [statvfs]: the structure they fill in, [None] when they fail
    (the buffer is then left as it was). *)
Variable sys_stat : string -> option struct_stat.
Variable sys_statvfs : string -> option struct_statvfs.

(** [setmntent(p, "r")]: [None] when the table cannot be opened, otherwise
    the records the successive [getmntent] calls hand out before null. *)
Variable setmntent : string -> option (list mntent).

Local Abbreviation entry := (mtab_list struct_stat struct_statvfs).

(** The statements of the loop body that fill the entry [mt] points at. *)
Definition fill_entry (path : option string) (me : mntent) (mt : entry)
  : option entry :=
  let st := match path with
            | None => default (mt_stat mt) (sys_stat (mnt_dir me))
            | Some _ => mt_stat mt
            end in
  let stv := match path with
             | None => default (mt_statvfs mt) (sys_statvfs (mnt_dir me))
             | Some _ => mt_statvfs mt
             end in
  let '(m, e) := stpcpy (mt_type mt) 0 (mnt_type me) in
  let dir := S e in
  let '(m, e) := stpcpy m dir (mnt_dir me) in
  let device := S e in
  let '(m, e) := stpcpy m device (mnt_fsname me) in
  let opts := S e in
  let m := strcpy m opts (mnt_opts me) in
  m ← octal_deslash m dir;
  m ← octal_deslash m device;
  Some (Mtab st stv (Some dir) (Some device) (Some opts) m).

(** The size of the [type[]] block the loop body asks for. *)
Definition entry_size (me : mntent) : Z :=
  strlen (mnt_fsname me) + strlen (mnt_dir me) + strlen (mnt_type me)
  + strlen (mnt_opts me) + 4.

(** One turn of [while ((me = getmntent(fp)))]. *)
Definition mount_step (path : option string) (me : mntent)
    (st : list entry * list nat) : outcome (list entry * list nat) :=
  let '(heap, mtlist) := st in
  let '(mt, heap) := xzalloc stat0 statvfs0 heap (entry_size me) in
  let mtlist := dlist_add_nomalloc mtlist mt in
  match heap !! mt with
  | None => Stuck
  | Some cell =>
      match fill_entry path me cell with
      | None => Stuck
      | Some cell' => Return (<[mt := cell']> heap, mtlist)
      end
  end.

Fixpoint mount_loop (path : option string) (table : list mntent)
    (st : list entry * list nat) : outcome (list entry * list nat) :=
  match table with
  | [] => Return st
  | me :: table' =>
      match mount_step path me st with
      | Return st' => mount_loop path table' st'
      | Exit msg => Exit msg
      | Stuck => Stuck
      end
  end.

(** [xgetmountlist(path)]: the heap of the entries it allocated and the
    list it returns. *)
Definition xgetmountlist (path : option string)
  : outcome (list entry * list nat) :=
  let p := default "/proc/mounts"%string path in
  match setmntent p with
  | None => Exit ("bad " ++ p)
  | Some table => mount_loop path table ([], [])
  end.

End Native.

End Mntent.

(** ** xgetmountlist over getmntinfo (the Apple and FreeBSD side) *)

Module Getmntinfo.

Record statfs : Type := Statfs {
  f_fstypename : string;
  f_mntonname : string;
  f_mntfromname : string
}.

Section Native.

Context {struct_stat struct_statvfs : Type}.
Variables (stat0 : struct_stat) (statvfs0 : struct_statvfs).
Variable sys_stat : string -> option struct_stat.
Variable sys_statvfs : string -> option struct_statvfs.

(** [getmntinfo(&entries, 0)]: the array it hands out; its return value is
    the number of elements, 0 standing for failure. *)
Variable getmntinfo : list statfs.

Local Abbreviation entry := (mtab_list struct_stat struct_statvfs).

Definition fill_entry (me : statfs) (mt : entry) : entry :=
  let st := default (mt_stat mt) (sys_stat (f_mntonname me)) in
  let stv := default (mt_statvfs mt) (sys_statvfs (f_mntonname me)) in
  let '(m, e) := stpcpy (mt_type mt) 0 (f_fstypename me) in
  let dir := S e in
  let '(m, e) := stpcpy m dir (f_mntonname me) in
  let device := S e in
  let '(m, e) := stpcpy m device (f_mntfromname me) in
  let opts := S e in
  let m := strcpy m opts "" in
  Mtab st stv (Some dir) (Some device) (Some opts) m.

(** The size of the [type[]] block the loop body asks for. *)
Definition entry_size (me : statfs) : Z :=
  strlen (f_fstypename me) + strlen (f_mntonname me)
  + strlen (f_mntfromname me) + strlen "" + 4.

(** One turn of [for (i = 0; i < count; ++i)], on [entries[i]]. *)
Definition mount_step (me : statfs) (st : list entry * list nat)
  : outcome (list entry * list nat) :=
  let '(heap, mtlist) := st in
  let '(mt, heap) := xzalloc stat0 statvfs0 heap (entry_size me) in
  let mtlist := dlist_add_nomalloc mtlist mt in
  match heap !! mt with
  | None => Stuck
  | Some cell => Return (<[mt := fill_entry me cell]> heap, mtlist)
  end.

Fixpoint mount_loop (entries : list statfs) (st : list entry * list nat)
  : outcome (list entry * list nat) :=
  match entries with
  | [] => Return st
  | me :: entries' =>
      match mount_step me st with
      | Return st' => mount_loop entries' st'
      | Exit msg => Exit msg
      | Stuck => Stuck
      end
  end.

Definition xgetmountlist (path : option string)
  : outcome (list entry * list nat) :=
  match path with
  | Some _ => Exit "xgetmountlist"
  | None =>
      let count := Z.of_nat (length getmntinfo) in
      if count =? 0 then Exit "getmntinfo"
      else mount_loop getmntinfo ([], [])
  end.

End Native.

End Getmntinfo.

(** ** struct xnotify *)

(** [paths] and [fds] are arrays that [xnotify_init] takes from [xmalloc]
    without clearing them: a map from the index to the cell's value, with the
    cells nothing was stored in yet absent (they read as the default).
    [xmalloc] running out of memory is not modelled.  The [int] members are
    not wrapped: [count] stays between 0 and [max], see
    [inotify_reachable_inv] and [kqueue_reachable_inv]. *)
Record xnotify : Type := Xnotify {
  paths : gmap Z string;
  max : Z;
  fds : gmap Z Z;
  count : Z;
  kq : Z
}.

(** What a blocking [xnotify_wait] does with the results [R] of the native
    reads the kernel is going to deliver: it returns the tag and the path
    (leaving the reads it did not consume), it ends the process, or it is
    still blocked after the last of them. *)
Inductive wait_outcome (R : Type) : Type :=
| Woken (tag : Z) (path : string) (unread : list R)
| Died (msg : string)
| Blocked.

Arguments Woken {R} tag path unread.
Arguments Died {R} msg.
Arguments Blocked {R}.

(** Two outcomes of [xnotify_add] agree up to a relation on the structures. *)
Definition add_agree (same : xnotify -> xnotify -> Prop)
    (x y : outcome (xnotify * Z)) : Prop :=
  match x, y with
  | Return (a, r), Return (b, r') => r = r' /\ same a b
  | Exit m, Exit m' => m = m'
  | Stuck, Stuck => True
  | _, _ => False
  end.

(** ** xnotify over inotify (the [#else] side) *)

Module Inotify.

(** [struct inotify_event] of sys/inotify.h: four 32-bit members before the
    (here unused) name. *)
Record inotify_event : Type := Event {
  wd : Z;
  mask : Z;
  cookie : Z;
  len : Z
}.

Definition sizeof_inotify_event : Z := 16.

(** [xnotify_init(max)], [kq0] being what [inotify_init()] returns. *)
Definition xnotify_init (max0 : Z) (kq0 : Z) : outcome xnotify :=
  if kq0 <? 0 then Exit "inotify_init"
  else Return (Xnotify ∅ max0 ∅ 0 kq0).

(** [xnotify_add(not, fd, path)], [wd0] being what
    [inotify_add_watch(not->kq, path, IN_MODIFY)] returns; the result is the
    structure afterwards and the returned [int]. *)
Definition xnotify_add (not : xnotify) (fd : Z) (path : string) (wd0 : Z)
  : outcome (xnotify * Z) :=
  let i := 2 * count not in
  if max not =? count not then Exit "xnotify_add overflow"
  else
    let fds1 := <[i := wd0]> (fds not) in
    if wd0 =? -1
    then Return (Xnotify (paths not) (max not) fds1 (count not) (kq not), -1)
    else
      let fds2 := <[i + 1 := fd]> fds1 in
      let paths1 := <[count not := path]> (paths not) in
      Return (Xnotify paths1 (max not) fds2 (count not + 1) (kq not), 0).

(** [for (i = 0; i < not->count; i++) if (ev.wd == not->fds[2*i])], with [n]
    turns left. *)
Fixpoint find_watch (n : nat) (not : xnotify) (ev_wd : Z) (i : Z)
  : option (Z * string) :=
  match n with
  | O => None
  | S n' =>
      if ev_wd =? fds not !!! (2 * i)
      then Some (fds not !!! (2 * i + 1), paths not !!! i)
      else find_watch n' not ev_wd (i + 1)
  end.

(** [xnotify_wait(not, &path)].  Each element of [reads] is what one
    [read(not->kq, &ev, sizeof(ev))] is going to give: its return value and
    the contents of [ev] afterwards. *)
Fixpoint xnotify_wait (not : xnotify) (reads : list (Z * inotify_event))
  : wait_outcome (Z * inotify_event) :=
  match reads with
  | [] => Blocked
  | (n, ev) :: reads' =>
      if negb (sizeof_inotify_event =? n) then Died "inotify"
      else
        match find_watch (Z.to_nat (count not)) not (wd ev) 0 with
        | Some (tag, path) => Woken tag path reads'
        | None => xnotify_wait not reads'
        end
  end.

(** The registrations: for every index below [count], the watch identifier,
    the caller's tag and the path. *)
Definition registration (not : xnotify) (i : Z) : Z * Z * string :=
  (fds not !!! (2 * i), fds not !!! (2 * i + 1), paths not !!! i).

Definition registrations (not : xnotify) : list (Z * Z * string) :=
  registration not <$> seqZ 0 (count not).

(** The first registration with the watch identifier [id]. *)
Fixpoint lookup_watch (id : Z) (regs : list (Z * Z * string)) : option (Z * string) :=
  match regs with
  | [] => None
  | (w, tag, path) :: regs' =>
      if id =? w then Some (tag, path) else lookup_watch id regs'
  end.

(** What a caller can observe of the structure. *)
Definition same_watches (a b : xnotify) : Prop :=
  max a = max b /\ count a = count b /\ kq a = kq b
  /\ registrations a = registrations b.

(** The structures a caller can hold: what [xnotify_init(max0)] returned,
    after any number of [xnotify_add] calls that returned. *)
Inductive reachable (max0 : Z) : xnotify -> Prop :=
| reach_init kq0 not :
    xnotify_init max0 kq0 = Return not -> reachable max0 not
| reach_add not fd path wd0 not' r :
    reachable max0 not ->
    xnotify_add not fd path wd0 = Return (not', r) ->
    reachable max0 not'.

(** A sequence of [xnotify_add] calls, each with the caller's tag and path
    and the native layer's answer. *)
Fixpoint run_adds (not : xnotify) (adds : list (Z * string * Z)) : outcome xnotify :=
  match adds with
  | [] => Return not
  | (fd, path, wd0) :: adds' =>
      match xnotify_add not fd path wd0 with
      | Return (not', _) => run_adds not' adds'
      | Exit msg => Exit msg
      | Stuck => Stuck
      end
  end.

End Inotify.

(** ** xnotify over kqueue (the Apple side) *)

Module Kqueue.

(** The members of [struct kevent] the code looks at after a call. *)
Record kevent_t : Type := Kevent {
  ident : Z;
  flags : Z
}.

(** sys/event.h *)
Definition EV_ERROR : Z := 0x4000.

(** [xnotify_init(max)], [kq0] being what [kqueue()] returns. *)
Definition xnotify_init (max0 : Z) (kq0 : Z) : outcome xnotify :=
  if kq0 =? -1 then Exit "kqueue"
  else Return (Xnotify ∅ max0 ∅ 0 kq0).

(** [xnotify_add(not, fd, path)], [r] being what the [kevent] call that
    registers [fd] returns and [event] the structure afterwards. *)
Definition xnotify_add (not : xnotify) (fd : Z) (path : string)
    (r : Z) (event : kevent_t) : outcome (xnotify * Z) :=
  if count not =? max not then Exit "xnotify_add overflow"
  else if (r =? -1) || negb (Z.land (flags event) EV_ERROR =? 0)
  then Return (not, -1)
  else
    let paths1 := <[count not := path]> (paths not) in
    let fds1 := <[count not := fd]> (fds not) in
    Return (Xnotify paths1 (max not) fds1 (count not + 1) (kq not), 0).

(** [for (i = 0; i < not->count; i++) if (not->fds[i] == event.ident)]. *)
Fixpoint find_watch (n : nat) (not : xnotify) (ev_ident : Z) (i : Z)
  : option (Z * string) :=
  match n with
  | O => None
  | S n' =>
      if fds not !!! i =? ev_ident
      then Some (ev_ident, paths not !!! i)
      else find_watch n' not ev_ident (i + 1)
  end.

(** [xnotify_wait(not, &path)].  Each element of [reads] is what one
    [kevent(not->kq, NULL, 0, &event, 1, NULL)] is going to give: its return
    value and [event] afterwards. *)
Fixpoint xnotify_wait (not : xnotify) (reads : list (Z * kevent_t))
  : wait_outcome (Z * kevent_t) :=
  match reads with
  | [] => Blocked
  | (r, event) :: reads' =>
      if negb (r =? -1) then
        match find_watch (Z.to_nat (count not)) not (ident event) 0 with
        | Some (tag, path) => Woken tag path reads'
        | None => xnotify_wait not reads'
        end
      else xnotify_wait not reads'
  end.

Definition registration (not : xnotify) (i : Z) : Z * string :=
  (fds not !!! i, paths not !!! i).

Definition registrations (not : xnotify) : list (Z * string) :=
  registration not <$> seqZ 0 (count not).

Fixpoint lookup_watch (id : Z) (regs : list (Z * string)) : option (Z * string) :=
  match regs with
  | [] => None
  | (fd, path) :: regs' =>
      if fd =? id then Some (id, path) else lookup_watch id regs'
  end.

Definition same_watches (a b : xnotify) : Prop :=
  max a = max b /\ count a = count b /\ kq a = kq b
  /\ registrations a = registrations b.

Inductive reachable (max0 : Z) : xnotify -> Prop :=
| reach_init kq0 not :
    xnotify_init max0 kq0 = Return not -> reachable max0 not
| reach_add not fd path r event not' ret :
    reachable max0 not ->
    xnotify_add not fd path r event = Return (not', ret) ->
    reachable max0 not'.

Fixpoint run_adds (not : xnotify) (adds : list (Z * string * Z * kevent_t))
  : outcome xnotify :=
  match adds with
  | [] => Return not
  | (fd, path, r, event) :: adds' =>
      match xnotify_add not fd path r event with
      | Return (not', _) => run_adds not' adds'
      | Exit msg => Exit msg
      | Stuck => Stuck
      end
  end.

End Kqueue.

(** ** Vocabulary of the statements *)

(** [starts_with p s]: [p] is a prefix of [s]. *)
Fixpoint starts_with (p s : string) : bool :=
  match p, s with
  | EmptyString, _ => true
  | String _ _, EmptyString => false
  | String a p', String b s' => Ascii.eqb a b && starts_with p' s'
  end.

(** The tokens of a comma separated list: the pieces between the commas,
    where a list that ends in a comma has no empty last piece. *)
Fixpoint comma_tokens (s : string) : list string :=
  match s with
  | EmptyString => []
  | String c r =>
      if Ascii.eqb c ","%char then EmptyString :: comma_tokens r
      else match comma_tokens r with
           | [] => [String c EmptyString]
           | t :: ts => String c t :: ts
           end
  end.

(** The exclusion marker of a token and what follows it. *)
Definition marked (tok : string) : bool := starts_with "no" tok.

Definition remainder (tok : string) : string := ptr_add tok 2.

(** The type of an entry: the string at the start of its [type[]] block. *)
Definition type_of {ST SV : Type} (ml : mtab_list ST SV) : string :=
  cstr_at (mt_type ml) 0.

(** What the loop of [mountlist_istype] does, told on the tokens. *)
Fixpoint istype_tokens (type : string) (toks : list string) (skip : Z)
  : outcome Z :=
  match toks with
  | [] => Return skip
  | tok :: toks' =>
      if skip =? 0 then
        if negb (marked tok) then Exit "bad typelist"
        else if starts_with (remainder tok) type then Return 1
        else istype_tokens type toks' skip
      else if String.eqb tok type then Return 0
      else istype_tokens type toks' skip
  end.

(** A Rocq string stands for a C string when no byte of it is NUL. *)
Fixpoint nul_free (s : string) : bool :=
  match s with
  | EmptyString => true
  | String c r => negb (is_nul c) && nul_free r
  end.

(** A multiplexer of capacity 3 after three accepted registrations. *)
Definition sample_adds : list (Z * string * Z) :=
  [(5, "/tmp/a"%string, 1); (6, "/tmp/b"%string, 2); (8, "/tmp/c"%string, 3)].

Definition sample_watches : xnotify :=
  match Inotify.run_adds (Xnotify ∅ 3 ∅ 0 7) sample_adds with
  | Return not => not
  | _ => Xnotify ∅ 3 ∅ 0 7
  end.

(** The same multiplexer after the first two registrations only. *)
Definition sample_pair : xnotify :=
  match Inotify.run_adds (Xnotify ∅ 3 ∅ 0 7) (take 2 sample_adds) with
  | Return not => not
  | _ => Xnotify ∅ 3 ∅ 0 7
  end.

Definition sample_kevents : list (Z * string * Z * Kqueue.kevent_t) :=
  [(5, "/tmp/a"%string, 0, Kqueue.Kevent 5 0x21);
   (6, "/tmp/b"%string, 0, Kqueue.Kevent 6 0x21)].

Definition sample_kqueue : xnotify :=
  match Kqueue.run_adds (Xnotify ∅ 3 ∅ 0 7) sample_kevents with
  | Return not => not
  | _ => Xnotify ∅ 3 ∅ 0 7
  end.

(** Two small mount tables for the examples. *)
Definition sample_mounts : list Mntent.mntent :=
  [Mntent.Mntent "/dev/sda1" "/" "ext4" "rw" 0 0;
   Mntent.Mntent "tmpfs" "/mnt/a\040b" "tmpfs" "rw,nosuid" 0 0].

Definition sample_statfs : list Getmntinfo.statfs :=
  [Getmntinfo.Statfs "apfs" "/" "/dev/disk1s1";
   Getmntinfo.Statfs "devfs" "/dev" "devfs"].

(** The bytes of block [ma] from offset [p] and those of block [mb] from
    offset 0 agree up to offset [len]. *)
Definition window_agree (p len : nat) (ma mb : list ascii) : Prop :=
  forall j, (j <= len)%nat -> mem_get ma (p + j) = mem_get mb j.

(** The string at offset [p] of a block has its terminator inside the block. *)
Definition terminated (m : list ascii) (p : nat) : Prop :=
  m !! (p + strlen_at m p)%nat = Some NUL.

(** The invariant of an entry: [dir], [device] and [opts] are not null; the
    four strings have their terminators inside the entry's block; and each
    one, terminator included, ends before the next one starts. *)
Definition fields_apart {ST SV : Type} (e : mtab_list ST SV) : Prop :=
  exists d v o,
    mt_dir e = Some d /\ mt_device e = Some v /\ mt_opts e = Some o
    /\ terminated (mt_type e) 0 /\ terminated (mt_type e) d
    /\ terminated (mt_type e) v /\ terminated (mt_type e) o
    /\ (strlen_at (mt_type e) 0 < d)%nat
    /\ (d + strlen_at (mt_type e) d < v)%nat
    /\ (v + strlen_at (mt_type e) v < o)%nat
    /\ (o + strlen_at (mt_type e) o < length (mt_type e))%nat.

(** The fields are back to back: each one starts on the byte behind the
    terminator of the one before. *)
Definition fields_adjacent {ST SV : Type} (e : mtab_list ST SV) : Prop :=
  mt_dir e = Some (S (strlen_at (mt_type e) 0))
  /\ (forall d, mt_dir e = Some d ->
       mt_device e = Some (S (d + strlen_at (mt_type e) d)))
  /\ (forall v, mt_device e = Some v ->
       mt_opts e = Some (S (v + strlen_at (mt_type e) v))).

(** The strings of a record are C strings: no byte of them is NUL. *)
Definition mntent_c_strings (me : Mntent.mntent) : bool :=
  nul_free (Mntent.mnt_type me) && nul_free (Mntent.mnt_dir me)
  && nul_free (Mntent.mnt_fsname me) && nul_free (Mntent.mnt_opts me).

Definition statfs_c_strings (me : Getmntinfo.statfs) : bool :=
  nul_free (Getmntinfo.f_fstypename me) && nul_free (Getmntinfo.f_mntonname me)
  && nul_free (Getmntinfo.f_mntfromname me).

(** The entry reads back as the four strings [ty], [dir], [dev], [opts]: the
    type at the start of the block, the others where [dir], [device] and
    [opts] point, the terminator of the options being the last byte of the
    block. *)
Definition reads_back {ST SV : Type} (e : mtab_list ST SV)
    (ty dir dev opts : string) : Prop :=
  exists d v o,
    mt_dir e = Some d /\ mt_device e = Some v /\ mt_opts e = Some o
    /\ cstr_at (mt_type e) 0 = ty /\ cstr_at (mt_type e) d = dir
    /\ cstr_at (mt_type e) v = dev /\ cstr_at (mt_type e) o = opts
    /\ length (mt_type e) = S (o + String.length opts).

(** The bytes the four strings of an entry take, terminators included. *)
Definition bytes_used {ST SV : Type} (e : mtab_list ST SV) : nat :=
  match mt_dir e, mt_device e, mt_opts e with
  | Some d, Some v, Some o =>
      strlen_at (mt_type e) 0 + strlen_at (mt_type e) d
      + strlen_at (mt_type e) v + strlen_at (mt_type e) o + 4
  | _, _, _ => 0
  end.

(** ** The decoder as a function on the bytes of a string *)

(** The value the digit loop of [octal_deslash] has accumulated after the
    three digits [d1 d2 d3]. *)
Definition escape_value (d1 d2 d3 : ascii) : Z :=
  Z.shiftl (Z.shiftl (Z.shiftl 0 3 + uchar d1 - 48) 3 + uchar d2 - 48) 3
  + uchar d3 - 48.

(** One pass from left to right over the bytes before the terminator: a
    backslash with three [isdigit] bytes behind it gives one byte, every
    other byte is copied. *)
Fixpoint deslash (l : list ascii) : list ascii :=
  match l with
  | [] => []
  | c :: r =>
      if Ascii.eqb c "\"%char then
        match r with
        | d1 :: d2 :: d3 :: r' =>
            if isdigit d1 && isdigit d2 && isdigit d3
            then char_of_int (escape_value d1 d2 d3) :: deslash r'
            else c :: deslash r
        | _ => c :: deslash r
        end
      else c :: deslash r
  end.

(** The digit character of [k] (below 10). *)
Definition digit_char (k : Z) : ascii := ascii_of_N (Z.to_N (48 + k)).

(** The escape sequence of the byte [b]: a backslash and the three octal
    digits of its value. *)
Definition octal_escape (b : ascii) : string :=
  String "\" (String (digit_char (uchar b / 64))
    (String (digit_char ((uchar b / 8) mod 8))
      (String (digit_char (uchar b mod 8)) EmptyString))).

(** ** mknodat (the Apple side) *)

Module Mknodat.

(** What the shim touches of the process: the working directory and, for
    each open descriptor, the directory it refers to. *)
Record process : Type := Process {
  cwd : Z;
  open_fds : gmap Z Z
}.

(** [open(".", O_RDONLY)], [fd] being what it returns: -1, or a descriptor
    that from now on refers to the working directory. *)
Definition sys_open_dot (p : process) (fd : Z) : process * Z :=
  if fd =? -1 then (p, -1)
  else (Process (cwd p) (<[fd := cwd p]> (open_fds p)), fd).

(** [fchdir(fd)]: it fails on a descriptor that is not open or when the
    system refuses ([ok] false), leaving the working directory as it is;
    otherwise the working directory becomes the one [fd] refers to. *)
Definition sys_fchdir (p : process) (fd : Z) (ok : bool) : process * Z :=
  match open_fds p !! fd with
  | Some d => if ok then (Process d (open_fds p), 0) else (p, -1)
  | None => (p, -1)
  end.

(** [mknodat(dirfd, path, mode, dev)].  [sys_mknod d path mode dev] is what
    [mknod(path, mode, dev)] answers when the working directory is [d]; the
    other native calls are going to answer [fd0] ([open]), [ok1]
    ([fchdir(dirfd)]) and [ok2] ([fchdir(old_dirfd)]). *)
Definition mknodat (sys_mknod : Z -> string -> Z -> Z -> Z)
    (p : process) (dirfd : Z) (path : string) (mode dev : Z)
    (fd0 : Z) (ok1 ok2 : bool) : outcome (process * Z) :=
  let '(p1, old_dirfd) := sys_open_dot p fd0 in
  if old_dirfd =? -1 then Return (p1, -1)
  else
    let '(p2, c1) := sys_fchdir p1 dirfd ok1 in
    if c1 =? -1 then Return (p2, -1)
    else
      let result := sys_mknod (cwd p2) path mode dev in
      let '(p3, c2) := sys_fchdir p2 old_dirfd ok2 in
      if c2 =? -1 then Exit "mknodat couldn't return"
      else Return (p3, result).

End Mknodat.

(** ** Lemmas on the string functions *)

Lemma ascii_eqb_true (a b : ascii) : Ascii.eqb a b = true <-> a = b.
Proof. apply Ascii.eqb_eq. Qed.

Lemma uchar_inj (a b : ascii) : uchar a = uchar b -> a = b.
Proof.
  unfold uchar. intros H. apply N2Z.inj in H.
  rewrite <- (ascii_N_embedding a), <- (ascii_N_embedding b). now rewrite H.
Qed.

Lemma uchar_diff (a b : ascii) : Ascii.eqb a b = false -> uchar a - uchar b <> 0.
Proof.
  intros H E. assert (a = b) by (apply uchar_inj; lia).
  subst. now rewrite Ascii.eqb_refl in H.
Qed.

Lemma uchar_pos_nonnul (c : ascii) : is_nul c = false -> uchar c <> 0.
Proof.
  unfold is_nul. intros H E. apply uchar_diff in H.
  unfold NUL in H. change (uchar zero) with 0 in H. lia.
Qed.

Lemma size_t_of_nat (n : nat) : size_t_of_int (Z.of_nat n) = N.of_nat n.
Proof.
  unfold size_t_of_int. destruct (Z.ltb_spec (Z.of_nat n) 0); lia.
Qed.

Lemma strncmp_0 (s1 s2 : string) : strncmp s1 s2 0 = 0.
Proof. destruct s1; reflexivity. Qed.

Lemma strncmp_succ (s1 s2 : string) (n : nat) :
  strncmp s1 s2 (N.of_nat (S n)) =
    match s1, s2 with
    | EmptyString, EmptyString => 0
    | EmptyString, String c2 _ => - uchar c2
    | String c1 _, EmptyString => uchar c1
    | String c1 r1, String c2 r2 =>
        if Ascii.eqb c1 c2 then strncmp r1 r2 (N.of_nat n)
        else uchar c1 - uchar c2
    end.
Proof.
  replace (N.of_nat n) with (N.pred (N.of_nat (S n))) by lia.
  destruct s1; simpl; destruct (N.eqb_spec (N.of_nat (S n)) 0); try lia; reflexivity.
Qed.

(** [strncmp] over the length of a NUL-free left operand tests for a prefix. *)
Lemma strncmp_prefix (a tail ty : string) :
  nul_free a = true ->
  (strncmp (a +:+ tail) ty (N.of_nat (String.length a)) =? 0) = starts_with a ty.
Proof.
  revert ty. induction a as [|c a IH]; intros ty Hn.
  - cbn. now rewrite strncmp_0.
  - change (String c a +:+ tail) with (String c (a +:+ tail)).
    change (String.length (String c a)) with (S (String.length a)).
    simpl in Hn. apply andb_true_iff in Hn as [Hc Ha].
    rewrite strncmp_succ. destruct ty as [|d ty]; simpl.
    + apply Z.eqb_neq, uchar_pos_nonnul. now apply negb_true_iff.
    + destruct (Ascii.eqb_spec c d) as [->|Hcd]; simpl.
      * now apply IH.
      * apply Z.eqb_neq, uchar_diff. now apply Ascii.eqb_neq.
Qed.

Lemma char_at_0 (c : ascii) (s : string) : char_at (String c s) 0 = c.
Proof. reflexivity. Qed.

Lemma char_at_succ (c : ascii) (s : string) (n : nat) :
  char_at (String c s) (Z.of_nat (S n)) = char_at s (Z.of_nat n).
Proof. unfold char_at. rewrite !Nat2Z.id. reflexivity. Qed.

(** The inclusion test: [strncmp] over the token and a terminator behind it
    in the type, which is equality. *)
Lemma strncmp_exact (a tail ty : string) :
  nul_free a = true -> nul_free ty = true ->
  (strncmp (a +:+ tail) ty (N.of_nat (String.length a)) =? 0)
    && is_nul (char_at ty (Z.of_nat (String.length a)))
  = String.eqb a ty.
Proof.
  revert ty. induction a as [|c a IH]; intros ty Ha Hty.
  - cbn [String.length]. rewrite strncmp_0. simpl.
    destruct ty as [|d ty]; [reflexivity|].
    change (Z.of_nat 0) with 0. rewrite char_at_0. simpl in Hty.
    apply andb_true_iff in Hty as [Hd _]. now apply negb_true_iff in Hd.
  - change (String c a +:+ tail) with (String c (a +:+ tail)).
    change (String.length (String c a)) with (S (String.length a)).
    simpl in Ha. apply andb_true_iff in Ha as [Hc Ha].
    rewrite strncmp_succ. destruct ty as [|d ty].
    + simpl. replace (uchar c =? 0) with false; [reflexivity|].
      symmetry. apply Z.eqb_neq, uchar_pos_nonnul. now apply negb_true_iff.
    + simpl in Hty. apply andb_true_iff in Hty as [_ Hty].
      rewrite char_at_succ. simpl String.eqb.
      destruct (Ascii.eqb_spec c d) as [->|Hcd].
      * now apply IH.
      * replace (uchar c - uchar d =? 0) with false; [reflexivity|].
        symmetry. apply Z.eqb_neq, uchar_diff. now apply Ascii.eqb_neq.
Qed.

Lemma strncmp_no (s : string) : (strncmp s "no" 2 =? 0) = starts_with "no" s.
Proof.
  change 2%N with (N.of_nat 2). rewrite strncmp_succ.
  destruct s as [|c1 s]; [reflexivity|]. cbn [starts_with].
  rewrite (Ascii.eqb_sym "n"%char c1).
  destruct (Ascii.eqb_spec c1 "n"%char) as [->|H1].
  - change (N.of_nat 1) with (N.of_nat (S 0)).
    rewrite strncmp_succ. destruct s as [|c2 s]; [reflexivity|].
    rewrite (Ascii.eqb_sym "o"%char c2).
    destruct (Ascii.eqb_spec c2 "o"%char) as [->|H2].
    + rewrite strncmp_0. reflexivity.
    + simpl. apply Z.eqb_neq, uchar_diff. now apply Ascii.eqb_neq.
  - simpl. apply Z.eqb_neq, uchar_diff. now apply Ascii.eqb_neq.
Qed.

(** A token ends at a comma or at the end of the list, so what follows it
    does not change whether it starts with the marker. *)
Lemma marked_app (tok rest : string) :
  starts_with "no" (tok +:+ String "," rest) = marked tok.
Proof.
  unfold marked.
  destruct tok as [|c1 [|c2 tok]]; cbn; reflexivity.
Qed.

Lemma ptr_add_app (a b : string) :
  ptr_add_nat (a +:+ b) (String.length a) = b.
Proof. induction a as [|c a IH]; [now destruct b|exact IH]. Qed.

Lemma ptr_add_length (s : string) (k : nat) :
  String.length (ptr_add_nat s k) = (String.length s - k)%nat.
Proof.
  revert s. induction k as [|k IH]; intros [|c s]; simpl; try reflexivity.
  apply IH.
Qed.

Lemma string_app_length (a b : string) :
  String.length (a +:+ b) = (String.length a + String.length b)%nat.
Proof. induction a as [|c a IH]; [reflexivity|]. cbn. now rewrite <- IH. Qed.

Lemma nul_free_app (a b : string) :
  nul_free (a +:+ b) = nul_free a && nul_free b.
Proof.
  induction a as [|c a IH]; [reflexivity|].
  change (String c a +:+ b) with (String c (a +:+ b)). simpl.
  rewrite IH. now rewrite andb_assoc.
Qed.

(** [strchr] splits the list at its first comma. *)
Lemma strchr_Some (s : string) (c : ascii) (e : Z) :
  strchr s c = Some e ->
  exists tok rest, s = tok +:+ String c rest /\ e = Z.of_nat (String.length tok)
                   /\ strchr tok c = None.
Proof.
  revert e. induction s as [|d s IH]; intros e; [discriminate|]. simpl.
  destruct (Ascii.eqb_spec d c) as [->|Hd].
  - intros [= <-]. exists EmptyString, s. repeat split.
  - destruct (strchr s c) as [k|] eqn:Hk; [|discriminate].
    intros [= <-]. destruct (IH k eq_refl) as (tok & rest & -> & -> & Hn).
    exists (String d tok), rest. repeat split.
    + cbn [String.length]. lia.
    + simpl. destruct (Ascii.eqb_spec d c); [contradiction|]. now rewrite Hn.
Qed.

Lemma comma_tokens_last (tok : string) :
  strchr tok "," = None -> tok <> EmptyString -> comma_tokens tok = [tok].
Proof.
  induction tok as [|c tok IH]; [congruence|]. simpl.
  destruct (Ascii.eqb c ","); [discriminate|].
  destruct (strchr tok ",") eqn:E; [discriminate|]. intros _ _.
  destruct tok as [|d tok]; [reflexivity|].
  rewrite IH by congruence. reflexivity.
Qed.

Lemma comma_tokens_app (tok rest : string) :
  strchr tok "," = None ->
  comma_tokens (tok +:+ String "," rest) = tok :: comma_tokens rest.
Proof.
  induction tok as [|c tok IH]; [reflexivity|].
  change (String c tok +:+ String "," rest) with (String c (tok +:+ String "," rest)).
  simpl. destruct (Ascii.eqb c ","); [discriminate|].
  destruct (strchr tok ",") eqn:E; [discriminate|]. intros _.
  rewrite IH by reflexivity. reflexivity.
Qed.

Lemma string_app_empty (a : string) : a +:+ EmptyString = a.
Proof.
  induction a as [|c a IH]; [reflexivity|].
  change (String c a +:+ EmptyString) with (String c (a +:+ EmptyString)).
  now rewrite IH.
Qed.

Lemma marked_split (tok : string) :
  marked tok = true -> tok = String "n" (String "o" (remainder tok)).
Proof.
  unfold marked, remainder.
  destruct tok as [|c1 [|c2 tok]]; cbn [starts_with]; try discriminate.
  - rewrite andb_false_r. discriminate.
  - intros H. apply andb_true_iff in H as [H1 H].
    apply andb_true_iff in H as [H2 _].
    apply Ascii.eqb_eq in H1, H2. subst.
    unfold ptr_add. change (Z.to_nat 2) with 2%nat. reflexivity.
Qed.

(** The three tests the loop makes on a token [tok] seen through the pointer
    to its start, behind which the rest of the list [tail] still follows. *)
Lemma token_tests (tok tail ty : string) :
  nul_free tok = true -> nul_free ty = true ->
  tail = EmptyString \/ (exists rest, tail = String "," rest) ->
  (strncmp (tok +:+ tail) "no" 2 =? 0) = marked tok
  /\ (marked tok = true ->
      (strncmp (ptr_add (tok +:+ tail) 2) ty
         (size_t_of_int (Z.of_nat (String.length tok) - 2)) =? 0)
      = starts_with (remainder tok) ty)
  /\ (strncmp (tok +:+ tail) ty (size_t_of_int (Z.of_nat (String.length tok))) =? 0)
      && is_nul (char_at ty (Z.of_nat (String.length tok)))
     = String.eqb tok ty.
Proof.
  intros Htok Hty Htail. split; [|split].
  - rewrite strncmp_no. destruct Htail as [->|[rest ->]].
    + now rewrite string_app_empty.
    + apply marked_app.
  - intros Hm. pose proof (marked_split tok Hm) as E.
    set (rem := remainder tok) in *.
    assert (Hrem : nul_free rem = true).
    { rewrite E in Htok. simpl in Htok. exact Htok. }
    replace (ptr_add (tok +:+ tail) 2) with (rem +:+ tail)
      by (rewrite E; unfold ptr_add; change (Z.to_nat 2) with 2%nat; reflexivity).
    replace (Z.of_nat (String.length tok) - 2) with (Z.of_nat (String.length rem))
      by (rewrite E; cbn [String.length]; lia).
    rewrite size_t_of_nat. now apply strncmp_prefix.
  - rewrite size_t_of_nat. now apply strncmp_exact.
Qed.

(** What [comma_iterate] hands out on a list that is not empty: the whole
    list when it has no comma, otherwise the piece before the first comma,
    with the list advanced behind that comma. *)
Lemma comma_iterate_spec (c : ascii) (r : string) :
  (strchr (String c r) "," = None
   /\ comma_iterate (Some (String c r))
      = (Some (String c r, strlen (String c r)), None))
  \/ (exists tok rest,
        String c r = tok +:+ String "," rest
        /\ strchr tok "," = None
        /\ comma_iterate (Some (String c r))
           = (Some (String c r, Z.of_nat (String.length tok)), Some rest)).
Proof.
  unfold comma_iterate. destruct (strchr (String c r) ",") as [e|] eqn:He.
  - right. destruct (strchr_Some _ _ _ He) as (tok & rest & Es & -> & Hn).
    exists tok, rest. repeat split; try assumption. do 2 f_equal.
    unfold ptr_add.
    replace (Z.to_nat (Z.of_nat (String.length tok) + 1))
      with (S (String.length tok)) by lia.
    rewrite Es. clear. induction tok as [|d tok IHt]; [reflexivity|exact IHt].
  - left. split; reflexivity.
Qed.

Lemma istype_loop_tokens (fuel : nat) (ty s : string) (skip : Z) :
  nul_free s = true -> nul_free ty = true ->
  (String.length s < fuel)%nat ->
  mountlist_istype_loop fuel ty (Some s) skip
  = istype_tokens ty (comma_tokens s) skip.
Proof.
  revert s. induction fuel as [|fuel IH]; intros s Hs Hty Hlen; [lia|].
  destruct s as [|c r]; [reflexivity|].
  cbn [mountlist_istype_loop].
  destruct (comma_iterate_spec c r) as [(He & ->)|(tok & rest & Es & Hn & ->)];
    set (s := String c r) in *.
  - assert (Hne : s <> EmptyString) by (subst s; congruence).
    destruct (token_tests s EmptyString ty Hs Hty (or_introl eq_refl))
      as (T1 & T2 & T3).
    rewrite string_app_empty in T1, T2, T3. unfold strlen.
    rewrite (comma_tokens_last _ He Hne). cbn [istype_tokens].
    rewrite T1, T3.
    assert (Hf : mountlist_istype_loop fuel ty None skip = Return skip).
    { destruct fuel; [subst s; cbn [String.length] in Hlen; lia|reflexivity]. }
    rewrite Hf. destruct (skip =? 0); [|reflexivity].
    destruct (marked s) eqn:Hm; [|reflexivity]. simpl negb. cbv iota.
    rewrite (T2 eq_refl). reflexivity.
  - assert (Htok : nul_free tok = true /\ nul_free rest = true).
    { rewrite Es, nul_free_app in Hs. apply andb_true_iff in Hs as [? Hs].
      simpl in Hs. done. }
    destruct Htok as [Htok Hrest].
    assert (Hlr : (String.length rest < fuel)%nat).
    { rewrite Es, string_app_length in Hlen. cbn [String.length] in Hlen. lia. }
    destruct (token_tests tok (String "," rest) ty Htok Hty
                (or_intror (ex_intro _ rest eq_refl))) as (T1 & T2 & T3).
    rewrite <- Es in T1, T2, T3.
    rewrite Es at 4. rewrite (comma_tokens_app _ _ Hn). cbn [istype_tokens].
    rewrite T1, T3, (IH rest Hrest Hty Hlr). destruct (skip =? 0); [|reflexivity].
    destruct (marked tok) eqn:Hm; [|reflexivity]. simpl negb. cbv iota.
    rewrite (T2 eq_refl). reflexivity.
Qed.

(** The fuel [mountlist_istype] hands to its loop is enough for every list. *)
Lemma mountlist_istype_loop_total (fuel : nat) (ty s : string) (skip : Z) :
  (String.length s < fuel)%nat ->
  mountlist_istype_loop fuel ty (Some s) skip <> Stuck.
Proof.
  revert s. induction fuel as [|fuel IH]; intros s Hlen; [lia|].
  destruct s as [|c r]; [discriminate|].
  cbn [mountlist_istype_loop].
  destruct (comma_iterate_spec c r) as [(_ & ->)|(tok & rest & Es & _ & ->)].
  - assert (Hf : mountlist_istype_loop fuel ty None skip = Return skip).
    { destruct fuel; [cbn [String.length] in Hlen; lia|reflexivity]. }
    rewrite Hf.
    destruct (skip =? 0); [destruct (negb _); [|destruct (_ =? 0)]|destruct (_ && _)];
      discriminate.
  - assert (Hr : mountlist_istype_loop fuel ty (Some rest) skip <> Stuck).
    { apply IH. rewrite Es, string_app_length in Hlen.
      cbn [String.length] in Hlen. lia. }
    destruct (skip =? 0); [destruct (negb _); [|destruct (_ =? 0)]|destruct (_ && _)];
      try discriminate; exact Hr.
Qed.

Lemma mountlist_istype_total {ST SV : Type} (ml : mtab_list ST SV)
    (typelist : option string) :
  mountlist_istype ml typelist <> Stuck.
Proof.
  destruct typelist as [tl|]; [|discriminate]. unfold mountlist_istype.
  pose proof (mountlist_istype_loop_total (istype_fuel tl) (cstr_at (mt_type ml) 0)
                tl (strncmp tl "no" 2)) as H.
  destruct (mountlist_istype_loop _ _ _ _); try discriminate.
  apply H. unfold istype_fuel. lia.
Qed.

Lemma cstr_of_nul_free (l : list ascii) : nul_free (cstr_of l) = true.
Proof.
  induction l as [|c l IH]; [reflexivity|]. simpl.
  destruct (is_nul c) eqn:E; [reflexivity|]. simpl. now rewrite E.
Qed.

Lemma type_of_nul_free {ST SV : Type} (ml : mtab_list ST SV) :
  nul_free (type_of ml) = true.
Proof. apply cstr_of_nul_free. Qed.

(** [mountlist_istype] never runs out of fuel: it is the scan of the tokens
    started with [skip = strncmp(typelist, "no", 2)], negated at the end. *)
Lemma mountlist_istype_tokens {ST SV : Type} (ml : mtab_list ST SV) (tl : string) :
  nul_free tl = true ->
  mountlist_istype ml (Some tl)
  = match istype_tokens (type_of ml) (comma_tokens tl) (strncmp tl "no" 2) with
    | Return skip => Return (if skip =? 0 then 1 else 0)
    | Exit msg => Exit msg
    | Stuck => Stuck
    end.
Proof.
  intros Htl. unfold mountlist_istype, istype_fuel.
  rewrite istype_loop_tokens; [reflexivity|assumption|apply type_of_nul_free|lia].
Qed.

Lemma first_token_marked (tl t : string) (ts : list string) :
  comma_tokens tl = t :: ts -> starts_with "no" tl = marked t.
Proof.
  intros Ht. destruct (strchr tl ",") as [e|] eqn:He.
  - destruct (strchr_Some _ _ _ He) as (tok & rest & -> & _ & Hn).
    rewrite (comma_tokens_app _ _ Hn) in Ht. injection Ht as -> _.
    apply marked_app.
  - assert (tl <> EmptyString) by (intros ->; discriminate).
    rewrite (comma_tokens_last _ He) in Ht by assumption.
    now injection Ht as ->.
Qed.

(** An inclusion scan ([skip] not zero) ends with 0 on the first token equal
    to the type and otherwise leaves [skip] as it is. *)
Lemma istype_tokens_inclusion (ty : string) (toks : list string) (skip : Z) :
  skip <> 0 ->
  istype_tokens ty toks skip
  = Return (if existsb (fun t => String.eqb t ty) toks then 0 else skip).
Proof.
  intros Hs. induction toks as [|t toks IH]; [reflexivity|]. simpl.
  destruct (Z.eqb_spec skip 0); [contradiction|].
  destruct (String.eqb t ty); [reflexivity|exact IH].
Qed.

(** An exclusion scan ([skip] zero) over marked tokens ends with 1 on the
    first token whose remainder the type starts with. *)
Lemma istype_tokens_exclusion (ty : string) (toks : list string) :
  forallb marked toks = true ->
  istype_tokens ty toks 0
  = Return (if existsb (fun t => starts_with (remainder t) ty) toks then 1 else 0).
Proof.
  induction toks as [|t toks IH]; [reflexivity|]. simpl.
  intros H. apply andb_true_iff in H as [Ht Hts]. rewrite Ht. simpl.
  destruct (starts_with (remainder t) ty); [reflexivity|now apply IH].
Qed.

Lemma istype_tokens_unmarked (ty : string) (pre post : list string) (bad : string) :
  forallb marked pre = true -> marked bad = false ->
  existsb (fun t => starts_with (remainder t) ty) pre = false ->
  istype_tokens ty (pre ++ bad :: post) 0 = Exit "bad typelist".
Proof.
  induction pre as [|t pre IH]; simpl; intros Hm Hb Hp.
  - now rewrite Hb.
  - apply andb_true_iff in Hm as [Ht Hm]. apply orb_false_iff in Hp as [Hp1 Hp].
    rewrite Ht, Hp1. simpl. now apply IH.
Qed.

Lemma istype_tokens_hit (ty : string) (pre post : list string) (tok : string) :
  forallb marked (pre ++ [tok]) = true -> starts_with (remainder tok) ty = true ->
  istype_tokens ty (pre ++ tok :: post) 0 = Return 1.
Proof.
  induction pre as [|t pre IH]; simpl; intros Hm Hp.
  - apply andb_true_iff in Hm as [Ht _]. now rewrite Ht, Hp.
  - apply andb_true_iff in Hm as [Ht Hm]. rewrite Ht. simpl.
    destruct (starts_with (remainder t) ty); [reflexivity|now apply IH].
Qed.

Lemma starts_with_refl (s : string) : starts_with s s = true.
Proof. induction s as [|c s IH]; [reflexivity|]. simpl. now rewrite Ascii.eqb_refl. Qed.

(** ** mountlist_istype: the type filter *)

(** An exclusion list whose tokens all carry the marker is answered by
    prefix tests: the result is 1 exactly when the type starts with none of
    the tokens' remainders. *)
Lemma istype_exclusion_list {ST SV : Type} (ml : mtab_list ST SV) (tl : string) :
  nul_free tl = true ->
  comma_tokens tl <> [] ->
  forallb marked (comma_tokens tl) = true ->
  mountlist_istype ml (Some tl)
  = Return (if existsb (fun t => starts_with (remainder t) (type_of ml))
                  (comma_tokens tl) then 0 else 1).
Proof.
  intros Htl Hne Hm. rewrite mountlist_istype_tokens by assumption.
  destruct (comma_tokens tl) as [|t ts] eqn:Et; [congruence|].
  assert (Hs : strncmp tl "no" 2 = 0).
  { apply Z.eqb_eq. rewrite strncmp_no, (first_token_marked _ _ _ Et).
    simpl in Hm. now apply andb_true_iff in Hm as [-> _]. }
  rewrite Hs, istype_tokens_exclusion by assumption.
  now destruct (existsb _ _).
Qed.

(** The two exclusion examples of the specification hold on the code. *)
Lemma istype_exclusion_examples :
  mountlist_istype (entry_of_type "tmpfs") (Some "noext4,novfat") = Return 1
  /\ mountlist_istype (entry_of_type "ext4") (Some "noext4,novfat") = Return 0.
Proof. split; reflexivity. Qed.

(** C1, at the failing input: the exclusion branch compares only the first
    [len-2] bytes of the type and, unlike the inclusion branch, does not look
    for the terminator behind them.  The type "ext4" equals no remainder of
    the exclusion list "noext", yet [mountlist_istype] answers 0, while the
    inclusion list "ext" does not take "ext4" for a match either. *)
Theorem istype_exclusion_prefix_match :
  existsb (fun t => String.eqb (remainder t) (type_of (entry_of_type "ext4")))
    (comma_tokens "noext") = false
  /\ mountlist_istype (entry_of_type "ext4") (Some "noext") = Return 0
  /\ mountlist_istype (entry_of_type "ext4") (Some "ext") = Return 0.
Proof. repeat split; reflexivity. Qed.

(** C2, counterexample: the mixed list "ext4,novfat" starts without the
    marker, so it is read as an inclusion list and answers 1 for the type
    "ext4" instead of ending the process. *)
Lemma istype_mixed_inclusion_first :
  mountlist_istype (entry_of_type "ext4") (Some "ext4,novfat") = Return 1
  /\ forall msg, mountlist_istype (entry_of_type "ext4") (Some "ext4,novfat") <> Exit msg.
Proof. split; [reflexivity|discriminate]. Qed.

(** C2, amended.  (1) A list that does not start with the marker is an
    inclusion list whatever its later tokens look like: the call returns, with
    1 exactly when some token equals the type.  (2) In a list whose first
    token carries the marker, the first token without it ends the process
    with "bad typelist", provided the type starts with the remainder of none
    of the tokens before it.  (3) A marked token whose remainder equals the
    type, with only marked tokens before it, makes the call return 0, whatever
    follows it. *)
Theorem istype_mixed_typelist {ST SV : Type} (ml : mtab_list ST SV) (tl : string) :
  nul_free tl = true ->
  (starts_with "no" tl = false ->
   mountlist_istype ml (Some tl)
   = Return (if existsb (fun t => String.eqb t (type_of ml)) (comma_tokens tl)
             then 1 else 0))
  /\ (forall pre bad post,
        comma_tokens tl = pre ++ bad :: post ->
        pre <> [] ->
        forallb marked pre = true ->
        marked bad = false ->
        existsb (fun t => starts_with (remainder t) (type_of ml)) pre = false ->
        mountlist_istype ml (Some tl) = Exit "bad typelist")
  /\ (forall pre tok post,
        comma_tokens tl = pre ++ tok :: post ->
        forallb marked (pre ++ [tok]) = true ->
        remainder tok = type_of ml ->
        mountlist_istype ml (Some tl) = Return 0).
Proof.
  intros Htl. rewrite mountlist_istype_tokens by assumption.
  split; [|split].
  - intros Hno. assert (Hs : strncmp tl "no" 2 <> 0).
    { apply Z.eqb_neq. now rewrite strncmp_no. }
    rewrite istype_tokens_inclusion by assumption.
    destruct (existsb _ _); [reflexivity|].
    now destruct (Z.eqb_spec (strncmp tl "no" 2) 0).
  - intros pre bad post Et Hne Hm Hb Hp.
    destruct pre as [|t pre]; [congruence|].
    assert (Hs : strncmp tl "no" 2 = 0).
    { apply Z.eqb_eq. rewrite strncmp_no, (first_token_marked _ _ _ Et).
      simpl in Hm. now apply andb_true_iff in Hm as [-> _]. }
    rewrite Hs, Et, istype_tokens_unmarked by assumption. reflexivity.
  - intros pre tok post Et Hm Hr.
    assert (Hs : strncmp tl "no" 2 = 0).
    { apply Z.eqb_eq. rewrite strncmp_no.
      destruct pre as [|t pre]; simpl in Et, Hm;
        rewrite (first_token_marked _ _ _ Et);
        now apply andb_true_iff in Hm as [-> _]. }
    rewrite Hs, Et, istype_tokens_hit; [reflexivity|assumption|].
    rewrite Hr. apply starts_with_refl.
Qed.

Lemma istype_mixed_typelist_witness :
  mountlist_istype (entry_of_type "novfat") (Some "ext4,novfat") = Return 1
  /\ mountlist_istype (entry_of_type "tmpfs") (Some "noext4,vfat") = Exit "bad typelist"
  /\ mountlist_istype (entry_of_type "ext4") (Some "noext4,vfat") = Return 0.
Proof.
  split; [|split].
  - exact (proj1 (istype_mixed_typelist (entry_of_type "novfat") "ext4,novfat"
                    eq_refl) eq_refl).
  - exact (proj1 (proj2 (istype_mixed_typelist (entry_of_type "tmpfs")
                           "noext4,vfat" eq_refl))
             ["noext4"%string] "vfat"%string [] eq_refl
             ltac:(discriminate) eq_refl eq_refl eq_refl).
  - exact (proj2 (proj2 (istype_mixed_typelist (entry_of_type "ext4")
                           "noext4,vfat" eq_refl))
             [] "noext4"%string ["vfat"%string] eq_refl eq_refl eq_refl).
Defined.

(** C4, counterexample: for the empty string the first [comma_iterate]
    already returns null with [skip] as [strncmp("", "no", 2)] left it, which
    is not zero, so the answer is 0. *)
Lemma istype_empty_typelist :
  mountlist_istype (entry_of_type "ext4") (Some "") <> Return 1.
Proof. discriminate. Qed.

(** C4, amended: a null type list is answered by 1 for every entry; the
    empty string is an inclusion list without a token and is answered by 0
    for every entry. *)
Theorem istype_absent_or_empty {ST SV : Type} (ml : mtab_list ST SV) :
  mountlist_istype ml None = Return 1
  /\ mountlist_istype ml (Some "") = Return 0.
Proof. split; reflexivity. Qed.

(** ** Strings inside a memory block *)

Lemma mem_get_drop (m : list ascii) (p j : nat) :
  mem_get m (p + j) = mem_get (drop p m) j.
Proof. unfold mem_get. now rewrite lookup_drop. Qed.

Lemma cstr_of_nonnul (l : list ascii) (j : nat) :
  (j < String.length (cstr_of l))%nat -> is_nul (mem_get l j) = false.
Proof.
  revert j. induction l as [|c l IH]; intros j; simpl; [lia|].
  destruct (is_nul c) eqn:E; simpl; [lia|].
  destruct j as [|j]; [intros _; exact E|]. intros H. apply IH. lia.
Qed.

Lemma cstr_of_nul (l : list ascii) :
  is_nul (mem_get l (String.length (cstr_of l))) = true.
Proof.
  induction l as [|c l IH]; simpl; [reflexivity|].
  destruct (is_nul c) eqn:E; simpl; [exact E|exact IH].
Qed.

Lemma cstr_of_le (l : list ascii) (j : nat) :
  is_nul (mem_get l j) = true -> (String.length (cstr_of l) <= j)%nat.
Proof.
  revert j. induction l as [|c l IH]; intros j; simpl; [lia|].
  destruct (is_nul c) eqn:E; simpl; [lia|].
  destruct j as [|j]; [cbn; congruence|]. intros H. apply IH in H. lia.
Qed.

Lemma cstr_of_length (l : list ascii) : (String.length (cstr_of l) <= length l)%nat.
Proof.
  induction l as [|c l IH]; simpl; [lia|]. destruct (is_nul c); simpl; lia.
Qed.

(** The bytes of the string at [p] are not NUL, the byte behind them is, and
    no NUL comes before it. *)
Lemma strlen_at_nonnul (m : list ascii) (p j : nat) :
  (j < strlen_at m p)%nat -> is_nul (mem_get m (p + j)) = false.
Proof. rewrite mem_get_drop. apply cstr_of_nonnul. Qed.

Lemma strlen_at_nul (m : list ascii) (p : nat) :
  is_nul (mem_get m (p + strlen_at m p)) = true.
Proof. rewrite mem_get_drop. apply cstr_of_nul. Qed.

Lemma strlen_at_le (m : list ascii) (p j : nat) :
  is_nul (mem_get m (p + j)) = true -> (strlen_at m p <= j)%nat.
Proof. rewrite mem_get_drop. apply cstr_of_le. Qed.

Lemma strlen_at_bound (m : list ascii) (p : nat) :
  (p + strlen_at m p <= Nat.max p (length m))%nat.
Proof.
  unfold strlen_at, cstr_at. pose proof (cstr_of_length (drop p m)) as H.
  rewrite length_drop in H. lia.
Qed.

Lemma mem_get_set_eq (m : list ascii) (p : nat) (c : ascii) :
  (p < length m)%nat -> mem_get (mem_set m p c) p = c.
Proof. intros H. unfold mem_get, mem_set. now rewrite list_lookup_insert_eq. Qed.

Lemma mem_get_set_ne (m : list ascii) (p q : nat) (c : ascii) :
  p <> q -> mem_get (mem_set m p c) q = mem_get m q.
Proof. intros H. unfold mem_get, mem_set. now rewrite list_lookup_insert_ne. Qed.

Lemma mem_set_length (m : list ascii) (p : nat) (c : ascii) :
  length (mem_set m p c) = length m.
Proof. apply length_insert. Qed.

Lemma isdigit_nonnul (c : ascii) : isdigit c = true -> is_nul c = false.
Proof.
  unfold isdigit, is_nul. intros H. apply andb_true_iff in H as [H _].
  destruct (Ascii.eqb_spec c NUL) as [->|]; [|reflexivity].
  vm_compute in H. discriminate.
Qed.

(** ** octal_deslash decodes in place *)

(** When the digit loop ends with [i == 4], three digits follow the
    backslash. *)
Lemma octal_digits_three (m : list ascii) (s : nat) (oct : Z) :
  octal_digits 3 m s 1 0 = (4%nat, oct) ->
  isdigit (mem_get m (s + 1)) = true
  /\ isdigit (mem_get m (s + 2)) = true
  /\ isdigit (mem_get m (s + 3)) = true.
Proof.
  cbn [octal_digits].
  destruct (isdigit (mem_get m (s + 1))); simpl; [|intros [=]].
  destruct (isdigit (mem_get m (s + 2))); simpl; [|intros [=]].
  destruct (isdigit (mem_get m (s + 3))); simpl; [|intros [=]].
  auto.
Qed.

Lemma octal_digits_index (m : list ascii) (s : nat) :
  (fst (octal_digits 3 m s 1 0) <= 4)%nat.
Proof.
  cbn [octal_digits].
  destruct (isdigit (mem_get m (s + 1))); simpl; [|lia].
  destruct (isdigit (mem_get m (s + 2))); simpl; [|lia].
  destruct (isdigit (mem_get m (s + 3))); simpl; lia.
Qed.

Section DeslashLoop.

(** The block [m0] holds (or, behind its end, reads as) a NUL at [e]. *)
Variables (m0 : list ascii) (p e : nat).
Hypothesis Hend : is_nul (mem_get m0 e) = true.

(** The write pointer never overtakes the read pointer, so the loop reads
    what [m0] held, ends at the terminator of [m0], and changes the block
    only between [p] and the final write pointer. *)
Lemma octal_deslash_loop_spec (fuel : nat) (m : list ascii) (s o : nat) :
  (e - s < fuel)%nat ->
  (p <= o <= s)%nat -> (s <= e)%nat ->
  length m = length m0 ->
  (forall j, (j < p \/ o <= j)%nat -> m !! j = m0 !! j) ->
  exists m' o',
    octal_deslash_loop fuel m s o = Some (m', o')
    /\ (p <= o' <= e)%nat
    /\ length m' = length m0
    /\ (forall j, (j < p \/ o' <= j)%nat -> m' !! j = m0 !! j).
Proof.
  revert m s o. induction fuel as [|fuel IH]; intros m s o Hf Hos Hse Hl Hfr; [lia|].
  assert (Hget : forall j, (o <= j)%nat -> mem_get m j = mem_get m0 j).
  { intros j Hj. unfold mem_get. rewrite Hfr by lia. reflexivity. }
  cbn [octal_deslash_loop]. rewrite (Hget s) by lia.
  destruct (is_nul (mem_get m0 s)) eqn:Hs.
  { exists m, o. repeat split; try lia; assumption. }
  assert (Hlt : (s < e)%nat).
  { destruct (Nat.eq_dec s e) as [->|]; [congruence|lia]. }
  assert (Hcopy : forall c, exists m' o',
             octal_deslash_loop fuel (mem_set m o c) (S s) (S o) = Some (m', o')
             /\ (p <= o' <= e)%nat /\ length m' = length m0
             /\ (forall j, (j < p \/ o' <= j)%nat -> m' !! j = m0 !! j)).
  { intros c. destruct (IH (mem_set m o c) (S s) (S o)) as (m' & o' & E & Ho & Hl' & Hfr').
    - lia.
    - lia.
    - lia.
    - now rewrite mem_set_length.
    - intros j Hj. unfold mem_set. rewrite list_lookup_insert_ne by lia.
      apply Hfr. lia.
    - exists m', o'. repeat split; try assumption; lia. }
  destruct (Ascii.eqb (mem_get m0 s) "\"%char); [|apply Hcopy].
  destruct (octal_digits 3 m s 1 0) as [i oct] eqn:Hd.
  destruct (Nat.eqb_spec i 4) as [->|_]; [|apply Hcopy].
  apply octal_digits_three in Hd as (D1 & D2 & D3).
  rewrite Hget in D1, D2, D3 by lia.
  apply isdigit_nonnul in D1, D2, D3.
  assert (Hs4 : (s + 4 <= e)%nat).
  { destruct (Nat.eq_dec (s + 1)%nat e) as [<-|]; [congruence|].
    destruct (Nat.eq_dec (s + 2)%nat e) as [<-|]; [congruence|].
    destruct (Nat.eq_dec (s + 3)%nat e) as [<-|]; [congruence|]. lia. }
  destruct (IH (mem_set m o (char_of_int oct)) (s + 4)%nat (S o))
    as (m' & o' & E & Ho & Hl' & Hfr').
  - lia.
  - lia.
  - lia.
  - now rewrite mem_set_length.
  - intros j Hj. unfold mem_set. rewrite list_lookup_insert_ne by lia.
    apply Hfr. lia.
  - exists m', o'. repeat split; try assumption; lia.
Qed.

End DeslashLoop.

(** [octal_deslash] always returns.  It keeps the size of the block, touches
    nothing outside the string it was given, and leaves a terminator at or
    before the place of the old one: it never lengthens the string. *)
Lemma octal_deslash_spec (m : list ascii) (p : nat) :
  exists m' o,
    octal_deslash m p = Some m'
    /\ (p <= o <= p + strlen_at m p)%nat
    /\ length m' = length m
    /\ (forall j, (j < p \/ o < j)%nat -> m' !! j = m !! j)
    /\ ((p + strlen_at m p < length m)%nat -> m' !! o = Some NUL).
Proof.
  destruct (octal_deslash_loop_spec m p (p + strlen_at m p)%nat) with
    (fuel := S (length m - p)) (m := m) (s := p) (o := p)
    as (m' & o & E & Ho & Hl & Hfr).
  - apply strlen_at_nul.
  - pose proof (strlen_at_bound m p). lia.
  - lia.
  - lia.
  - reflexivity.
  - reflexivity.
  - exists (mem_set m' o NUL), o. unfold octal_deslash. rewrite E.
    repeat split; try lia.
    + now rewrite mem_set_length.
    + intros j Hj. unfold mem_set. rewrite list_lookup_insert_ne by lia.
      apply Hfr. lia.
    + intros Ht. unfold mem_set. apply list_lookup_insert_eq. lia.
Qed.

Lemma octal_deslash_shrinks (m m' : list ascii) (p : nat) :
  octal_deslash m p = Some m' ->
  (p + strlen_at m p < length m)%nat ->
  (strlen_at m' p <= strlen_at m p)%nat.
Proof.
  intros E Ht. destruct (octal_deslash_spec m p) as (m'' & o & E' & Ho & _ & _ & Hn).
  rewrite E in E'. injection E' as <-.
  specialize (Hn Ht). transitivity (o - p)%nat; [|lia].
  apply strlen_at_le. replace (p + (o - p))%nat with o by lia.
  unfold mem_get. now rewrite Hn.
Qed.

(** ** Packing the four strings *)

Lemma stpcpy_spec (src : string) (m : list ascii) (dst : nat) :
  snd (stpcpy m dst src) = (dst + String.length src)%nat
  /\ length (fst (stpcpy m dst src)) = length m
  /\ (forall j, (j < dst \/ dst + String.length src < j)%nat ->
                fst (stpcpy m dst src) !! j = m !! j)
  /\ ((dst + String.length src < length m)%nat ->
      fst (stpcpy m dst src) !! (dst + String.length src)%nat = Some NUL).
Proof.
  revert m dst. induction src as [|c src IH]; intros m dst; cbn [stpcpy String.length].
  - replace (dst + 0)%nat with dst by lia. cbn [fst snd]. unfold mem_set.
    repeat split.
    + apply length_insert.
    + intros j Hj. apply list_lookup_insert_ne. lia.
    + intros H. now apply list_lookup_insert_eq.
  - destruct (IH (mem_set m dst c) (S dst)) as (E & L & F & T).
    replace (dst + S (String.length src))%nat with (S dst + String.length src)%nat by lia.
    rewrite mem_set_length in L, T. repeat split; try assumption.
    intros j Hj. rewrite F by lia. apply list_lookup_insert_ne. lia.
Qed.

Lemma is_nul_eq (c : ascii) : is_nul c = true -> c = NUL.
Proof. apply Ascii.eqb_eq. Qed.

(** A NUL at or behind [p] inside the block terminates the string at [p]. *)
Lemma nul_terminates (m : list ascii) (p k : nat) :
  m !! (p + k)%nat = Some NUL ->
  (strlen_at m p <= k)%nat /\ m !! (p + strlen_at m p)%nat = Some NUL.
Proof.
  intros H. assert (Hle : (strlen_at m p <= k)%nat).
  { apply strlen_at_le. unfold mem_get. now rewrite H. }
  split; [exact Hle|].
  pose proof (strlen_at_nul m p) as Hn. unfold mem_get in Hn.
  apply lookup_lt_Some in H.
  destruct (m !! (p + strlen_at m p)%nat) as [c|] eqn:E.
  - simpl in Hn. now rewrite (is_nul_eq _ Hn).
  - apply lookup_ge_None in E. lia.
Qed.

Lemma fields_apart_intro {ST SV : Type} (e : mtab_list ST SV)
    (d v o k0 k1 k2 k3 : nat) :
  mt_dir e = Some d -> mt_device e = Some v -> mt_opts e = Some o ->
  mt_type e !! k0 = Some NUL -> (k0 < d)%nat ->
  mt_type e !! (d + k1)%nat = Some NUL -> (d + k1 < v)%nat ->
  mt_type e !! (v + k2)%nat = Some NUL -> (v + k2 < o)%nat ->
  mt_type e !! (o + k3)%nat = Some NUL ->
  fields_apart e.
Proof.
  intros Ed Ev Eo H0 L0 H1 L1 H2 L2 H3.
  change k0 with (0 + k0)%nat in H0.
  apply nul_terminates in H0 as [B0 T0], H1 as [B1 T1], H2 as [B2 T2].
  pose proof (lookup_lt_Some _ _ _ H3) as L3.
  apply nul_terminates in H3 as [B3 T3].
  exists d, v, o. unfold terminated. repeat split; try assumption; lia.
Qed.

(** The four copies of the loop body, into a block of the size the loop body
    asked for: where the terminators land. *)
Lemma pack_spec (m : list ascii) (ty dir dev opts : string) :
  length m = (String.length ty + String.length dir + String.length dev
              + String.length opts + 4)%nat ->
  forall m1 e1 m2 e2 m3 e3,
    stpcpy m 0 ty = (m1, e1) ->
    stpcpy m1 (S e1) dir = (m2, e2) ->
    stpcpy m2 (S e2) dev = (m3, e3) ->
    let m4 := strcpy m3 (S e3) opts in
    e1 = String.length ty
    /\ e2 = (S e1 + String.length dir)%nat
    /\ e3 = (S e2 + String.length dev)%nat
    /\ length m4 = length m
    /\ m4 !! e1 = Some NUL /\ m4 !! e2 = Some NUL /\ m4 !! e3 = Some NUL
    /\ m4 !! (S e3 + String.length opts)%nat = Some NUL.
Proof.
  intros Hl m1 e1 m2 e2 m3 e3 E1 E2 E3 m4.
  destruct (stpcpy_spec ty m 0) as (A1 & L1 & F1 & T1). rewrite E1 in *.
  destruct (stpcpy_spec dir m1 (S e1)) as (A2 & L2 & F2 & T2). rewrite E2 in *.
  destruct (stpcpy_spec dev m2 (S e2)) as (A3 & L3 & F3 & T3). rewrite E3 in *.
  destruct (stpcpy_spec opts m3 (S e3)) as (_ & L4 & F4 & T4).
  fold (strcpy m3 (S e3) opts) in L4, F4, T4. fold m4 in L4, F4, T4.
  cbn [fst snd] in *. subst e1 e2 e3.
  repeat split; try lia.
  - rewrite F4, F3, F2 by lia. apply T1. lia.
  - rewrite F4, F3 by lia. apply T2. lia.
  - rewrite F4 by lia. apply T3. lia.
  - apply T4. lia.
Qed.

Lemma strlen_nat (s : string) : Z.to_nat (strlen s) = String.length s.
Proof. unfold strlen. lia. Qed.

Section MntentFacts.

Context {struct_stat struct_statvfs : Type}.
Variables (stat0 : struct_stat) (statvfs0 : struct_statvfs).
Variable sys_stat : string -> option struct_stat.
Variable sys_statvfs : string -> option struct_statvfs.


(** The loop body finishes every entry: the offsets come from the lengths of
    the strings as [getmntent] handed them out, the block keeps its size, and
    the four strings lie apart. *)
Lemma mntent_fill_entry_spec (path : option string) (me : Mntent.mntent) :
  exists e,
    Mntent.fill_entry sys_stat sys_statvfs path me (zero_entry stat0 statvfs0 (Mntent.entry_size me)) = Some e
    /\ length (mt_type e) = Z.to_nat (Mntent.entry_size me)
    /\ mt_dir e = Some (S (String.length (Mntent.mnt_type me)))
    /\ mt_device e = Some (S (String.length (Mntent.mnt_type me))
                          + S (String.length (Mntent.mnt_dir me)))%nat
    /\ mt_opts e = Some (S (String.length (Mntent.mnt_type me))
                        + S (String.length (Mntent.mnt_dir me))
                        + S (String.length (Mntent.mnt_fsname me)))%nat
    /\ (strlen_at (mt_type e) (S (String.length (Mntent.mnt_type me)))
        <= String.length (Mntent.mnt_dir me))%nat
    /\ (strlen_at (mt_type e) (S (String.length (Mntent.mnt_type me))
                               + S (String.length (Mntent.mnt_dir me)))
        <= String.length (Mntent.mnt_fsname me))%nat
    /\ fields_apart e.
Proof.
  destruct me as [fs dir ty opts fr pa]. unfold Mntent.fill_entry, Mntent.entry_size.
  cbn [Mntent.mnt_fsname Mntent.mnt_dir Mntent.mnt_type Mntent.mnt_opts].
  set (n := Z.to_nat (strlen fs + strlen dir + strlen ty + strlen opts + 4)).
  assert (Hn : n = (String.length ty + String.length dir + String.length fs
                    + String.length opts + 4)%nat).
  { unfold n, strlen. lia. }
  unfold zero_entry. cbn [mt_type mt_stat mt_statvfs]. fold n.
  set (m := replicate n NUL).
  assert (Hm : length m = n) by apply length_replicate.
  destruct (stpcpy m 0 ty) as [m1 e1] eqn:E1.
  destruct (stpcpy m1 (S e1) dir) as [m2 e2] eqn:E2.
  destruct (stpcpy m2 (S e2) fs) as [m3 e3] eqn:E3.
  destruct (pack_spec m ty dir fs opts ltac:(lia) _ _ _ _ _ _ E1 E2 E3)
    as (A1 & A2 & A3 & L4 & N1 & N2 & N3 & N4).
  set (m4 := strcpy m3 (S e3) opts) in *.
  (* octal_deslash(mt->dir) *)
  destruct (octal_deslash_spec m4 (S e1)) as (m5 & o1 & D1 & Ho1 & L5 & F5 & T5).
  assert (B1 : (strlen_at m4 (S e1) <= String.length dir)%nat).
  { apply (nul_terminates m4 (S e1) (String.length dir)). now rewrite <- A2. }
  specialize (T5 ltac:(lia)).
  (* octal_deslash(mt->device) *)
  destruct (octal_deslash_spec m5 (S e2)) as (m6 & o2 & D2 & Ho2 & L6 & F6 & T6).
  assert (B2 : (strlen_at m5 (S e2) <= String.length fs)%nat).
  { apply (nul_terminates m5 (S e2) (String.length fs)).
    rewrite F5 by lia. now rewrite <- A3. }
  specialize (T6 ltac:(lia)).
  rewrite D1. cbn [mbind option_bind]. rewrite D2. cbn [mbind option_bind].
  eexists. split; [reflexivity|]. cbn [mt_type mt_dir mt_device mt_opts].
  assert (K1 : m6 !! (S e1 + (o1 - S e1))%nat = Some NUL).
  { replace (S e1 + (o1 - S e1))%nat with o1 by lia. rewrite F6 by lia. exact T5. }
  assert (K2 : m6 !! (S e2 + (o2 - S e2))%nat = Some NUL).
  { replace (S e2 + (o2 - S e2))%nat with o2 by lia. exact T6. }
  assert (K3 : m6 !! (S e3 + String.length opts)%nat = Some NUL).
  { rewrite F6, F5 by lia. exact N4. }
  assert (K0 : m6 !! e1 = Some NUL).
  { rewrite F6, F5 by lia. exact N1. }
  pose proof (nul_terminates _ _ _ K1) as [G1 _].
  pose proof (nul_terminates _ _ _ K2) as [G2 _].
  subst e1.
  replace (S (String.length ty) + S (String.length dir))%nat with (S e2) by lia.
  replace (S e2 + S (String.length fs))%nat with (S e3) by lia.
  repeat split; try reflexivity; try lia.
  apply (fields_apart_intro _ (S (String.length ty)) (S e2) (S e3)
           (String.length ty) (o1 - S (String.length ty)) (o2 - S e2)
           (String.length opts)); cbn [mt_type mt_dir mt_device mt_opts];
    try reflexivity; try assumption; lia.
Qed.

End MntentFacts.

(** ** The list xgetmountlist returns *)

Lemma lookup_all {A : Type} (pre es : list A) :
  map (fun i => (pre ++ es) !! i) (seq (length pre) (length es)) = map Some es.
Proof.
  revert pre. induction es as [|e es IH]; intros pre; [reflexivity|].
  cbn [length seq map]. f_equal.
  - now rewrite list_lookup_middle.
  - specialize (IH (pre ++ [e])). rewrite <- app_assoc, length_app in IH.
    cbn [length app] in IH. now replace (length pre + 1)%nat with (S (length pre)) in IH by lia.
Qed.

Lemma entries_of_rev_seq {A : Type} (es : list A) :
  entries_of es (rev (seq 0 (length es))) = rev (map Some es).
Proof.
  unfold entries_of. rewrite map_rev. f_equal. apply (lookup_all [] es).
Qed.

Lemma rev_seq_cons (a n : nat) (l : list nat) :
  rev (seq a (S n)) ++ l = rev (seq (S a) n) ++ a :: l.
Proof. cbn [seq rev]. now rewrite <- app_assoc. Qed.

Section MntentList.

Context {struct_stat struct_statvfs : Type}.
Variables (stat0 : struct_stat) (statvfs0 : struct_statvfs).
Variable sys_stat : string -> option struct_stat.
Variable sys_statvfs : string -> option struct_statvfs.
Variable setmntent : string -> option (list Mntent.mntent).


(** One turn allocates one cell, puts its address in front of the list and
    leaves the finished entry in the cell. *)
Lemma mntent_mount_step (path : option string) (me : Mntent.mntent)
    (heap : list (mtab_list struct_stat struct_statvfs)) (mtlist : list nat) :
  exists e,
    Mntent.fill_entry sys_stat sys_statvfs path me (zero_entry stat0 statvfs0 (Mntent.entry_size me)) = Some e
    /\ Mntent.mount_step stat0 statvfs0 sys_stat sys_statvfs path me (heap, mtlist)
       = Return (heap ++ [e], length heap :: mtlist).
Proof.
  destruct (mntent_fill_entry_spec stat0 statvfs0 sys_stat sys_statvfs path me)
    as (e & He & _).
  exists e. split; [exact He|].
  unfold Mntent.mount_step, xzalloc, dlist_add_nomalloc.
  rewrite list_lookup_middle by reflexivity. rewrite He.
  f_equal. f_equal.
  replace (length heap) with (length heap + 0)%nat at 1 by lia.
  now rewrite insert_app_r.
Qed.

Lemma mntent_mount_loop (path : option string) (table : list Mntent.mntent)
    (heap : list (mtab_list struct_stat struct_statvfs)) (mtlist : list nat) :
  exists es,
    Mntent.mount_loop stat0 statvfs0 sys_stat sys_statvfs path table (heap, mtlist)
    = Return (heap ++ es, rev (seq (length heap) (length table)) ++ mtlist)
    /\ Forall2 (fun me e => Mntent.fill_entry sys_stat sys_statvfs path me (zero_entry stat0 statvfs0 (Mntent.entry_size me)) = Some e)
         table es.
Proof.
  revert heap mtlist. induction table as [|me table IH]; intros heap mtlist.
  - exists []. split; [|constructor]. cbn. now rewrite app_nil_r.
  - destruct (mntent_mount_step path me heap mtlist) as (e & He & Hs).
    destruct (IH (heap ++ [e]) (length heap :: mtlist)) as (es & Hl & Hes).
    exists (e :: es). split; [|now constructor].
    cbn [Mntent.mount_loop]. rewrite Hs, Hl.
    rewrite length_app, <- app_assoc. cbn [length app].
    replace (length heap + 1)%nat with (S (length heap)) by lia.
    now rewrite rev_seq_cons.
Qed.

(** [xgetmountlist] over a table that opens returns: the heap holds the
    finished entries in the order of the table and the list names them from
    the last one back to the first. *)
Lemma mntent_xgetmountlist_spec (path : option string) (table : list Mntent.mntent) :
  setmntent (default "/proc/mounts"%string path) = Some table ->
  exists es,
    Mntent.xgetmountlist stat0 statvfs0 sys_stat sys_statvfs setmntent path
    = Return (es, rev (seq 0 (length table)))
    /\ Forall2 (fun me e => Mntent.fill_entry sys_stat sys_statvfs path me (zero_entry stat0 statvfs0 (Mntent.entry_size me)) = Some e)
         table es.
Proof.
  intros Ho. unfold Mntent.xgetmountlist. rewrite Ho.
  destruct (mntent_mount_loop path table [] []) as (es & Hl & Hes).
  exists es. split; [|exact Hes]. rewrite Hl. now rewrite app_nil_r.
Qed.

End MntentList.

Section GetmntinfoList.

Context {struct_stat struct_statvfs : Type}.
Variables (stat0 : struct_stat) (statvfs0 : struct_statvfs).
Variable sys_stat : string -> option struct_stat.
Variable sys_statvfs : string -> option struct_statvfs.
Variable getmntinfo : list Getmntinfo.statfs.


Lemma getmntinfo_fill_entry_spec (me : Getmntinfo.statfs) :
  length (mt_type (Getmntinfo.fill_entry sys_stat sys_statvfs me (zero_entry stat0 statvfs0 (Getmntinfo.entry_size me))))
  = Z.to_nat (Getmntinfo.entry_size me)
  /\ fields_apart (Getmntinfo.fill_entry sys_stat sys_statvfs me (zero_entry stat0 statvfs0 (Getmntinfo.entry_size me))).
Proof.
  destruct me as [ty dir dev]. unfold Getmntinfo.fill_entry, Getmntinfo.entry_size.
  cbn [Getmntinfo.f_fstypename Getmntinfo.f_mntonname Getmntinfo.f_mntfromname].
  set (n := Z.to_nat (strlen ty + strlen dir + strlen dev + strlen "" + 4)).
  assert (Hn : n = (String.length ty + String.length dir + String.length dev
                    + String.length "" + 4)%nat).
  { unfold n, strlen. cbn [String.length]. lia. }
  unfold zero_entry. cbn [mt_type mt_stat mt_statvfs]. fold n.
  set (m := replicate n NUL).
  assert (Hm : length m = n) by apply length_replicate.
  destruct (stpcpy m 0 ty) as [m1 e1] eqn:E1.
  destruct (stpcpy m1 (S e1) dir) as [m2 e2] eqn:E2.
  destruct (stpcpy m2 (S e2) dev) as [m3 e3] eqn:E3.
  destruct (pack_spec m ty dir dev "" ltac:(lia) _ _ _ _ _ _ E1 E2 E3)
    as (A1 & A2 & A3 & L4 & N1 & N2 & N3 & N4).
  cbn [mt_type]. split; [lia|].
  apply (fields_apart_intro _ (S e1) (S e2) (S e3) e1 (String.length dir)
           (String.length dev) (String.length ""));
    cbn [mt_type mt_dir mt_device mt_opts]; try reflexivity; try lia.
  - exact N1.
  - now rewrite <- A2.
  - now rewrite <- A3.
  - exact N4.
Qed.

Lemma getmntinfo_mount_step (me : Getmntinfo.statfs)
    (heap : list (mtab_list struct_stat struct_statvfs)) (mtlist : list nat) :
  Getmntinfo.mount_step stat0 statvfs0 sys_stat sys_statvfs me (heap, mtlist)
  = Return (heap ++ [Getmntinfo.fill_entry sys_stat sys_statvfs me (zero_entry stat0 statvfs0 (Getmntinfo.entry_size me))],
            length heap :: mtlist).
Proof.
  unfold Getmntinfo.mount_step, xzalloc, dlist_add_nomalloc.
  rewrite list_lookup_middle by reflexivity.
  f_equal. f_equal.
  replace (length heap) with (length heap + 0)%nat at 1 by lia.
  now rewrite insert_app_r.
Qed.

Lemma getmntinfo_mount_loop (entries : list Getmntinfo.statfs)
    (heap : list (mtab_list struct_stat struct_statvfs)) (mtlist : list nat) :
  Getmntinfo.mount_loop stat0 statvfs0 sys_stat sys_statvfs entries (heap, mtlist)
  = Return (heap ++ map (fun me => Getmntinfo.fill_entry sys_stat sys_statvfs me (zero_entry stat0 statvfs0 (Getmntinfo.entry_size me))) entries,
            rev (seq (length heap) (length entries)) ++ mtlist).
Proof.
  revert heap mtlist. induction entries as [|me entries IH]; intros heap mtlist.
  - cbn. now rewrite app_nil_r.
  - cbn [Getmntinfo.mount_loop]. rewrite getmntinfo_mount_step, IH.
    rewrite length_app, <- app_assoc. cbn [length app map].
    replace (length heap + 1)%nat with (S (length heap)) by lia.
    now rewrite rev_seq_cons.
Qed.

(** [xgetmountlist] with a null path, when [getmntinfo] reports at least one
    record. *)
Lemma getmntinfo_xgetmountlist_spec :
  getmntinfo <> [] ->
  Getmntinfo.xgetmountlist stat0 statvfs0 sys_stat sys_statvfs getmntinfo None
  = Return (map (fun me => Getmntinfo.fill_entry sys_stat sys_statvfs me (zero_entry stat0 statvfs0 (Getmntinfo.entry_size me))) getmntinfo,
            rev (seq 0 (length getmntinfo))).
Proof.
  intros Hne. unfold Getmntinfo.xgetmountlist.
  destruct (Z.eqb_spec (Z.of_nat (length getmntinfo)) 0) as [E|_].
  - destruct getmntinfo; [congruence|cbn [length] in E; lia].
  - rewrite getmntinfo_mount_loop. now rewrite app_nil_r.
Qed.

End GetmntinfoList.

Lemma Forall2_map_Some {A B : Type} (f : A -> option B) (l : list A) (es : list B) :
  Forall2 (fun a e => f a = Some e) l es -> map f l = map Some es.
Proof. induction 1 as [|a e l es H _ IH]; [reflexivity|]. cbn. now rewrite H, IH. Qed.

Lemma Forall_is_Some_map {A : Type} (es : list A) :
  Forall is_Some (map Some es).
Proof. induction es; constructor; eauto. Qed.

Lemma NoDup_rev_seq (a n : nat) : NoDup (rev (seq a n)).
Proof. apply NoDup_ListNoDup, List.NoDup_rev, NoDup_ListNoDup, NoDup_seq. Qed.

(** ** octal_deslash depends on the string only *)

Lemma octal_deslash_loop_mono (fuel fuel' : nat) (m : list ascii) (s o : nat)
    (r : list ascii * nat) :
  octal_deslash_loop fuel m s o = Some r -> (fuel <= fuel')%nat ->
  octal_deslash_loop fuel' m s o = Some r.
Proof.
  revert fuel' m s o. induction fuel as [|fuel IH]; intros fuel' m s o; [discriminate|].
  destruct fuel' as [|fuel']; [lia|]. intros H Hle. cbn [octal_deslash_loop] in *.
  destruct (is_nul (mem_get m s)); [exact H|].
  destruct (Ascii.eqb (mem_get m s) "\"%char).
  - destruct (octal_digits 3 m s 1 0) as [i oct].
    destruct (Nat.eqb i 4); apply IH; (exact H || lia).
  - apply IH; (exact H || lia).
Qed.

Section Window.

Variables (p len : nat).

Lemma octal_digits_agree (ma mb : list ascii) (s : nat) :
  window_agree p len ma mb -> is_nul (mem_get mb len) = true -> (s < len)%nat ->
  octal_digits 3 ma (p + s) 1 0 = octal_digits 3 mb s 1 0.
Proof.
  intros Hw Hn Hs. cbn [octal_digits].
  replace (p + s + 1)%nat with (p + (s + 1))%nat by lia.
  replace (p + s + 2)%nat with (p + (s + 2))%nat by lia.
  replace (p + s + 3)%nat with (p + (s + 3))%nat by lia.
  rewrite (Hw (s + 1)%nat) by lia.
  destruct (isdigit (mem_get mb (s + 1))) eqn:D1; [|reflexivity]. cbn [negb].
  apply isdigit_nonnul in D1.
  assert (s + 1 <> len)%nat by (intros E; rewrite E in D1; congruence).
  rewrite (Hw (s + 2)%nat) by lia.
  destruct (isdigit (mem_get mb (s + 2))) eqn:D2; [|reflexivity]. cbn [negb].
  apply isdigit_nonnul in D2.
  assert (s + 2 <> len)%nat by (intros E; rewrite E in D2; congruence).
  rewrite (Hw (s + 3)%nat) by lia. reflexivity.
Qed.

Lemma window_agree_set (ma mb : list ascii) (o : nat) (c : ascii) :
  window_agree p len ma mb -> (p + o < length ma)%nat -> (o < length mb)%nat ->
  window_agree p len (mem_set ma (p + o) c) (mem_set mb o c).
Proof.
  intros Hw Ha Hb j Hj. destruct (Nat.eq_dec j o) as [->|Hne].
  - now rewrite !mem_get_set_eq.
  - rewrite !mem_get_set_ne by lia. now apply Hw.
Qed.

(** The loop on [ma] from [p] and the loop on [mb] from 0 move in step. *)
Lemma octal_deslash_loop_sim (fuel : nat) (ma mb : list ascii) (s o : nat) :
  window_agree p len ma mb -> is_nul (mem_get mb len) = true ->
  (p + len < length ma)%nat -> (len < length mb)%nat ->
  (o <= s <= len)%nat ->
  match octal_deslash_loop fuel ma (p + s) (p + o), octal_deslash_loop fuel mb s o with
  | Some (ma', oa), Some (mb', ob) =>
      oa = (p + ob)%nat /\ (ob <= len)%nat /\ window_agree p len ma' mb'
      /\ length ma' = length ma /\ length mb' = length mb
  | None, None => True
  | _, _ => False
  end.
Proof.
  revert ma mb s o. induction fuel as [|fuel IH]; intros ma mb s o Hw Hn La Lb Hos;
    [exact I|].
  cbn [octal_deslash_loop]. rewrite (Hw s) by lia.
  destruct (is_nul (mem_get mb s)) eqn:Hs.
  { repeat split; try lia. exact Hw. }
  assert (Hlt : (s < len)%nat).
  { destruct (Nat.eq_dec s len) as [->|]; [congruence|lia]. }
  assert (Hcopy : forall c,
             match octal_deslash_loop fuel (mem_set ma (p + o) c) (S (p + s)) (S (p + o)),
                   octal_deslash_loop fuel (mem_set mb o c) (S s) (S o) with
             | Some (ma', oa), Some (mb', ob) =>
                 oa = (p + ob)%nat /\ (ob <= len)%nat /\ window_agree p len ma' mb'
                 /\ length ma' = length ma /\ length mb' = length mb
             | None, None => True
             | _, _ => False
             end).
  { intros c.
    replace (S (p + s)) with (p + S s)%nat by lia.
    replace (S (p + o)) with (p + S o)%nat by lia.
    specialize (IH (mem_set ma (p + o) c) (mem_set mb o c) (S s) (S o)).
    rewrite !mem_set_length in IH. apply IH; try lia.
    - apply window_agree_set; [exact Hw|lia|lia].
    - rewrite mem_get_set_ne by lia. exact Hn. }
  rewrite (octal_digits_agree ma mb s Hw Hn Hlt).
  destruct (Ascii.eqb (mem_get mb s) "\"%char); [|apply Hcopy].
  destruct (octal_digits 3 mb s 1 0) as [i oct] eqn:Hd.
  destruct (Nat.eqb_spec i 4) as [->|_]; [|apply Hcopy].
  apply octal_digits_three in Hd as (D1 & D2 & D3).
  apply isdigit_nonnul in D1, D2, D3.
  assert (Hs4 : (s + 4 <= len)%nat).
  { destruct (Nat.eq_dec (s + 1)%nat len) as [<-|]; [congruence|].
    destruct (Nat.eq_dec (s + 2)%nat len) as [<-|]; [congruence|].
    destruct (Nat.eq_dec (s + 3)%nat len) as [<-|]; [congruence|]. lia. }
  replace (p + s + 4)%nat with (p + (s + 4))%nat by lia.
  replace (S (p + o)) with (p + S o)%nat by lia.
  specialize (IH (mem_set ma (p + o) (char_of_int oct)) (mem_set mb o (char_of_int oct))
                (s + 4)%nat (S o)).
  rewrite !mem_set_length in IH. apply IH; try lia.
  - apply window_agree_set; [exact Hw|lia|lia].
  - rewrite mem_get_set_ne by lia. exact Hn.
Qed.

End Window.

Lemma cstr_of_agree (l1 l2 : list ascii) (n : nat) :
  (forall j, (j <= n)%nat -> mem_get l1 j = mem_get l2 j) ->
  is_nul (mem_get l2 n) = true ->
  cstr_of l1 = cstr_of l2.
Proof.
  revert l1 l2. induction n as [|n IH]; intros l1 l2 H Hn.
  - pose proof (H 0%nat ltac:(lia)) as H0. rewrite <- H0 in Hn.
    destruct l1 as [|a l1], l2 as [|b l2]; cbn in *; try reflexivity.
    + rewrite <- H0. reflexivity.
    + now rewrite Hn.
    + now rewrite Hn, <- H0, Hn.
  - pose proof (H 0%nat ltac:(lia)) as H0.
    destruct l1 as [|a l1], l2 as [|b l2]; cbn in *; try reflexivity.
    + rewrite <- H0. reflexivity.
    + now rewrite H0.
    + subst b. destruct (is_nul a); [reflexivity|]. f_equal.
      apply IH; [|exact Hn]. intros j Hj. apply (H (S j)). lia.
Qed.

Lemma block_of_cstr (l : list ascii) (j : nat) :
  (j <= String.length (cstr_of l))%nat ->
  mem_get (block_of (cstr_of l)) j = mem_get l j.
Proof.
  revert j. induction l as [|c l IH]; intros j Hj; cbn in *.
  - destruct j; [reflexivity|lia].
  - destruct (is_nul c) eqn:E; cbn in *.
    + destruct j; [|lia]. cbn. symmetry. now apply is_nul_eq.
    + destruct j as [|j]; [reflexivity|]. apply (IH j). lia.
Qed.

Lemma block_of_length (s : string) : length (block_of s) = S (String.length s).
Proof.
  unfold block_of. rewrite length_app. cbn [length].
  induction s as [|c s IH]; cbn in *; lia.
Qed.

(** Whatever else the block holds, [octal_deslash] leaves at [p] the string
    that [decode] makes of the string it found there. *)
Lemma octal_deslash_local (m : list ascii) (p : nat) :
  (p + strlen_at m p < length m)%nat ->
  exists m',
    octal_deslash m p = Some m' /\ decode (cstr_at m p) = Some (cstr_at m' p).
Proof.
  intros Ht. set (len := strlen_at m p). set (mb := block_of (cstr_at m p)).
  assert (Lb : length mb = S len) by apply block_of_length.
  assert (Hw : window_agree p len m mb).
  { intros j Hj. rewrite mem_get_drop. symmetry. now apply block_of_cstr. }
  assert (Hn : is_nul (mem_get mb len) = true).
  { rewrite <- (Hw len) by lia. apply strlen_at_nul. }
  destruct (octal_deslash_spec m p) as (m' & oa & Ea & _).
  destruct (octal_deslash_spec mb 0) as (mb' & ob & Eb & _).
  exists m'. split; [exact Ea|]. unfold decode. fold mb. rewrite Eb. f_equal.
  unfold octal_deslash in Ea, Eb.
  destruct (octal_deslash_loop (S (length m - p)) m p p) as [[ma1 oa1]|] eqn:La;
    [|discriminate].
  destruct (octal_deslash_loop (S (length mb - 0)) mb 0 0) as [[mb1 ob1]|] eqn:Lb1;
    [|discriminate].
  injection Ea as <-. injection Eb as <-.
  set (F := Nat.max (S (length m - p)) (S (length mb - 0))).
  apply (octal_deslash_loop_mono _ F) in La; [|lia].
  apply (octal_deslash_loop_mono _ F) in Lb1; [|lia].
  pose proof (octal_deslash_loop_sim p len F m mb 0 0 Hw Hn Ht ltac:(lia) ltac:(lia))
    as Hsim.
  replace (p + 0)%nat with p in Hsim by lia. rewrite La, Lb1 in Hsim.
  destruct Hsim as (-> & Hob & Hw' & La' & Lb').
  unfold cstr_at. rewrite drop_0. symmetry.
  apply (cstr_of_agree _ _ ob1).
  - intros j Hj. rewrite <- mem_get_drop.
    apply (window_agree_set p len); [exact Hw'|lia|lia|lia].
  - rewrite mem_get_set_eq by lia. reflexivity.
Qed.

(** A string that is not rewritten stays what it was. *)
Lemma cstr_at_frame (m m' : list ascii) (p : nat) :
  (forall j, (p <= j <= p + strlen_at m p)%nat -> m' !! j = m !! j) ->
  cstr_at m' p = cstr_at m p.
Proof.
  intros H. unfold cstr_at. apply (cstr_of_agree _ _ (strlen_at m p)).
  - intros j Hj. rewrite <- !mem_get_drop. unfold mem_get. rewrite H by lia.
    reflexivity.
  - rewrite <- mem_get_drop. apply strlen_at_nul.
Qed.

Lemma cstr_of_chars (s : string) (tail : list ascii) :
  nul_free s = true -> cstr_of (list_ascii_of_string s ++ NUL :: tail) = s.
Proof.
  induction s as [|c s IH]; intros Hs; [reflexivity|]. cbn in *.
  apply andb_true_iff in Hs as [Hc Hs]. apply negb_true_iff in Hc.
  rewrite Hc. now rewrite IH.
Qed.

(** What [stpcpy] leaves at [dst] reads back as the source. *)
Lemma stpcpy_contents (src : string) (m : list ascii) (dst : nat) :
  nul_free src = true -> (dst + String.length src < length m)%nat ->
  cstr_at (fst (stpcpy m dst src)) dst = src.
Proof.
  revert m dst. induction src as [|c src IH]; intros m dst Hs Hl.
  - cbn [stpcpy fst]. unfold cstr_at, mem_set.
    cbn [String.length] in Hl. rewrite (drop_S _ NUL dst).
    + reflexivity.
    + apply list_lookup_insert_eq. lia.
  - cbn [stpcpy String.length] in *. apply andb_true_iff in Hs as [Hc Hs].
    apply negb_true_iff in Hc.
    destruct (stpcpy_spec src (mem_set m dst c) (S dst)) as (_ & _ & F & _).
    unfold cstr_at. rewrite (drop_S _ c dst).
    + cbn [cstr_of]. rewrite Hc. f_equal. apply IH; [exact Hs|].
      rewrite mem_set_length. lia.
    + rewrite F by lia. apply list_lookup_insert_eq. lia.
Qed.

Lemma cstr_at_strlen (m : list ascii) (p : nat) (s : string) :
  cstr_at m p = s -> strlen_at m p = String.length s.
Proof. unfold strlen_at. now intros ->. Qed.

(** The four copies leave the four strings readable at their offsets. *)
Lemma pack_contents (m : list ascii) (ty dir dev opts : string) :
  length m = (String.length ty + String.length dir + String.length dev
              + String.length opts + 4)%nat ->
  nul_free ty = true -> nul_free dir = true ->
  nul_free dev = true -> nul_free opts = true ->
  forall m1 e1 m2 e2 m3 e3,
    stpcpy m 0 ty = (m1, e1) ->
    stpcpy m1 (S e1) dir = (m2, e2) ->
    stpcpy m2 (S e2) dev = (m3, e3) ->
    let m4 := strcpy m3 (S e3) opts in
    cstr_at m4 0 = ty /\ cstr_at m4 (S e1) = dir
    /\ cstr_at m4 (S e2) = dev /\ cstr_at m4 (S e3) = opts.
Proof.
  intros Hl Nty Ndir Ndev Nopts m1 e1 m2 e2 m3 e3 E1 E2 E3 m4.
  destruct (pack_spec m ty dir dev opts Hl _ _ _ _ _ _ E1 E2 E3)
    as (A1 & A2 & A3 & _).
  destruct (stpcpy_spec ty m 0) as (_ & L1 & _ & _).
  destruct (stpcpy_spec dir m1 (S e1)) as (_ & L2 & F2 & _).
  destruct (stpcpy_spec dev m2 (S e2)) as (_ & L3 & F3 & _).
  destruct (stpcpy_spec opts m3 (S e3)) as (_ & L4 & F4 & _).
  pose proof (stpcpy_contents ty m 0 Nty ltac:(lia)) as C1.
  pose proof (stpcpy_contents dir m1 (S e1) Ndir) as C2.
  pose proof (stpcpy_contents dev m2 (S e2) Ndev) as C3.
  pose proof (stpcpy_contents opts m3 (S e3) Nopts) as C4.
  rewrite E1 in *. rewrite E2 in *. rewrite E3 in *.
  fold (strcpy m3 (S e3) opts) in L4, F4, C4. fold m4 in L4, F4, C4.
  cbn [fst snd] in *.
  specialize (C2 ltac:(lia)). specialize (C3 ltac:(lia)). specialize (C4 ltac:(lia)).
  assert (D2 : cstr_at m2 0 = ty).
  { rewrite <- C1. apply cstr_at_frame. intros j Hj.
    rewrite (cstr_at_strlen _ _ _ C1) in Hj. apply F2. lia. }
  assert (D3 : cstr_at m3 0 = ty /\ cstr_at m3 (S e1) = dir).
  { split.
    - rewrite <- D2. apply cstr_at_frame. intros j Hj.
      rewrite (cstr_at_strlen _ _ _ D2) in Hj. apply F3. lia.
    - rewrite <- C2. apply cstr_at_frame. intros j Hj.
      rewrite (cstr_at_strlen _ _ _ C2) in Hj. apply F3. lia. }
  destruct D3 as [D3a D3b].
  repeat split.
  - rewrite <- D3a. apply cstr_at_frame. intros j Hj.
    rewrite (cstr_at_strlen _ _ _ D3a) in Hj. apply F4. lia.
  - rewrite <- D3b. apply cstr_at_frame. intros j Hj.
    rewrite (cstr_at_strlen _ _ _ D3b) in Hj. apply F4. lia.
  - rewrite <- C3. apply cstr_at_frame. intros j Hj.
    rewrite (cstr_at_strlen _ _ _ C3) in Hj. apply F4. lia.
  - exact C4.
Qed.

Section MntentContents.

Context {struct_stat struct_statvfs : Type}.
Variables (stat0 : struct_stat) (statvfs0 : struct_statvfs).
Variable sys_stat : string -> option struct_stat.
Variable sys_statvfs : string -> option struct_statvfs.

(** What the finished entry holds: the type and the options as the table
    has them, the directory and the device decoded. *)
Lemma mntent_fill_entry_contents (path : option string) (me : Mntent.mntent)
    (e : mtab_list struct_stat struct_statvfs) :
  nul_free (Mntent.mnt_type me) = true -> nul_free (Mntent.mnt_dir me) = true ->
  nul_free (Mntent.mnt_fsname me) = true -> nul_free (Mntent.mnt_opts me) = true ->
  Mntent.fill_entry sys_stat sys_statvfs path me
    (zero_entry stat0 statvfs0 (Mntent.entry_size me)) = Some e ->
  cstr_at (mt_type e) 0 = Mntent.mnt_type me
  /\ decode (Mntent.mnt_dir me)
     = Some (cstr_at (mt_type e) (S (String.length (Mntent.mnt_type me))))
  /\ decode (Mntent.mnt_fsname me)
     = Some (cstr_at (mt_type e) (S (String.length (Mntent.mnt_type me))
                                  + S (String.length (Mntent.mnt_dir me))))
  /\ cstr_at (mt_type e) (S (String.length (Mntent.mnt_type me))
                          + S (String.length (Mntent.mnt_dir me))
                          + S (String.length (Mntent.mnt_fsname me)))
     = Mntent.mnt_opts me.
Proof.
  destruct me as [fs dir ty opts fr pa]. unfold Mntent.fill_entry, Mntent.entry_size.
  cbn [Mntent.mnt_fsname Mntent.mnt_dir Mntent.mnt_type Mntent.mnt_opts].
  intros Nty Ndir Nfs Nopts.
  set (n := Z.to_nat (strlen fs + strlen dir + strlen ty + strlen opts + 4)).
  assert (Hn : n = (String.length ty + String.length dir + String.length fs
                    + String.length opts + 4)%nat).
  { unfold n, strlen. lia. }
  unfold zero_entry. cbn [mt_type mt_stat mt_statvfs]. fold n.
  set (m := replicate n NUL).
  assert (Hm : length m = n) by apply length_replicate.
  destruct (stpcpy m 0 ty) as [m1 e1] eqn:E1.
  destruct (stpcpy m1 (S e1) dir) as [m2 e2] eqn:E2.
  destruct (stpcpy m2 (S e2) fs) as [m3 e3] eqn:E3.
  destruct (pack_spec m ty dir fs opts ltac:(lia) _ _ _ _ _ _ E1 E2 E3)
    as (A1 & A2 & A3 & L4 & N1 & N2 & N3 & N4).
  destruct (pack_contents m ty dir fs opts ltac:(lia) Nty Ndir Nfs Nopts
              _ _ _ _ _ _ E1 E2 E3) as (C0 & C1 & C2 & C3).
  set (m4 := strcpy m3 (S e3) opts) in *.
  pose proof (cstr_at_strlen _ _ _ C0) as S0.
  pose proof (cstr_at_strlen _ _ _ C1) as S1.
  pose proof (cstr_at_strlen _ _ _ C2) as S2.
  pose proof (cstr_at_strlen _ _ _ C3) as S3.
  (* octal_deslash(mt->dir) *)
  destruct (octal_deslash_local m4 (S e1) ltac:(lia)) as (m5 & D1 & R1).
  destruct (octal_deslash_spec m4 (S e1)) as (m5' & o1 & D1' & Ho1 & L5 & F5 & T5).
  rewrite D1 in D1'. injection D1' as <-. specialize (T5 ltac:(lia)).
  assert (G1 : (strlen_at m5 (S e1) <= o1 - S e1)%nat).
  { apply (nul_terminates m5 (S e1) (o1 - S e1)).
    now replace (S e1 + (o1 - S e1))%nat with o1 by lia. }
  assert (C2' : cstr_at m5 (S e2) = fs).
  { rewrite <- C2. apply cstr_at_frame. intros j Hj. apply F5. lia. }
  pose proof (cstr_at_strlen _ _ _ C2') as S2'.
  (* octal_deslash(mt->device) *)
  destruct (octal_deslash_local m5 (S e2) ltac:(lia)) as (m6 & D2 & R2).
  destruct (octal_deslash_spec m5 (S e2)) as (m6' & o2 & D2' & Ho2 & L6 & F6 & T6).
  rewrite D2 in D2'. injection D2' as <-.
  rewrite D1. cbn [mbind option_bind]. rewrite D2. cbn [mbind option_bind].
  intros [= <-]. cbn [mt_type].
  subst e1.
  replace (S (String.length ty) + S (String.length dir))%nat with (S e2) by lia.
  replace (S e2 + S (String.length fs))%nat with (S e3) by lia.
  repeat split.
  - rewrite <- C0. transitivity (cstr_at m5 0).
    + apply cstr_at_frame. intros j Hj. apply F6. left.
      assert (cstr_at m5 0 = cstr_at m4 0) as E.
      { apply cstr_at_frame. intros k Hk. apply F5. lia. }
      unfold strlen_at in Hj. rewrite E in Hj. fold (strlen_at m4 0) in Hj. lia.
    + apply cstr_at_frame. intros j Hj. apply F5. lia.
  - rewrite C1 in R1. rewrite R1. f_equal. symmetry.
    apply cstr_at_frame. intros j Hj. apply F6. lia.
  - rewrite C2' in R2. exact R2.
  - rewrite <- C3. transitivity (cstr_at m5 (S e3)).
    + apply cstr_at_frame. intros j Hj. apply F6. lia.
    + apply cstr_at_frame. intros j Hj. apply F5. lia.
Qed.

End MntentContents.

(** ** octal_deslash: the escape decoder *)

(** C3, at the failing input: the digit test is [isdigit], which lets 8 and 9
    through.  In the string [\089] the backslash is followed by one octal
    digit only, yet the four bytes collapse to the one byte
    (0*8+8)*8+9 = 73, the letter I.  The example of the specification and a
    truncated escape behave as the claim says. *)
Theorem octal_deslash_takes_decimal_digits :
  decode "\089" = Some "I"%string
  /\ decode "a\040b" = Some "a b"%string
  /\ decode "a\04" = Some "a\04"%string.
Proof. repeat split; reflexivity. Qed.

(** ** xgetmountlist: the snapshot *)

(** C5, counterexample: the directory [/mnt/a\040b] takes 11 bytes in the
    table and 8 once decoded.  The device was copied behind the raw directory
    and stays at offset 17, while the decoded directory, which starts at
    offset 5, now ends with its terminator at offset 13. *)
Lemma mntent_fields_gap :
  exists e,
    Mntent.fill_entry (fun _ => None) (fun _ => None) None
      (Mntent.Mntent "/dev/sda1" "/mnt/a\040b" "ext4" "rw" 0 0)
      (zero_entry tt tt
         (Mntent.entry_size (Mntent.Mntent "/dev/sda1" "/mnt/a\040b" "ext4" "rw" 0 0)))
    = Some e
    /\ mt_dir e = Some 5%nat
    /\ cstr_at (mt_type e) 5 = "/mnt/a b"%string
    /\ (5 + strlen_at (mt_type e) 5 = 13)%nat
    /\ mt_device e = Some 17%nat
    /\ ~ fields_adjacent e.
Proof.
  eexists. split; [vm_compute; reflexivity|].
  repeat split; try reflexivity.
  intros (_ & H & _). specialize (H 5%nat eq_refl). vm_compute in H. discriminate.
Qed.

(** C5, amended: for every record of the text source the loop body finishes
    an entry whose offsets are computed from the lengths of the strings as
    the table has them, before decoding: [dir] one byte behind the terminator
    of the type, [device] one byte behind where the raw [dir] ended, [opts]
    one byte behind where the raw device ended.  Each of the four strings is
    terminated and they lie apart; decoding never lengthens [dir] or
    [device]; the fields are back to back exactly when the strings in the
    block still have the lengths they had in the table; and the block reads
    back as the type and the options of the record and as its directory and
    device decoded. *)
Theorem mntent_offsets_from_raw_lengths {ST SV : Type} (stat0 : ST) (statvfs0 : SV)
    (sys_stat : string -> option ST) (sys_statvfs : string -> option SV)
    (path : option string) (me : Mntent.mntent) :
  let lty := String.length (Mntent.mnt_type me) in
  let ldir := String.length (Mntent.mnt_dir me) in
  let ldev := String.length (Mntent.mnt_fsname me) in
  exists e,
    Mntent.fill_entry sys_stat sys_statvfs path me
      (zero_entry stat0 statvfs0 (Mntent.entry_size me)) = Some e
    /\ mt_dir e = Some (S lty)
    /\ mt_device e = Some (S lty + S ldir)%nat
    /\ mt_opts e = Some (S lty + S ldir + S ldev)%nat
    /\ fields_apart e
    /\ (strlen_at (mt_type e) (S lty) <= ldir)%nat
    /\ (strlen_at (mt_type e) (S lty + S ldir) <= ldev)%nat
    /\ (fields_adjacent e <->
        strlen_at (mt_type e) 0 = lty
        /\ strlen_at (mt_type e) (S lty) = ldir
        /\ strlen_at (mt_type e) (S lty + S ldir) = ldev)
    /\ (nul_free (Mntent.mnt_type me) && nul_free (Mntent.mnt_dir me)
        && nul_free (Mntent.mnt_fsname me) && nul_free (Mntent.mnt_opts me) = true ->
        cstr_at (mt_type e) 0 = Mntent.mnt_type me
        /\ decode (Mntent.mnt_dir me) = Some (cstr_at (mt_type e) (S lty))
        /\ decode (Mntent.mnt_fsname me)
           = Some (cstr_at (mt_type e) (S lty + S ldir))
        /\ cstr_at (mt_type e) (S lty + S ldir + S ldev) = Mntent.mnt_opts me).
Proof.
  intros lty ldir ldev.
  destruct (mntent_fill_entry_spec stat0 statvfs0 sys_stat sys_statvfs path me)
    as (e & He & _ & Ed & Ev & Eo & B1 & B2 & Hap).
  fold lty ldir ldev in Ed, Ev, Eo, B1, B2.
  exists e. split; [exact He|]. do 6 (split; [assumption|]). split; [split|].
  3: { intros Hn. apply andb_true_iff in Hn as [Hn N4].
       apply andb_true_iff in Hn as [Hn N3]. apply andb_true_iff in Hn as [N1 N2].
       exact (mntent_fill_entry_contents stat0 statvfs0 sys_stat sys_statvfs
                path me e N1 N2 N3 N4 He). }
  all: intros H; repeat split.
  - destruct H as (H1 & _). rewrite Ed in H1. injection H1 as H1. lia.
  - destruct H as (_ & H2 & _). specialize (H2 _ Ed). rewrite Ev in H2.
    injection H2 as H2. lia.
  - destruct H as (_ & _ & H3). specialize (H3 _ Ev). rewrite Eo in H3.
    set (x := strlen_at (mt_type e) (S lty + S ldir)) in *.
    assert (E : (S lty + S ldir + S ldev)%nat = S (S lty + S ldir + x))
      by congruence.
    lia.
  - destruct H as (H1 & _). rewrite Ed, H1. reflexivity.
  - destruct H as (_ & H2 & _). intros d Hd.
    assert (d = S lty) as -> by congruence.
    rewrite Ev, H2. f_equal. lia.
  - destruct H as (_ & _ & H3). intros v Hv.
    assert (v = (S lty + S ldir)%nat) as -> by congruence.
    rewrite Eo, H3. f_equal. lia.
Qed.

Lemma mntent_offsets_from_raw_lengths_witness :
  exists e,
    Mntent.fill_entry (fun _ => None) (fun _ => None) None
      (Mntent.Mntent "/dev/sda1" "/mnt/a\040b" "ext4" "rw" 0 0)
      (zero_entry tt tt
         (Mntent.entry_size (Mntent.Mntent "/dev/sda1" "/mnt/a\040b" "ext4" "rw" 0 0)))
    = Some e
    /\ cstr_at (mt_type e) 0 = "ext4"%string
    /\ decode "/mnt/a\040b" = Some (cstr_at (mt_type e) 5)
    /\ decode "/dev/sda1" = Some (cstr_at (mt_type e) 17)
    /\ cstr_at (mt_type e) 27 = "rw"%string.
Proof.
  destruct (mntent_offsets_from_raw_lengths tt tt (fun _ => None) (fun _ => None) None
              (Mntent.Mntent "/dev/sda1" "/mnt/a\040b" "ext4" "rw" 0 0))
    as (e & He & _ & _ & _ & _ & _ & _ & _ & Hc).
  exists e. split; [exact He|]. exact (Hc eq_refl).
Defined.

Lemma length_rev_seq (a n : nat) : length (rev (seq a n)) = n.
Proof. now rewrite List.length_rev, List.length_seq. Qed.

(** C6: a table of N records gives a list of exactly N entries in the
    reverse of the order of enumeration, entry [i] of the list being the one
    the loop body finished for record [N-1-i].  On the [getmntent] side this
    is for every table that opens, the empty one included; on the
    [getmntinfo] side for every call that succeeds, which is a call that
    reports at least one record (0 is what [getmntinfo] returns when it
    fails).  Every turn of either loop puts the address of the cell it has
    just allocated in front of the list. *)
Theorem xgetmountlist_reversed {ST SV : Type} (stat0 : ST) (statvfs0 : SV)
    (sys_stat : string -> option ST) (sys_statvfs : string -> option SV) :
  (forall setmntent path table,
      setmntent (default "/proc/mounts"%string path) = Some table ->
      exists heap mtlist,
        Mntent.xgetmountlist stat0 statvfs0 sys_stat sys_statvfs setmntent path
        = Return (heap, mtlist)
        /\ length mtlist = length table
        /\ Forall is_Some (entries_of heap mtlist)
        /\ entries_of heap mtlist
           = rev (map (fun me =>
                         Mntent.fill_entry sys_stat sys_statvfs path me
                           (zero_entry stat0 statvfs0 (Mntent.entry_size me)))
                    table))
  /\ (forall getmntinfo,
        (0 < length getmntinfo)%nat ->
        exists heap mtlist,
          Getmntinfo.xgetmountlist stat0 statvfs0 sys_stat sys_statvfs getmntinfo None
          = Return (heap, mtlist)
          /\ length mtlist = length getmntinfo
          /\ entries_of heap mtlist
             = rev (map (fun me =>
                           Some (Getmntinfo.fill_entry sys_stat sys_statvfs me
                                   (zero_entry stat0 statvfs0 (Getmntinfo.entry_size me))))
                      getmntinfo))
  /\ (forall path me heap mtlist,
        exists heap',
          Mntent.mount_step stat0 statvfs0 sys_stat sys_statvfs path me (heap, mtlist)
          = Return (heap', length heap :: mtlist))
  /\ (forall me heap mtlist,
        exists heap',
          Getmntinfo.mount_step stat0 statvfs0 sys_stat sys_statvfs me (heap, mtlist)
          = Return (heap', length heap :: mtlist)).
Proof.
  split; [|split; [|split]].
  - intros setmntent path table Ho.
    destruct (mntent_xgetmountlist_spec stat0 statvfs0 sys_stat sys_statvfs
                setmntent path table Ho) as (es & Hx & Hes).
    exists es, (rev (seq 0 (length table))). split; [exact Hx|].
    split; [apply length_rev_seq|].
    rewrite (Forall2_length _ _ _ Hes), entries_of_rev_seq.
    split.
    + apply List.Forall_rev, Forall_is_Some_map.
    + f_equal. symmetry. now apply Forall2_map_Some.
  - intros getmntinfo Hn.
    eexists _, _. split.
    + apply getmntinfo_xgetmountlist_spec. intros ->. cbn in Hn. lia.
    + split; [apply length_rev_seq|].
      pose proof (entries_of_rev_seq
        (map (fun me => Getmntinfo.fill_entry sys_stat sys_statvfs me
                (zero_entry stat0 statvfs0 (Getmntinfo.entry_size me))) getmntinfo)) as E.
      rewrite length_map in E. rewrite E. now rewrite map_map.
  - intros path me heap mtlist.
    destruct (mntent_mount_step stat0 statvfs0 sys_stat sys_statvfs path me heap mtlist)
      as (e & _ & Hs).
    eexists. exact Hs.
  - intros me heap mtlist. eexists. apply getmntinfo_mount_step.
Qed.

Lemma xgetmountlist_reversed_witness :
  (exists heap mtlist,
      Mntent.xgetmountlist tt tt (fun _ => None) (fun _ => None)
        (fun _ => Some sample_mounts) None = Return (heap, mtlist)
      /\ length mtlist = 2%nat)
  /\ (exists heap mtlist,
        Getmntinfo.xgetmountlist tt tt (fun _ => None) (fun _ => None)
          sample_statfs None = Return (heap, mtlist)
        /\ length mtlist = 2%nat).
Proof.
  split.
  - destruct (proj1 (xgetmountlist_reversed tt tt (fun _ => None) (fun _ => None))
                (fun _ => Some sample_mounts) None sample_mounts eq_refl)
      as (heap & mtlist & H & L & _).
    exists heap, mtlist. split; [exact H|exact L].
  - destruct (proj1 (proj2 (xgetmountlist_reversed tt tt (fun _ => None) (fun _ => None)))
                sample_statfs ltac:(simpl; lia))
      as (heap & mtlist & H & L & _).
    exists heap, mtlist. split; [exact H|exact L].
Defined.

Lemma Forall2_rev_intro {A B : Type} (P : A -> B -> Prop) (l : list A) (k : list B) :
  Forall2 P l k -> Forall2 P (rev l) (rev k).
Proof.
  induction 1 as [|a b l k H _ IH]; [constructor|].
  cbn [rev]. apply Forall2_app; [exact IH|]. constructor; [exact H|constructor].
Qed.

Lemma cstr_at_nul (m : list ascii) (p : nat) :
  m !! p = Some NUL -> cstr_at m p = EmptyString.
Proof.
  intros H. unfold cstr_at. rewrite (drop_S _ NUL p) by exact H. reflexivity.
Qed.

Section GetmntinfoMore.

Context {struct_stat struct_statvfs : Type}.
Variables (stat0 : struct_stat) (statvfs0 : struct_statvfs).
Variable sys_stat : string -> option struct_stat.
Variable sys_statvfs : string -> option struct_statvfs.

(** What the loop body of the [getmntinfo] side leaves for one record. *)
Lemma getmntinfo_fill_entry_layout (me : Getmntinfo.statfs) :
  exists m d v o,
    Getmntinfo.fill_entry sys_stat sys_statvfs me
      (zero_entry stat0 statvfs0 (Getmntinfo.entry_size me))
    = Mtab (default stat0 (sys_stat (Getmntinfo.f_mntonname me)))
        (default statvfs0 (sys_statvfs (Getmntinfo.f_mntonname me)))
        (Some d) (Some v) (Some o) m
    /\ d = S (String.length (Getmntinfo.f_fstypename me))
    /\ v = (d + S (String.length (Getmntinfo.f_mntonname me)))%nat
    /\ o = (v + S (String.length (Getmntinfo.f_mntfromname me)))%nat
    /\ length m = S o
    /\ m !! o = Some NUL
    /\ (nul_free (Getmntinfo.f_fstypename me) = true ->
        nul_free (Getmntinfo.f_mntonname me) = true ->
        nul_free (Getmntinfo.f_mntfromname me) = true ->
        cstr_at m 0 = Getmntinfo.f_fstypename me
        /\ cstr_at m d = Getmntinfo.f_mntonname me
        /\ cstr_at m v = Getmntinfo.f_mntfromname me).
Proof.
  destruct me as [ty dir dev]. unfold Getmntinfo.fill_entry, Getmntinfo.entry_size.
  cbn [Getmntinfo.f_fstypename Getmntinfo.f_mntonname Getmntinfo.f_mntfromname].
  set (n := Z.to_nat (strlen ty + strlen dir + strlen dev + strlen "" + 4)).
  assert (Hn : n = (String.length ty + String.length dir + String.length dev
                    + String.length "" + 4)%nat).
  { unfold n, strlen. cbn [String.length]. lia. }
  unfold zero_entry. cbn [mt_type mt_stat mt_statvfs]. fold n.
  set (m := replicate n NUL).
  assert (Hm : length m = n) by apply length_replicate.
  destruct (stpcpy m 0 ty) as [m1 e1] eqn:E1.
  destruct (stpcpy m1 (S e1) dir) as [m2 e2] eqn:E2.
  destruct (stpcpy m2 (S e2) dev) as [m3 e3] eqn:E3.
  destruct (pack_spec m ty dir dev "" ltac:(lia) _ _ _ _ _ _ E1 E2 E3)
    as (A1 & A2 & A3 & L4 & N1 & N2 & N3 & N4).
  pose proof (pack_contents m ty dir dev "" ltac:(lia)) as PC.
  cbn [String.length] in *. rewrite Nat.add_0_r in N4.
  eexists _, _, _, _. split; [reflexivity|].
  repeat split; try lia.
  - exact N4.
  - apply (PC H H0 H1 eq_refl _ _ _ _ _ _ E1 E2 E3).
  - apply (PC H H0 H1 eq_refl _ _ _ _ _ _ E1 E2 E3).
  - apply (PC H H0 H1 eq_refl _ _ _ _ _ _ E1 E2 E3).
Qed.

End GetmntinfoMore.

(** The fields of an entry whose offsets come from the lengths [a], [b] and
    [c] are back to back exactly when the strings in the block have these
    lengths. *)
Lemma fields_adjacent_lengths {ST SV : Type} (e : mtab_list ST SV) (a b c : nat) :
  mt_dir e = Some (S a) ->
  mt_device e = Some (S a + S b)%nat ->
  mt_opts e = Some (S a + S b + S c)%nat ->
  fields_adjacent e <->
  strlen_at (mt_type e) 0 = a /\ strlen_at (mt_type e) (S a) = b
  /\ strlen_at (mt_type e) (S a + S b) = c.
Proof.
  intros Ed Ev Eo. split.
  - intros (H1 & H2 & H3). specialize (H2 _ Ed). specialize (H3 _ Ev).
    rewrite Ed in H1. rewrite Ev in H2. rewrite Eo in H3.
    set (x := strlen_at (mt_type e) 0) in *.
    set (y := strlen_at (mt_type e) (S a)) in *.
    set (z := strlen_at (mt_type e) (S a + S b)) in *.
    assert (E1 : S a = S x) by congruence.
    assert (E2 : (S a + S b)%nat = S (S a + y)) by congruence.
    assert (E3 : (S a + S b + S c)%nat = S (S a + S b + z)) by congruence.
    lia.
  - intros (H1 & H2 & H3). repeat split.
    + rewrite Ed, H1. reflexivity.
    + intros d Hd. assert (d = S a) as -> by congruence.
      rewrite Ev, H2. f_equal. lia.
    + intros v Hv. assert (v = (S a + S b)%nat) as -> by congruence.
      rewrite Eo, H3. f_equal. lia.
Qed.

Section EntryLayout.

Context {struct_stat struct_statvfs : Type}.
Variables (stat0 : struct_stat) (statvfs0 : struct_statvfs).
Variable sys_stat : string -> option struct_stat.
Variable sys_statvfs : string -> option struct_statvfs.

(** The entry the [getmntent] side finishes for a record of C strings: what
    it reads back as, and when its fields are back to back. *)
Lemma mntent_entry_reads_back (path : option string) (me : Mntent.mntent)
    (e : mtab_list struct_stat struct_statvfs) :
  Mntent.fill_entry sys_stat sys_statvfs path me
    (zero_entry stat0 statvfs0 (Mntent.entry_size me)) = Some e ->
  mntent_c_strings me = true ->
  exists dir' dev',
    decode (Mntent.mnt_dir me) = Some dir'
    /\ decode (Mntent.mnt_fsname me) = Some dev'
    /\ reads_back e (Mntent.mnt_type me) dir' dev' (Mntent.mnt_opts me)
    /\ (fields_adjacent e <->
        String.length dir' = String.length (Mntent.mnt_dir me)
        /\ String.length dev' = String.length (Mntent.mnt_fsname me)).
Proof.
  intros He Hn. unfold mntent_c_strings in Hn.
  apply andb_true_iff in Hn as [Hn N4].
  apply andb_true_iff in Hn as [Hn N3]. apply andb_true_iff in Hn as [N1 N2].
  destruct (mntent_fill_entry_contents stat0 statvfs0 sys_stat sys_statvfs
              path me e N1 N2 N3 N4 He) as (C0 & C1 & C2 & C3).
  destruct (mntent_fill_entry_spec stat0 statvfs0 sys_stat sys_statvfs path me)
    as (e' & He' & Hl & Ed & Ev & Eo & _).
  rewrite He in He'. injection He' as <-.
  set (lty := String.length (Mntent.mnt_type me)) in *.
  set (ldir := String.length (Mntent.mnt_dir me)) in *.
  set (ldev := String.length (Mntent.mnt_fsname me)) in *.
  exists (cstr_at (mt_type e) (S lty)), (cstr_at (mt_type e) (S lty + S ldir)).
  split; [exact C1|]. split; [exact C2|]. split.
  - exists (S lty), (S lty + S ldir)%nat, (S lty + S ldir + S ldev)%nat.
    repeat split; try assumption.
    rewrite Hl. unfold Mntent.entry_size, strlen. subst lty ldir ldev. lia.
  - rewrite (fields_adjacent_lengths e lty ldir ldev Ed Ev Eo).
    unfold strlen_at. rewrite C0. fold lty. tauto.
Qed.

(** The entry the [getmntinfo] side finishes for a record of C strings. *)
Lemma getmntinfo_entry_reads_back (me : Getmntinfo.statfs) :
  statfs_c_strings me = true ->
  let e := Getmntinfo.fill_entry sys_stat sys_statvfs me
             (zero_entry stat0 statvfs0 (Getmntinfo.entry_size me)) in
  reads_back e (Getmntinfo.f_fstypename me) (Getmntinfo.f_mntonname me)
    (Getmntinfo.f_mntfromname me) EmptyString
  /\ fields_adjacent e.
Proof.
  intros Hn e. unfold statfs_c_strings in Hn.
  apply andb_true_iff in Hn as [Hn N3]. apply andb_true_iff in Hn as [N1 N2].
  destruct (getmntinfo_fill_entry_layout stat0 statvfs0 sys_stat sys_statvfs me)
    as (m & d & v & o & He & Hd & Hv & Ho & Hl & Hnul & Hc).
  destruct (Hc N1 N2 N3) as (C0 & C1 & C2).
  subst e. rewrite He. split.
  - exists d, v, o. cbn [mt_dir mt_device mt_opts mt_type String.length].
    repeat split; try assumption.
    + now apply cstr_at_nul.
    + rewrite Hl. f_equal. lia.
  - subst d v o.
    apply (fields_adjacent_lengths _ (String.length (Getmntinfo.f_fstypename me))
             (String.length (Getmntinfo.f_mntonname me))
             (String.length (Getmntinfo.f_mntfromname me)));
      cbn [mt_dir mt_device mt_opts mt_type]; try (f_equal; lia).
    unfold strlen_at. rewrite C0.
    split; [reflexivity|]. split.
    + now rewrite C1.
    + now rewrite C2.
Qed.

End EntryLayout.

(** C8, counterexample: the second record of the sample table has the mount
    point [/mnt/a\040b].  The entry [xgetmountlist] returns for it (the head
    of the list) holds the decoded directory [/mnt/a b] at offset 6, whose
    terminator is at offset 14, while its device starts at offset 18: the
    bytes 15 to 17 belong to none of the four strings.  The strings are not
    back to back, and with their terminators they take 31 of the 34 bytes of
    the block. *)
Lemma mount_entry_not_contiguous :
  exists heap mtlist e,
    Mntent.xgetmountlist tt tt (fun _ => None) (fun _ => None)
      (fun _ => Some sample_mounts) None = Return (heap, mtlist)
    /\ head (entries_of heap mtlist) = Some (Some e)
    /\ mt_dir e = Some 6%nat
    /\ cstr_at (mt_type e) 6 = "/mnt/a b"%string
    /\ (6 + strlen_at (mt_type e) 6 = 14)%nat
    /\ mt_device e = Some 18%nat
    /\ ~ fields_adjacent e
    /\ bytes_used e = 31%nat
    /\ length (mt_type e) = 34%nat.
Proof.
  eexists _, _, _. split; [vm_compute; reflexivity|].
  split; [vm_compute; reflexivity|].
  repeat split; try reflexivity.
  intros (_ & H & _). specialize (H 6%nat eq_refl). vm_compute in H. discriminate.
Qed.

(** C8, amended: every entry of the list [xgetmountlist] returns has [dir],
    [device] and [opts] set; its four strings are each terminated inside the
    one block that was allocated for it, whose size is the four lengths of
    the record's strings plus four; each string with its terminator ends
    before the next one starts; and no two entries of the list share a cell.
    For a record of C strings the entry reads back as the record's type,
    directory, device and options (directory and device decoded on the
    [getmntent] side, the options empty on the [getmntinfo] side), the
    terminator of the options being the last byte of the block.  On the
    [getmntent] side the four strings are back to back exactly when
    decoding changed the length of neither the directory nor the device; on
    the [getmntinfo] side, where nothing is decoded, they always are.  This
    holds on the [getmntent] side for every table that opens and on the
    [getmntinfo] side whenever the call reports a record. *)
Theorem mount_entries_own_block {ST SV : Type} (stat0 : ST) (statvfs0 : SV)
    (sys_stat : string -> option ST) (sys_statvfs : string -> option SV) :
  (forall setmntent path table,
      setmntent (default "/proc/mounts"%string path) = Some table ->
      exists heap mtlist,
        Mntent.xgetmountlist stat0 statvfs0 sys_stat sys_statvfs setmntent path
        = Return (heap, mtlist)
        /\ NoDup mtlist
        /\ Forall2 (fun me oe =>
                      exists e, oe = Some e
                        /\ length (mt_type e) = Z.to_nat (Mntent.entry_size me)
                        /\ fields_apart e
                        /\ (mntent_c_strings me = true ->
                            exists dir' dev',
                              decode (Mntent.mnt_dir me) = Some dir'
                              /\ decode (Mntent.mnt_fsname me) = Some dev'
                              /\ reads_back e (Mntent.mnt_type me) dir' dev'
                                   (Mntent.mnt_opts me)
                              /\ (fields_adjacent e <->
                                  String.length dir'
                                  = String.length (Mntent.mnt_dir me)
                                  /\ String.length dev'
                                     = String.length (Mntent.mnt_fsname me))))
             (rev table) (entries_of heap mtlist))
  /\ (forall getmntinfo,
        (0 < length getmntinfo)%nat ->
        exists heap mtlist,
          Getmntinfo.xgetmountlist stat0 statvfs0 sys_stat sys_statvfs getmntinfo None
          = Return (heap, mtlist)
          /\ NoDup mtlist
          /\ Forall2 (fun me oe =>
                        exists e, oe = Some e
                          /\ length (mt_type e) = Z.to_nat (Getmntinfo.entry_size me)
                          /\ fields_apart e
                          /\ (statfs_c_strings me = true ->
                              reads_back e (Getmntinfo.f_fstypename me)
                                (Getmntinfo.f_mntonname me)
                                (Getmntinfo.f_mntfromname me) EmptyString
                              /\ fields_adjacent e))
               (rev getmntinfo) (entries_of heap mtlist)).
Proof.
  split.
  - intros setmntent path table Ho.
    destruct (mntent_xgetmountlist_spec stat0 statvfs0 sys_stat sys_statvfs
                setmntent path table Ho) as (es & Hx & Hes).
    exists es, (rev (seq 0 (length table))). split; [exact Hx|].
    split; [apply NoDup_rev_seq|].
    rewrite (Forall2_length _ _ _ Hes), entries_of_rev_seq.
    apply Forall2_rev_intro. clear Hx Ho.
    induction Hes as [|me e table es H _ IH]; [constructor|].
    cbn [map]. constructor; [|exact IH].
    destruct (mntent_fill_entry_spec stat0 statvfs0 sys_stat sys_statvfs path me)
      as (e' & He' & Hl & _ & _ & _ & _ & _ & Hap).
    rewrite H in He'. injection He' as <-. exists e.
    split; [reflexivity|]. split; [exact Hl|]. split; [exact Hap|].
    exact (mntent_entry_reads_back stat0 statvfs0 sys_stat sys_statvfs path me e H).
  - intros getmntinfo Hn.
    eexists _, _. split.
    + apply getmntinfo_xgetmountlist_spec. intros ->. cbn in Hn. lia.
    + split; [apply NoDup_rev_seq|].
      pose proof (entries_of_rev_seq
        (map (fun me => Getmntinfo.fill_entry sys_stat sys_statvfs me
                (zero_entry stat0 statvfs0 (Getmntinfo.entry_size me))) getmntinfo)) as E.
      rewrite length_map in E. rewrite E. apply Forall2_rev_intro.
      clear E Hn. induction getmntinfo as [|me l IH]; [constructor|].
      cbn [map]. constructor; [|exact IH].
      destruct (getmntinfo_fill_entry_spec stat0 statvfs0 sys_stat sys_statvfs me)
        as (Hl & Hap).
      eexists. split; [reflexivity|]. split; [exact Hl|]. split; [exact Hap|].
      exact (getmntinfo_entry_reads_back stat0 statvfs0 sys_stat sys_statvfs me).
Qed.

Lemma mount_entries_own_block_witness :
  (exists heap mtlist e,
      Mntent.xgetmountlist tt tt (fun _ => None) (fun _ => None)
        (fun _ => Some sample_mounts) None = Return (heap, mtlist)
      /\ NoDup mtlist
      /\ entries_of heap mtlist !! 0%nat = Some (Some e)
      /\ fields_apart e
      /\ reads_back e "tmpfs" "/mnt/a b" "tmpfs" "rw,nosuid")
  /\ (exists heap mtlist e,
        Getmntinfo.xgetmountlist tt tt (fun _ => None) (fun _ => None)
          sample_statfs None = Return (heap, mtlist)
        /\ NoDup mtlist
        /\ entries_of heap mtlist !! 0%nat = Some (Some e)
        /\ fields_apart e
        /\ reads_back e "devfs" "/dev" "devfs" EmptyString
        /\ fields_adjacent e).
Proof.
  split.
  - destruct (proj1 (mount_entries_own_block tt tt (fun _ => None) (fun _ => None))
                (fun _ => Some sample_mounts) None sample_mounts eq_refl)
      as (heap & mtlist & H & L & F).
    destruct (Forall2_lookup_l _ _ _ 0%nat _ F eq_refl)
      as (oe & Hoe & e & -> & _ & Hap & Hc).
    destruct (Hc eq_refl) as (dir' & dev' & D1 & D2 & R & _).
    vm_compute in D1, D2. injection D1 as <-. injection D2 as <-.
    exists heap, mtlist, e.
    split; [exact H|]. split; [exact L|]. split; [exact Hoe|].
    split; [exact Hap|exact R].
  - destruct (proj2 (mount_entries_own_block tt tt (fun _ => None) (fun _ => None))
                sample_statfs ltac:(simpl; lia))
      as (heap & mtlist & H & L & F).
    destruct (Forall2_lookup_l _ _ _ 0%nat _ F eq_refl)
      as (oe & Hoe & e & -> & _ & Hap & Hc).
    destruct (Hc eq_refl) as (R & A).
    exists heap, mtlist, e.
    split; [exact H|]. split; [exact L|]. split; [exact Hoe|].
    split; [exact Hap|]. split; [exact R|exact A].
Defined.

(** ** xnotify over inotify *)

Lemma seqZ_of_to_nat (m n : Z) : seqZ m (Z.of_nat (Z.to_nat n)) = seqZ m n.
Proof. unfold seqZ. now rewrite Nat2Z.id. Qed.

Lemma inotify_find_watch_regs (n : nat) (not : xnotify) (id i : Z) :
  Inotify.find_watch n not id i
  = Inotify.lookup_watch id (Inotify.registration not <$> seqZ i (Z.of_nat n)).
Proof.
  revert i. induction n as [|n IH]; intros i; [reflexivity|].
  rewrite seqZ_cons by lia. cbn [fmap list_fmap Inotify.find_watch].
  unfold Inotify.registration at 1. cbn [Inotify.lookup_watch].
  destruct (id =? fds not !!! (2 * i)); [reflexivity|].
  rewrite IH. do 3 f_equal; lia.
Qed.

(** [xnotify_wait] looks at the structure through its registrations only. *)
Lemma inotify_wait_regs (a b : xnotify) (reads : list (Z * Inotify.inotify_event)) :
  Inotify.same_watches a b -> Inotify.xnotify_wait a reads = Inotify.xnotify_wait b reads.
Proof.
  intros (_ & Hc & _ & Hr). induction reads as [|[n ev] reads IH]; [reflexivity|].
  cbn [Inotify.xnotify_wait]. rewrite IH, !inotify_find_watch_regs, !seqZ_of_to_nat.
  fold (Inotify.registrations a) (Inotify.registrations b). now rewrite Hr.
Qed.

(** A store at or behind index [count] leaves the registrations alone. *)
Lemma inotify_registrations_frame (a b : xnotify) :
  count a = count b ->
  (forall i, 0 <= i < count a -> Inotify.registration a i = Inotify.registration b i) ->
  Inotify.registrations a = Inotify.registrations b.
Proof.
  intros Hc H. unfold Inotify.registrations. rewrite <- Hc.
  apply Forall_fmap_ext_1, Forall_seqZ. intros i Hi. apply H. lia.
Qed.

(** A rejected [xnotify_add] stores -1 in the cell behind the registered
    ones and nothing else. *)
Lemma inotify_add_rejected (not not' : xnotify) (fd : Z) (path : string) (wd0 : Z) :
  Inotify.xnotify_add not fd path wd0 = Return (not', -1) ->
  wd0 = -1 /\ max not <> count not
  /\ not' = Xnotify (paths not) (max not) (<[2 * count not := -1]> (fds not))
              (count not) (kq not).
Proof.
  unfold Inotify.xnotify_add.
  destruct (Z.eqb_spec (max not) (count not)); [discriminate|].
  destruct (Z.eqb_spec wd0 (-1)) as [->|]; [|discriminate].
  intros [= <-]. auto.
Qed.

Lemma inotify_add_accepted (not not' : xnotify) (fd : Z) (path : string) (wd0 r : Z) :
  Inotify.xnotify_add not fd path wd0 = Return (not', r) ->
  r <> -1 ->
  r = 0 /\ wd0 <> -1 /\ max not <> count not
  /\ not' = Xnotify (<[count not := path]> (paths not)) (max not)
              (<[2 * count not + 1 := fd]> (<[2 * count not := wd0]> (fds not)))
              (count not + 1) (kq not).
Proof.
  unfold Inotify.xnotify_add.
  destruct (Z.eqb_spec (max not) (count not)); [discriminate|].
  destruct (Z.eqb_spec wd0 (-1)) as [->|].
  - intros [= <- <-]. congruence.
  - intros [= <- <-]. auto.
Qed.

Lemma inotify_registrations_rejected (not : xnotify) (w : Z) :
  Inotify.registrations
    (Xnotify (paths not) (max not) (<[2 * count not := w]> (fds not))
       (count not) (kq not))
  = Inotify.registrations not.
Proof.
  apply inotify_registrations_frame; [reflexivity|].
  cbn [count]. intros i Hi. unfold Inotify.registration. cbn [fds paths].
  rewrite !lookup_total_insert_ne by lia. reflexivity.
Qed.

Lemma inotify_registrations_accepted (not : xnotify) (fd : Z) (path : string) (w : Z) :
  0 <= count not ->
  Inotify.registrations
    (Xnotify (<[count not := path]> (paths not)) (max not)
       (<[2 * count not + 1 := fd]> (<[2 * count not := w]> (fds not)))
       (count not + 1) (kq not))
  = Inotify.registrations not ++ [(w, fd, path)].
Proof.
  intros Hc. unfold Inotify.registrations at 1. cbn [count].
  rewrite seqZ_app by lia. rewrite fmap_app. f_equal.
  - apply Forall_fmap_ext_1, Forall_seqZ. intros i Hi.
    unfold Inotify.registration. cbn [fds paths].
    rewrite !lookup_total_insert_ne by lia. reflexivity.
  - rewrite seqZ_cons, seqZ_nil by lia. cbn [fmap list_fmap].
    unfold Inotify.registration. cbn [fds paths]. rewrite Z.add_0_l.
    rewrite lookup_total_insert_eq.
    rewrite lookup_total_insert_ne, lookup_total_insert_eq by lia.
    rewrite lookup_total_insert_eq. reflexivity.
Qed.

(** The registration count of a reachable structure stays between 0 and the
    capacity, which never changes. *)
Lemma inotify_reachable_inv (max0 : Z) (not : xnotify) :
  0 <= max0 -> Inotify.reachable max0 not ->
  max not = max0 /\ 0 <= count not <= max0
  /\ length (Inotify.registrations not) = Z.to_nat (count not).
Proof.
  intros Hm Hr. induction Hr as [kq0 not Hi|not fd path wd0 not' r _ IH Ha].
  - unfold Inotify.xnotify_init in Hi. destruct (kq0 <? 0); [discriminate|].
    injection Hi as <-. cbn. repeat split; lia.
  - destruct IH as (IHm & IHc & IHl).
    unfold Inotify.registrations. rewrite length_fmap, length_seqZ.
    destruct (Z.eq_dec r (-1)) as [->|Hr'].
    + apply inotify_add_rejected in Ha as (_ & Hne & ->). cbn. repeat split; lia.
    + apply inotify_add_accepted in Ha as (_ & _ & Hne & ->); [|exact Hr'].
      cbn. repeat split; lia.
Qed.

(** From structures that look the same, [xnotify_add] does the same. *)
Lemma inotify_add_same (a b : xnotify) (fd : Z) (path : string) (wd0 : Z) :
  Inotify.same_watches a b ->
  add_agree Inotify.same_watches
    (Inotify.xnotify_add a fd path wd0) (Inotify.xnotify_add b fd path wd0).
Proof.
  intros (Hm & Hc & Hk & Hr). unfold Inotify.xnotify_add. rewrite Hm, Hc, Hk.
  destruct (Z.eqb_spec (max b) (count b)); [reflexivity|].
  destruct (Z.eqb_spec wd0 (-1)) as [->|Hw]; cbn [add_agree].
  - split; [reflexivity|]. unfold Inotify.same_watches. cbn [max count kq].
    repeat split.
    pose proof (inotify_registrations_rejected a (-1)) as Ea.
    pose proof (inotify_registrations_rejected b (-1)) as Eb.
    rewrite Hc in Ea. rewrite Hm, Hk in Ea. rewrite Ea, Eb. exact Hr.
  - split; [reflexivity|]. unfold Inotify.same_watches. cbn [max count kq].
    repeat split.
    destruct (Z.le_gt_cases 0 (count b)) as [Hp|Hn].
    + pose proof (inotify_registrations_accepted a fd path wd0) as Ea.
      pose proof (inotify_registrations_accepted b fd path wd0 Hp) as Eb.
      rewrite Hc, Hm, Hk in Ea. rewrite (Ea Hp), Eb. now rewrite Hr.
    + unfold Inotify.registrations. cbn [count]. now rewrite !seqZ_nil by lia.
Qed.

(** ** xnotify over kqueue *)

Lemma kqueue_find_watch_regs (n : nat) (not : xnotify) (id i : Z) :
  Kqueue.find_watch n not id i
  = Kqueue.lookup_watch id (Kqueue.registration not <$> seqZ i (Z.of_nat n)).
Proof.
  revert i. induction n as [|n IH]; intros i; [reflexivity|].
  rewrite seqZ_cons by lia. cbn [fmap list_fmap Kqueue.find_watch].
  unfold Kqueue.registration at 1. cbn [Kqueue.lookup_watch].
  destruct (fds not !!! i =? id); [reflexivity|].
  rewrite IH. do 3 f_equal; lia.
Qed.

Lemma kqueue_wait_regs (a b : xnotify) (reads : list (Z * Kqueue.kevent_t)) :
  Kqueue.same_watches a b -> Kqueue.xnotify_wait a reads = Kqueue.xnotify_wait b reads.
Proof.
  intros (_ & Hc & _ & Hr). induction reads as [|[n ev] reads IH]; [reflexivity|].
  cbn [Kqueue.xnotify_wait]. rewrite IH, !kqueue_find_watch_regs, !seqZ_of_to_nat.
  fold (Kqueue.registrations a) (Kqueue.registrations b). now rewrite Hr.
Qed.

Lemma kqueue_add_rejected (not not' : xnotify) (fd : Z) (path : string)
    (r : Z) (event : Kqueue.kevent_t) :
  Kqueue.xnotify_add not fd path r event = Return (not', -1) ->
  count not <> max not /\ not' = not.
Proof.
  unfold Kqueue.xnotify_add.
  destruct (Z.eqb_spec (count not) (max not)); [discriminate|].
  destruct ((r =? -1) || negb (Z.land (Kqueue.flags event) Kqueue.EV_ERROR =? 0)).
  - intros [= <-]. auto.
  - discriminate.
Qed.

Lemma kqueue_add_accepted (not not' : xnotify) (fd : Z) (path : string)
    (r : Z) (event : Kqueue.kevent_t) (ret : Z) :
  Kqueue.xnotify_add not fd path r event = Return (not', ret) ->
  ret <> -1 ->
  ret = 0 /\ count not <> max not
  /\ not' = Xnotify (<[count not := path]> (paths not)) (max not)
              (<[count not := fd]> (fds not)) (count not + 1) (kq not).
Proof.
  unfold Kqueue.xnotify_add.
  destruct (Z.eqb_spec (count not) (max not)); [discriminate|].
  destruct ((r =? -1) || negb (Z.land (Kqueue.flags event) Kqueue.EV_ERROR =? 0)).
  - intros [= <- <-]. congruence.
  - intros [= <- <-]. auto.
Qed.

Lemma kqueue_registrations_accepted (not : xnotify) (fd : Z) (path : string) :
  0 <= count not ->
  Kqueue.registrations
    (Xnotify (<[count not := path]> (paths not)) (max not)
       (<[count not := fd]> (fds not)) (count not + 1) (kq not))
  = Kqueue.registrations not ++ [(fd, path)].
Proof.
  intros Hc. unfold Kqueue.registrations at 1. cbn [count].
  rewrite seqZ_app by lia. rewrite fmap_app. f_equal.
  - apply Forall_fmap_ext_1, Forall_seqZ. intros i Hi.
    unfold Kqueue.registration. cbn [fds paths].
    rewrite !lookup_total_insert_ne by lia. reflexivity.
  - rewrite seqZ_cons, seqZ_nil by lia. cbn [fmap list_fmap].
    unfold Kqueue.registration. cbn [fds paths]. rewrite Z.add_0_l.
    rewrite !lookup_total_insert_eq. reflexivity.
Qed.

Lemma kqueue_reachable_inv (max0 : Z) (not : xnotify) :
  0 <= max0 -> Kqueue.reachable max0 not ->
  max not = max0 /\ 0 <= count not <= max0
  /\ length (Kqueue.registrations not) = Z.to_nat (count not).
Proof.
  intros Hm Hr. induction Hr as [kq0 not Hi|not fd path r event not' ret _ IH Ha].
  - unfold Kqueue.xnotify_init in Hi. destruct (kq0 =? -1); [discriminate|].
    injection Hi as <-. cbn. repeat split; lia.
  - destruct IH as (IHm & IHc & IHl).
    unfold Kqueue.registrations. rewrite length_fmap, length_seqZ.
    destruct (Z.eq_dec ret (-1)) as [->|Hr'].
    + apply kqueue_add_rejected in Ha as (Hne & ->). repeat split; lia.
    + apply kqueue_add_accepted in Ha as (_ & Hne & ->); [|exact Hr'].
      cbn. repeat split; lia.
Qed.

Lemma kqueue_add_same (a b : xnotify) (fd : Z) (path : string)
    (r : Z) (event : Kqueue.kevent_t) :
  Kqueue.same_watches a b ->
  add_agree Kqueue.same_watches
    (Kqueue.xnotify_add a fd path r event) (Kqueue.xnotify_add b fd path r event).
Proof.
  intros (Hm & Hc & Hk & Hr). unfold Kqueue.xnotify_add. rewrite Hm, Hc, Hk.
  destruct (Z.eqb_spec (count b) (max b)); [reflexivity|].
  destruct ((r =? -1) || negb (Z.land (Kqueue.flags event) Kqueue.EV_ERROR =? 0));
    cbn [add_agree].
  - split; [reflexivity|]. unfold Kqueue.same_watches. auto.
  - split; [reflexivity|]. unfold Kqueue.same_watches. cbn [max count kq].
    repeat split.
    destruct (Z.le_gt_cases 0 (count b)) as [Hp|Hn].
    + pose proof (kqueue_registrations_accepted a fd path) as Ea.
      pose proof (kqueue_registrations_accepted b fd path Hp) as Eb.
      rewrite Hc, Hm, Hk in Ea. rewrite (Ea Hp), Eb. now rewrite Hr.
    + unfold Kqueue.registrations. cbn [count]. now rewrite !seqZ_nil by lia.
Qed.

Lemma inotify_run_adds_reachable (max0 : Z) (adds : list (Z * string * Z))
    (not not' : xnotify) :
  Inotify.reachable max0 not -> Inotify.run_adds not adds = Return not' ->
  Inotify.reachable max0 not'.
Proof.
  revert not. induction adds as [|[[fd path] wd0] adds IH]; intros not Hr; cbn.
  - now intros [= <-].
  - destruct (Inotify.xnotify_add not fd path wd0) as [[n1 r]| |] eqn:E;
      try discriminate.
    apply IH. exact (Inotify.reach_add max0 _ _ _ _ _ _ Hr E).
Qed.

Lemma kqueue_run_adds_reachable (max0 : Z) (adds : list (Z * string * Z * Kqueue.kevent_t))
    (not not' : xnotify) :
  Kqueue.reachable max0 not -> Kqueue.run_adds not adds = Return not' ->
  Kqueue.reachable max0 not'.
Proof.
  revert not. induction adds as [|[[[fd path] r] ev] adds IH]; intros not Hr; cbn.
  - now intros [= <-].
  - destruct (Kqueue.xnotify_add not fd path r ev) as [[n1 ret]| |] eqn:E;
      try discriminate.
    apply IH. exact (Kqueue.reach_add max0 _ _ _ _ _ _ _ Hr E).
Qed.

(** ** The watch multiplexer: capacity *)

(** C7: in every structure that [xnotify_init(max0)] and later
    [xnotify_add] calls leave, the capacity is [max0] and the count lies
    between 0 and [max0]; an [xnotify_add] that returns leaves the count as
    it was (return value -1) or one higher (return value 0); and an
    [xnotify_add] on a structure whose count has reached the capacity ends
    the process with "xnotify_add overflow".  Both backends. *)
Theorem watch_count_bounded (max0 : Z) :
  0 <= max0 ->
  (forall not, Inotify.reachable max0 not ->
     max not = max0 /\ 0 <= count not <= max0
     /\ length (Inotify.registrations not) = Z.to_nat (count not))
  /\ (forall not fd path wd0 not' r,
        Inotify.xnotify_add not fd path wd0 = Return (not', r) ->
        (r = 0 /\ count not' = count not + 1) \/ (r = -1 /\ count not' = count not))
  /\ (forall not fd path wd0,
        Inotify.reachable max0 not -> count not = max0 ->
        Inotify.xnotify_add not fd path wd0 = Exit "xnotify_add overflow")
  /\ (forall not, Kqueue.reachable max0 not ->
        max not = max0 /\ 0 <= count not <= max0
        /\ length (Kqueue.registrations not) = Z.to_nat (count not))
  /\ (forall not fd path r event not' ret,
        Kqueue.xnotify_add not fd path r event = Return (not', ret) ->
        (ret = 0 /\ count not' = count not + 1) \/ (ret = -1 /\ count not' = count not))
  /\ (forall not fd path r event,
        Kqueue.reachable max0 not -> count not = max0 ->
        Kqueue.xnotify_add not fd path r event = Exit "xnotify_add overflow").
Proof.
  intros Hm. repeat apply conj.
  - intros not Hr. now apply inotify_reachable_inv.
  - intros not fd path wd0 not' r Ha. destruct (Z.eq_dec r (-1)) as [->|Hr].
    + right. apply inotify_add_rejected in Ha as (_ & _ & ->). auto.
    + left. apply inotify_add_accepted in Ha as (-> & _ & _ & ->); auto.
  - intros not fd path wd0 Hr Hc.
    destruct (inotify_reachable_inv max0 not Hm Hr) as (Hmax & _).
    unfold Inotify.xnotify_add.
    destruct (Z.eqb_spec (max not) (count not)); [reflexivity|lia].
  - intros not Hr. now apply kqueue_reachable_inv.
  - intros not fd path r event not' ret Ha. destruct (Z.eq_dec ret (-1)) as [->|Hr].
    + right. apply kqueue_add_rejected in Ha as (_ & ->). auto.
    + left. apply kqueue_add_accepted in Ha as (-> & _ & ->); auto.
  - intros not fd path r event Hr Hc.
    destruct (kqueue_reachable_inv max0 not Hm Hr) as (Hmax & _).
    unfold Kqueue.xnotify_add.
    destruct (Z.eqb_spec (count not) (max not)); [reflexivity|lia].
Qed.

(** The fourth [xnotify_add] on a multiplexer of capacity 3 that holds three
    registrations. *)
Lemma watch_count_bounded_witness :
  Inotify.xnotify_init 3 7 = Return (Xnotify ∅ 3 ∅ 0 7)
  /\ Inotify.run_adds (Xnotify ∅ 3 ∅ 0 7) sample_adds = Return sample_watches
  /\ count sample_watches = 3
  /\ Inotify.xnotify_add sample_watches 9 "/tmp/d" 4 = Exit "xnotify_add overflow".
Proof.
  assert (Hrun : Inotify.run_adds (Xnotify ∅ 3 ∅ 0 7) sample_adds = Return sample_watches)
    by (vm_compute; reflexivity).
  split; [reflexivity|]. split; [exact Hrun|]. split; [vm_compute; reflexivity|].
  apply (proj1 (proj2 (proj2 (watch_count_bounded 3 ltac:(lia))))).
  - apply (inotify_run_adds_reachable 3 sample_adds (Xnotify ∅ 3 ∅ 0 7)).
    + apply (Inotify.reach_init 3 7). reflexivity.
    + exact Hrun.
  - vm_compute. reflexivity.
Defined.

(** ** The watch multiplexer: waiting *)

Lemma inotify_lookup_watch_None (id : Z) (regs : list (Z * Z * string)) :
  Forall (fun reg => reg.1.1 <> id) regs -> Inotify.lookup_watch id regs = None.
Proof.
  induction 1 as [|[[w tag] path] regs H _ IH]; [reflexivity|]. cbn in *.
  destruct (Z.eqb_spec id w); [congruence|exact IH].
Qed.

Lemma inotify_lookup_watch_Some (id : Z) (regs : list (Z * Z * string))
    (tag : Z) (path : string) :
  Inotify.lookup_watch id regs = Some (tag, path) -> (id, tag, path) ∈ regs.
Proof.
  induction regs as [|[[w t] p] regs IH]; [discriminate|]. cbn.
  destruct (Z.eqb_spec id w) as [->|_].
  - intros [= -> ->]. apply list_elem_of_here.
  - intros H. apply list_elem_of_further, IH, H.
Qed.

Lemma kqueue_lookup_watch_None (id : Z) (regs : list (Z * string)) :
  Forall (fun reg => reg.1 <> id) regs -> Kqueue.lookup_watch id regs = None.
Proof.
  induction 1 as [|[fd path] regs H _ IH]; [reflexivity|]. cbn in *.
  destruct (Z.eqb_spec fd id); [congruence|exact IH].
Qed.

Lemma kqueue_lookup_watch_Some (id : Z) (regs : list (Z * string))
    (tag : Z) (path : string) :
  Kqueue.lookup_watch id regs = Some (tag, path) -> tag = id /\ (id, path) ∈ regs.
Proof.
  induction regs as [|[fd p] regs IH]; [discriminate|]. cbn.
  destruct (Z.eqb_spec fd id) as [->|_].
  - intros [= -> ->]. split; [reflexivity|apply list_elem_of_here].
  - intros H. destruct (IH H) as [-> Hin]. split; [reflexivity|].
    now apply list_elem_of_further.
Qed.

Lemma inotify_wait_step (not : xnotify) (n : Z) (ev : Inotify.inotify_event)
    (reads : list (Z * Inotify.inotify_event)) :
  Inotify.xnotify_wait not ((n, ev) :: reads)
  = if negb (Inotify.sizeof_inotify_event =? n) then Died "inotify"
    else match Inotify.lookup_watch (Inotify.wd ev) (Inotify.registrations not) with
         | Some (tag, path) => Woken tag path reads
         | None => Inotify.xnotify_wait not reads
         end.
Proof.
  cbn [Inotify.xnotify_wait]. now rewrite inotify_find_watch_regs, seqZ_of_to_nat.
Qed.

Lemma kqueue_wait_step (not : xnotify) (r : Z) (ev : Kqueue.kevent_t)
    (reads : list (Z * Kqueue.kevent_t)) :
  Kqueue.xnotify_wait not ((r, ev) :: reads)
  = if negb (r =? -1) then
      match Kqueue.lookup_watch (Kqueue.ident ev) (Kqueue.registrations not) with
      | Some (tag, path) => Woken tag path reads
      | None => Kqueue.xnotify_wait not reads
      end
    else Kqueue.xnotify_wait not reads.
Proof.
  cbn [Kqueue.xnotify_wait]. now rewrite kqueue_find_watch_regs, seqZ_of_to_nat.
Qed.

(** C9, counterexample: with "/tmp/b" registered under the watch identifier
    2 and the tag 6, a failed read (-1) or a short read (8 bytes) before the
    event for "/tmp/b" ends the process on the inotify side; the event alone
    would have been returned. *)
Lemma inotify_short_read_exits :
  Inotify.xnotify_wait sample_watches
    [(-1, Inotify.Event 0 0 0 0); (16, Inotify.Event 2 2 0 0)] = Died "inotify"
  /\ Inotify.xnotify_wait sample_watches
       [(8, Inotify.Event 2 2 0 0); (16, Inotify.Event 2 2 0 0)] = Died "inotify"
  /\ Inotify.xnotify_wait sample_watches [(16, Inotify.Event 2 2 0 0)]
     = Woken 6 "/tmp/b" [].
Proof. repeat split; vm_compute; reflexivity. Qed.

(** C9, amended: [xnotify_wait] reads again, without returning, after a
    native read that reports an identifier no registration has, and on the
    kqueue side also after a native read that failed; on the inotify side a
    read that fails or is short (anything but [sizeof(ev)] bytes) ends the
    process with "inotify".  What [xnotify_wait] returns is always the tag
    and path of a registration. *)
Theorem wait_retries_unmatched (not : xnotify) :
  (forall n ev reads,
      n <> Inotify.sizeof_inotify_event ->
      Inotify.xnotify_wait not ((n, ev) :: reads) = Died "inotify")
  /\ (forall ev reads,
        Forall (fun reg => reg.1.1 <> Inotify.wd ev) (Inotify.registrations not) ->
        Inotify.xnotify_wait not ((Inotify.sizeof_inotify_event, ev) :: reads)
        = Inotify.xnotify_wait not reads)
  /\ (forall reads tag path unread,
        Inotify.xnotify_wait not reads = Woken tag path unread ->
        exists w, (w, tag, path) ∈ Inotify.registrations not)
  /\ (forall ev reads,
        Kqueue.xnotify_wait not ((-1, ev) :: reads) = Kqueue.xnotify_wait not reads)
  /\ (forall r ev reads,
        Forall (fun reg => reg.1 <> Kqueue.ident ev) (Kqueue.registrations not) ->
        Kqueue.xnotify_wait not ((r, ev) :: reads) = Kqueue.xnotify_wait not reads)
  /\ (forall reads tag path unread,
        Kqueue.xnotify_wait not reads = Woken tag path unread ->
        (tag, path) ∈ Kqueue.registrations not).
Proof.
  repeat apply conj.
  - intros n ev reads Hn. rewrite inotify_wait_step.
    destruct (Z.eqb_spec Inotify.sizeof_inotify_event n); [congruence|reflexivity].
  - intros ev reads Hno. rewrite inotify_wait_step, Z.eqb_refl. cbn [negb].
    now rewrite inotify_lookup_watch_None.
  - intros reads. induction reads as [|[n ev] reads IH]; intros tag path unread;
      [discriminate|].
    rewrite inotify_wait_step.
    destruct (negb (Inotify.sizeof_inotify_event =? n)); [discriminate|].
    destruct (Inotify.lookup_watch _ _) as [[t p]|] eqn:E; [|apply IH].
    intros [= -> -> _]. eexists. apply (inotify_lookup_watch_Some _ _ _ _ E).
  - intros ev reads. rewrite kqueue_wait_step. reflexivity.
  - intros r ev reads Hno. rewrite kqueue_wait_step.
    rewrite kqueue_lookup_watch_None by assumption. now destruct (negb (r =? -1)).
  - intros reads. induction reads as [|[r ev] reads IH]; intros tag path unread;
      [discriminate|].
    rewrite kqueue_wait_step. destruct (negb (r =? -1)); [|apply IH].
    destruct (Kqueue.lookup_watch _ _) as [[t p]|] eqn:E; [|apply IH].
    intros [= -> -> _]. destruct (kqueue_lookup_watch_Some _ _ _ _ E) as [-> Hin].
    exact Hin.
Qed.

Lemma wait_retries_unmatched_witness :
  Inotify.xnotify_wait sample_watches [(8, Inotify.Event 2 2 0 0)] = Died "inotify"
  /\ Inotify.xnotify_wait sample_watches
       [(16, Inotify.Event 9 2 0 0); (16, Inotify.Event 2 2 0 0)]
     = Inotify.xnotify_wait sample_watches [(16, Inotify.Event 2 2 0 0)]
  /\ Kqueue.xnotify_wait sample_kqueue
       [(1, Kqueue.Kevent 9 0); (1, Kqueue.Kevent 6 0)]
     = Kqueue.xnotify_wait sample_kqueue [(1, Kqueue.Kevent 6 0)].
Proof.
  split; [|split].
  - apply (proj1 (wait_retries_unmatched sample_watches)). vm_compute. discriminate.
  - apply (proj1 (proj2 (wait_retries_unmatched sample_watches))
             (Inotify.Event 9 2 0 0)).
    vm_compute. repeat constructor; discriminate.
  - apply (proj1 (proj2 (proj2 (proj2 (proj2 (wait_retries_unmatched sample_kqueue)))))
             1 (Kqueue.Kevent 9 0)).
    vm_compute. repeat constructor; discriminate.
Defined.

(** ** The watch multiplexer: a rejected registration *)

(** C10: when [xnotify_add] returns -1 the structure it leaves has the same
    capacity, count and registrations as before (on the kqueue side it is
    the same structure; on the inotify side only the cell behind the
    registered ones holds the -1), and every later [xnotify_wait] and
    [xnotify_add] does on it what it would have done on the structure as it
    was; structures that look the same stay so through every later call. *)
Theorem rejected_add_unobservable :
  (forall not fd path wd0 not',
      Inotify.xnotify_add not fd path wd0 = Return (not', -1) ->
      Inotify.same_watches not' not
      /\ (forall reads, Inotify.xnotify_wait not' reads = Inotify.xnotify_wait not reads)
      /\ (forall fd2 path2 wd2,
            add_agree Inotify.same_watches
              (Inotify.xnotify_add not' fd2 path2 wd2)
              (Inotify.xnotify_add not fd2 path2 wd2)))
  /\ (forall a b,
        Inotify.same_watches a b ->
        (forall reads, Inotify.xnotify_wait a reads = Inotify.xnotify_wait b reads)
        /\ (forall fd path wd0,
              add_agree Inotify.same_watches
                (Inotify.xnotify_add a fd path wd0) (Inotify.xnotify_add b fd path wd0)))
  /\ (forall not fd path r event not',
        Kqueue.xnotify_add not fd path r event = Return (not', -1) ->
        not' = not).
Proof.
  assert (Hsame : forall a b,
             Inotify.same_watches a b ->
             (forall reads, Inotify.xnotify_wait a reads = Inotify.xnotify_wait b reads)
             /\ (forall fd path wd0,
                   add_agree Inotify.same_watches
                     (Inotify.xnotify_add a fd path wd0)
                     (Inotify.xnotify_add b fd path wd0))).
  { intros a b H. split.
    - intros reads. now apply inotify_wait_regs.
    - intros fd path wd0. now apply inotify_add_same. }
  split; [|split; [exact Hsame|]].
  - intros not fd path wd0 not' Ha.
    apply inotify_add_rejected in Ha as (_ & _ & ->).
    assert (H : Inotify.same_watches
                  (Xnotify (paths not) (max not) (<[2 * count not := -1]> (fds not))
                     (count not) (kq not)) not).
    { unfold Inotify.same_watches. cbn [max count kq]. repeat split.
      apply inotify_registrations_rejected. }
    split; [exact H|]. exact (Hsame _ _ H).
  - intros not fd path r event not' Ha.
    now apply kqueue_add_rejected in Ha as (_ & ->).
Qed.

Lemma rejected_add_unobservable_witness :
  Inotify.xnotify_add sample_pair 9 "/nonexistent" (-1)
  = Return (Xnotify (paths sample_pair) 3 (<[4 := -1]> (fds sample_pair)) 2 7, -1)
  /\ Inotify.registrations
       (Xnotify (paths sample_pair) 3 (<[4 := -1]> (fds sample_pair)) 2 7)
     = Inotify.registrations sample_pair
  /\ Kqueue.xnotify_add sample_kqueue 9 "/nonexistent" (-1) (Kqueue.Kevent 9 0x21)
     = Return (sample_kqueue, -1).
Proof.
  assert (H1 : Inotify.xnotify_add sample_pair 9 "/nonexistent" (-1)
               = Return (Xnotify (paths sample_pair) 3
                           (<[4 := -1]> (fds sample_pair)) 2 7, -1))
    by (vm_compute; reflexivity).
  split; [exact H1|]. split.
  - exact (proj2 (proj2 (proj2 (proj1 (proj1 rejected_add_unobservable _ _ _ _ _ H1))))).
  - assert (H2 : exists n, Kqueue.xnotify_add sample_kqueue 9 "/nonexistent" (-1)
                             (Kqueue.Kevent 9 0x21) = Return (n, -1))
      by (eexists; vm_compute; reflexivity).
    destruct H2 as [n H2]. rewrite H2.
    now rewrite (proj2 (proj2 rejected_add_unobservable) _ _ _ _ _ _ H2).
Defined.


(** * Further properties of the code *)

(** ** octal_deslash as one pass over the bytes *)

Lemma octal_digits_drop (m : list ascii) (s : nat) :
  octal_digits 3 m s 1 0 = octal_digits 3 (drop s m) 0 1 0.
Proof.
  cbn [octal_digits]. rewrite !mem_get_drop. reflexivity.
Qed.

(** The digit loop on a block whose bytes behind the backslash are [r]
    followed by a NUL. *)
Lemma octal_digits_escape (c : ascii) (r tail : list ascii) :
  match r with
  | d1 :: d2 :: d3 :: _ =>
      if isdigit d1 && isdigit d2 && isdigit d3
      then octal_digits 3 (c :: r ++ NUL :: tail) 0 1 0 = (4%nat, escape_value d1 d2 d3)
      else fst (octal_digits 3 (c :: r ++ NUL :: tail) 0 1 0) <> 4%nat
  | _ => fst (octal_digits 3 (c :: r ++ NUL :: tail) 0 1 0) <> 4%nat
  end.
Proof.
  destruct r as [|d1 [|d2 [|d3 r]]]; cbn [octal_digits app]; unfold mem_get; cbn.
  - discriminate.
  - destruct (isdigit d1); cbn; discriminate.
  - destruct (isdigit d1); cbn; [|discriminate].
    destruct (isdigit d2); cbn; discriminate.
  - destruct (isdigit d1); cbn; [|discriminate].
    destruct (isdigit d2); cbn; [|discriminate].
    destruct (isdigit d3); cbn; [reflexivity|discriminate].
Qed.

Lemma deslash_length_bounded (n : nat) (l : list ascii) :
  (length l <= n)%nat -> (length (deslash l) <= length l)%nat.
Proof.
  revert l. induction n as [|n IH]; intros l Hl.
  - destruct l; [reflexivity|cbn in Hl; lia].
  - destruct l as [|c r]; [reflexivity|]. cbn [deslash]. cbn [length] in Hl.
    assert (Hr : (length (deslash r) <= length r)%nat) by (apply IH; lia).
    destruct (Ascii.eqb c "\"%char); [|cbn; lia].
    destruct r as [|d1 [|d2 [|d3 r']]]; try (cbn in *; lia).
    destruct (isdigit d1 && isdigit d2 && isdigit d3); [|cbn in *; lia].
    assert (Hr' : (length (deslash r') <= length r')%nat)
      by (apply IH; cbn in Hl; lia).
    cbn [length]. lia.
Qed.

Lemma deslash_length (l : list ascii) : (length (deslash l) <= length l)%nat.
Proof. apply (deslash_length_bounded (length l)). lia. Qed.

(** The loop, started with the read pointer on the bytes [rest] that a NUL
    follows, ends with the write pointer behind what [deslash] makes of
    them. *)
Lemma octal_deslash_loop_deslash (fuel : nat) (rest tail : list ascii)
    (m : list ascii) (s o : nat) :
  Forall (fun c => is_nul c = false) rest ->
  (length rest < fuel)%nat -> (o <= s)%nat ->
  drop s m = rest ++ NUL :: tail ->
  exists m',
    octal_deslash_loop fuel m s o = Some (m', (o + length (deslash rest))%nat)
    /\ take (o + length (deslash rest)) m' = take o m ++ deslash rest
    /\ length m' = length m.
Proof.
  revert rest m s o. induction fuel as [|fuel IH]; intros rest m s o Hnn Hf Hos Hd; [lia|].
  assert (Hsl : (s < length m)%nat).
  { destruct (Nat.lt_ge_cases s (length m)) as [|Hge]; [assumption|].
    rewrite drop_ge in Hd by lia. destruct rest; discriminate. }
  cbn [octal_deslash_loop].
  assert (Hms : mem_get m s = mem_get (rest ++ NUL :: tail) 0).
  { rewrite <- Hd, <- mem_get_drop. f_equal. lia. }
  destruct rest as [|c r].
  { rewrite Hms. cbn. exists m. rewrite Nat.add_0_r, app_nil_r. auto. }
  rewrite Hms. change (mem_get ((c :: r) ++ NUL :: tail) 0) with c.
  apply Forall_cons_1 in Hnn as [Hc Hr]. rewrite Hc.
  assert (Hcopy : exists m',
             octal_deslash_loop fuel (mem_set m o c) (S s) (S o)
             = Some (m', (o + length (c :: deslash r))%nat)
             /\ take (o + length (c :: deslash r)) m' = take o m ++ c :: deslash r
             /\ length m' = length m).
  { destruct (IH r (mem_set m o c) (S s) (S o)) as (m' & E & T & L).
    - exact Hr.
    - cbn [length] in Hf. lia.
    - lia.
    - unfold mem_set. rewrite drop_insert_lt by lia.
      replace (S s) with (s + 1)%nat by lia.
      rewrite <- (drop_drop m 1 s), Hd. reflexivity.
    - exists m'. cbn [length].
      replace (o + S (length (deslash r)))%nat with (S o + length (deslash r))%nat by lia.
      rewrite mem_set_length in L. split; [exact E|]. split; [|exact L].
      rewrite T. unfold mem_set.
      rewrite (take_S_r _ o c) by (apply list_lookup_insert_eq; lia).
      rewrite take_insert_ge by lia. now rewrite <- app_assoc. }
  cbn [deslash]. destruct (Ascii.eqb c "\"%char); [|exact Hcopy].
  rewrite octal_digits_drop, Hd. cbn [app].
  pose proof (octal_digits_escape c r tail) as Hdig.
  destruct (octal_digits 3 (c :: r ++ NUL :: tail) 0 1 0) as [i oct] eqn:Ed.
  destruct r as [|d1 [|d2 [|d3 r']]];
    try (cbn [fst] in Hdig; destruct (Nat.eqb_spec i 4); [contradiction|exact Hcopy]).
  destruct (isdigit d1 && isdigit d2 && isdigit d3);
    [|cbn [fst] in Hdig; destruct (Nat.eqb_spec i 4); [contradiction|exact Hcopy]].
  injection Hdig as -> ->. cbn [Nat.eqb].
  destruct (IH r' (mem_set m o (char_of_int (escape_value d1 d2 d3))) (s + 4)%nat (S o))
    as (m' & E & T & L).
  - apply Forall_cons_1 in Hr as [_ Hr]. apply Forall_cons_1 in Hr as [_ Hr].
    now apply Forall_cons_1 in Hr as [_ Hr].
  - cbn [length] in Hf. lia.
  - lia.
  - unfold mem_set. rewrite drop_insert_lt by lia.
    rewrite <- (drop_drop m 4 s), Hd. reflexivity.
  - exists m'. cbn [length].
    replace (o + S (length (deslash r')))%nat with (S o + length (deslash r'))%nat by lia.
    rewrite mem_set_length in L. split; [exact E|]. split; [|exact L].
    rewrite T. unfold mem_set.
    rewrite (take_S_r _ o (char_of_int (escape_value d1 d2 d3)))
      by (apply list_lookup_insert_eq; lia).
    rewrite take_insert_ge by lia. now rewrite <- app_assoc.
Qed.

Lemma nul_free_Forall (s : string) :
  nul_free s = true -> Forall (fun c => is_nul c = false) (list_ascii_of_string s).
Proof.
  induction s as [|c s IH]; cbn; intros H; [constructor|].
  apply andb_true_iff in H as [Hc Hs]. constructor; [now apply negb_true_iff|auto].
Qed.

Lemma cstr_of_app_nul (l tail : list ascii) : cstr_of (l ++ NUL :: tail) = cstr_of l.
Proof.
  induction l as [|c l IH]; [reflexivity|]. cbn. now rewrite IH.
Qed.

Lemma chars_length (s : string) : length (list_ascii_of_string s) = String.length s.
Proof. induction s as [|c s IH]; cbn; [reflexivity|now rewrite IH]. Qed.

Lemma decode_deslash (s : string) :
  nul_free s = true ->
  decode s = Some (cstr_of (deslash (list_ascii_of_string s))).
Proof.
  intros Hs. unfold decode, octal_deslash, block_of.
  set (l := list_ascii_of_string s).
  destruct (octal_deslash_loop_deslash (S (length (l ++ [NUL]) - 0)) l [] (l ++ [NUL]) 0 0)
    as (m' & E & T & L).
  - now apply nul_free_Forall.
  - rewrite length_app. cbn. lia.
  - lia.
  - reflexivity.
  - rewrite E. rewrite Nat.add_0_l in *. f_equal. rewrite take_0 in T. cbn [app] in T.
    unfold cstr_at, mem_set. rewrite drop_0.
    pose proof (deslash_length l) as Hd.
    rewrite insert_take_drop by (rewrite L, length_app; cbn; lia).
    rewrite T. apply cstr_of_app_nul.
Qed.

(** X1: run on a string of its own, the in-place decoder computes what one
    pass from left to right over the bytes computes: a backslash followed by
    three decimal digits becomes the byte of their value read as octal (its
    low eight bits), every other byte is copied, and the result ends at the
    first NUL byte that an escape produced. *)
Theorem octal_deslash_is_one_pass (s : string) :
  nul_free s = true ->
  decode s = Some (cstr_of (deslash (list_ascii_of_string s))).
Proof. apply decode_deslash. Qed.

Lemma octal_deslash_is_one_pass_witness :
  decode "/mnt/a\040b\134c\08" = Some "/mnt/a b\c\08"%string.
Proof.
  exact (octal_deslash_is_one_pass "/mnt/a\040b\134c\08" eq_refl).
Defined.

Lemma block_of_terminated (s : string) :
  (0 + strlen_at (block_of s) 0 < length (block_of s))%nat
  /\ (strlen_at (block_of s) 0 <= String.length s)%nat.
Proof.
  assert (H : block_of s !! (0 + String.length s)%nat = Some NUL).
  { unfold block_of. rewrite <- chars_length. cbn [Nat.add].
    now rewrite list_lookup_middle. }
  apply nul_terminates in H as [Hle _]. rewrite block_of_length. lia.
Qed.

(** X2: the decoder always returns and never lengthens its string. *)
Theorem decode_never_lengthens (s : string) :
  exists s', decode s = Some s' /\ (String.length s' <= String.length s)%nat.
Proof.
  destruct (block_of_terminated s) as [Ht Hle].
  destruct (octal_deslash_spec (block_of s) 0) as (m' & o & E & _).
  exists (cstr_at m' 0). unfold decode. rewrite E. split; [reflexivity|].
  pose proof (octal_deslash_shrinks _ _ _ E Ht) as Hs. unfold strlen_at in *. lia.
Qed.

(** X3: [octal_deslash] on the string at offset [p] of a block always
    returns; it keeps the size of the block and changes no byte before [p]
    or behind the terminator the string had. *)
Theorem octal_deslash_writes_inside (m : list ascii) (p : nat) :
  exists m',
    octal_deslash m p = Some m'
    /\ length m' = length m
    /\ (forall j, (j < p \/ p + strlen_at m p < j)%nat -> m' !! j = m !! j).
Proof.
  destruct (octal_deslash_spec m p) as (m' & o & E & Ho & L & F & _).
  exists m'. repeat split; try assumption. intros j Hj. apply F. lia.
Qed.

Lemma deslash_no_backslash (l : list ascii) :
  forallb (fun c => negb (Ascii.eqb c "\"%char)) l = true -> deslash l = l.
Proof.
  induction l as [|c l IH]; [reflexivity|]. cbn [forallb deslash].
  intros H. apply andb_true_iff in H as [Hc Hl]. apply negb_true_iff in Hc.
  rewrite Hc. now rewrite IH.
Qed.

Lemma cstr_of_chars_id (s : string) :
  nul_free s = true -> cstr_of (list_ascii_of_string s) = s.
Proof.
  induction s as [|c s IH]; intros Hs; [reflexivity|]. cbn in *.
  apply andb_true_iff in Hs as [Hc Hs]. apply negb_true_iff in Hc.
  rewrite Hc. now rewrite IH.
Qed.

(** X4: a string without a backslash is left as it is. *)
Theorem decode_without_backslash (s : string) :
  nul_free s = true ->
  forallb (fun c => negb (Ascii.eqb c "\"%char)) (list_ascii_of_string s) = true ->
  decode s = Some s.
Proof.
  intros Hs Hb. rewrite decode_deslash by assumption.
  rewrite deslash_no_backslash by assumption. now rewrite cstr_of_chars_id.
Qed.

Lemma decode_without_backslash_witness :
  decode "/dev/mapper/vg0-root" = Some "/dev/mapper/vg0-root"%string.
Proof.
  exact (decode_without_backslash "/dev/mapper/vg0-root" eq_refl eq_refl).
Defined.

Lemma octal_escape_digits (b : ascii) :
  isdigit (digit_char (uchar b / 64)) = true
  /\ isdigit (digit_char ((uchar b / 8) mod 8)) = true
  /\ isdigit (digit_char (uchar b mod 8)) = true
  /\ char_of_int (escape_value (digit_char (uchar b / 64))
                    (digit_char ((uchar b / 8) mod 8))
                    (digit_char (uchar b mod 8))) = b.
Proof.
  destruct b as [[] [] [] [] [] [] [] []]; vm_compute; auto.
Qed.

Lemma chars_app (a b : string) :
  list_ascii_of_string (a +:+ b) = list_ascii_of_string a ++ list_ascii_of_string b.
Proof.
  induction a as [|c a IH]; [reflexivity|].
  change (String c a +:+ b) with (String c (a +:+ b)). cbn. now rewrite IH.
Qed.

(** X5: the escape sequence of a byte decodes to that byte: for every byte
    [b] other than NUL, the backslash and the three octal digits of [b] in
    front of a string decode to [b] in front of what the string decodes
    to. *)
Theorem decode_octal_escape (b : ascii) (rest : string) :
  is_nul b = false -> nul_free rest = true ->
  exists r',
    decode rest = Some r'
    /\ decode (octal_escape b +:+ rest) = Some (String b r').
Proof.
  intros Hb Hr. destruct (octal_escape_digits b) as (D1 & D2 & D3 & V).
  exists (cstr_of (deslash (list_ascii_of_string rest))).
  split; [now apply decode_deslash|].
  rewrite decode_deslash.
  - rewrite chars_app. unfold octal_escape.
    cbn [list_ascii_of_string app deslash]. rewrite Ascii.eqb_refl.
    rewrite D1, D2, D3. cbn [andb]. rewrite V. cbn [cstr_of]. now rewrite Hb.
  - rewrite nul_free_app, Hr, andb_true_r. unfold octal_escape. cbn [nul_free].
    rewrite (isdigit_nonnul _ D1), (isdigit_nonnul _ D2), (isdigit_nonnul _ D3).
    reflexivity.
Qed.

Lemma decode_octal_escape_witness :
  exists r',
    decode "/x" = Some r'
    /\ decode (octal_escape " " +:+ "/x") = Some (String " " r').
Proof.
  exact (decode_octal_escape " " "/x" eq_refl eq_refl).
Defined.

(** X6: decoding in place inside a larger block is decoding the string
    alone: whatever the block holds before and behind it, the string that
    [octal_deslash] leaves at [p] is what [decode] makes of the string it
    found there. *)
Theorem octal_deslash_in_block (m : list ascii) (p : nat) :
  (p + strlen_at m p < length m)%nat ->
  exists m',
    octal_deslash m p = Some m' /\ decode (cstr_at m p) = Some (cstr_at m' p).
Proof. apply octal_deslash_local. Qed.

Lemma octal_deslash_in_block_witness :
  exists m',
    octal_deslash (block_of "ext4" ++ block_of "/a\040b" ++ block_of "rw") 5 = Some m'
    /\ decode (cstr_at (block_of "ext4" ++ block_of "/a\040b" ++ block_of "rw") 5)
       = Some (cstr_at m' 5).
Proof.
  apply (octal_deslash_in_block
           (block_of "ext4" ++ block_of "/a\040b" ++ block_of "rw") 5).
  vm_compute. lia.
Defined.

(** ** mountlist_istype: further properties *)

(** X7: a type list whose tokens all carry the marker is answered by prefix
    tests: the result is 0 when the type of the entry starts with the
    remainder of some token and 1 otherwise, and the call never ends the
    process. *)
Theorem istype_exclusion_by_prefix {ST SV : Type} (ml : mtab_list ST SV) (tl : string) :
  nul_free tl = true ->
  comma_tokens tl <> [] ->
  forallb marked (comma_tokens tl) = true ->
  mountlist_istype ml (Some tl)
  = Return (if existsb (fun t => starts_with (remainder t) (type_of ml))
                  (comma_tokens tl) then 0 else 1).
Proof. apply istype_exclusion_list. Qed.

Lemma istype_exclusion_by_prefix_witness :
  mountlist_istype (entry_of_type "ext4") (Some "nonfs,noext,notmpfs") = Return 0
  /\ mountlist_istype (entry_of_type "ext4") (Some "nonfs,notmpfs") = Return 1.
Proof.
  split.
  - exact (istype_exclusion_by_prefix (entry_of_type "ext4") "nonfs,noext,notmpfs"
             eq_refl ltac:(discriminate) eq_refl).
  - exact (istype_exclusion_by_prefix (entry_of_type "ext4") "nonfs,notmpfs"
             eq_refl ltac:(discriminate) eq_refl).
Defined.

(** Where a scan of the tokens ends the process. *)
Lemma istype_tokens_exit (ty : string) (toks : list string) (skip : Z) (msg : string) :
  istype_tokens ty toks skip = Exit msg ->
  msg = "bad typelist"%string /\ skip = 0
  /\ exists pre bad post,
       toks = pre ++ bad :: post
       /\ forallb marked pre = true /\ marked bad = false
       /\ existsb (fun t => starts_with (remainder t) ty) pre = false.
Proof.
  induction toks as [|t toks IH]; [discriminate|]. cbn [istype_tokens].
  destruct (Z.eqb_spec skip 0) as [->|Hs].
  - destruct (marked t) eqn:Hm; cbn [negb].
    + destruct (starts_with (remainder t) ty) eqn:Hp; [discriminate|].
      intros H. destruct (IH H) as (-> & _ & pre & bad & post & -> & Hpre & Hbad & Hno).
      repeat split. exists (t :: pre), bad, post. cbn [app forallb existsb].
      rewrite Hm, Hp. auto.
    + intros [= <-]. repeat split. exists [], t, toks. auto.
  - destruct (String.eqb t ty); [discriminate|].
    intros H. destruct (IH H) as (_ & ? & _). contradiction.
Qed.

Lemma istype_tokens_return (ty : string) (toks : list string) (skip r : Z) :
  istype_tokens ty toks skip = Return r -> r = 0 \/ r = 1 \/ r = skip.
Proof.
  induction toks as [|t toks IH]; cbn [istype_tokens].
  - intros [= <-]. auto.
  - destruct (skip =? 0).
    + destruct (negb (marked t)); [discriminate|].
      destruct (starts_with (remainder t) ty); [intros [= <-]; auto|exact IH].
    + destruct (String.eqb t ty); [intros [= <-]; auto|exact IH].
Qed.

Lemma istype_tokens_not_stuck (ty : string) (toks : list string) (skip : Z) :
  istype_tokens ty toks skip <> Stuck.
Proof.
  induction toks as [|t toks IH]; cbn [istype_tokens]; [discriminate|].
  destruct (skip =? 0).
  - destruct (negb (marked t)); [discriminate|].
    destruct (starts_with (remainder t) ty); [discriminate|exact IH].
  - destruct (String.eqb t ty); [discriminate|exact IH].
Qed.

(** X8: [mountlist_istype] returns 0 or 1 or ends the process with "bad
    typelist", and it ends the process exactly when the list starts with the
    marker and has a token without it that the scan reaches, the type
    starting with the remainder of none of the tokens before. *)
Theorem istype_exit_exactly {ST SV : Type} (ml : mtab_list ST SV) (tl : string) :
  nul_free tl = true ->
  (forall r, mountlist_istype ml (Some tl) = Return r -> r = 0 \/ r = 1)
  /\ mountlist_istype ml (Some tl) <> Stuck
  /\ (forall msg,
        mountlist_istype ml (Some tl) = Exit msg <->
        msg = "bad typelist"%string
        /\ starts_with "no" tl = true
        /\ exists pre bad post,
             comma_tokens tl = pre ++ bad :: post
             /\ forallb marked pre = true /\ marked bad = false
             /\ existsb (fun t => starts_with (remainder t) (type_of ml)) pre = false).
Proof.
  intros Htl. rewrite mountlist_istype_tokens by assumption.
  pose proof (istype_tokens_not_stuck (type_of ml) (comma_tokens tl) (strncmp tl "no" 2))
    as Hns.
  destruct (istype_tokens (type_of ml) (comma_tokens tl) (strncmp tl "no" 2))
    as [skip|m|] eqn:E; [| |contradiction].
  - split; [|split; [discriminate|]].
    + intros r [= <-]. destruct (skip =? 0); auto.
    + intros msg. split; [discriminate|].
      intros (_ & Hno & pre & bad & post & Et & Hpre & Hbad & Hp).
      assert (Hs : strncmp tl "no" 2 = 0).
      { apply Z.eqb_eq. now rewrite strncmp_no. }
      rewrite Hs, Et, istype_tokens_unmarked in E by assumption. discriminate.
  - split; [discriminate|]. split; [discriminate|].
    apply istype_tokens_exit in E as (-> & Hs & Hex).
    intros msg. split.
    + intros [= <-]. split; [reflexivity|]. split; [|exact Hex].
      rewrite <- strncmp_no. now apply Z.eqb_eq.
    + now intros (-> & _).
Qed.

Lemma istype_exit_exactly_witness :
  mountlist_istype (entry_of_type "tmpfs") (Some "noext4,vfat,nonfs")
  = Exit "bad typelist".
Proof.
  apply (proj2 (proj2 (istype_exit_exactly (entry_of_type "tmpfs")
                         "noext4,vfat,nonfs" eq_refl))).
  split; [reflexivity|]. split; [reflexivity|].
  exists ["noext4"%string], "vfat"%string, ["nonfs"%string].
  repeat split.
Defined.

(** ** xgetmountlist: further properties *)

Lemma Forall_rev_map_Some {A : Type} (P : option A -> Prop) (Q : A -> Prop) (l : list A) :
  (forall a, Q a -> P (Some a)) -> Forall Q l -> Forall P (rev (map Some l)).
Proof.
  intros H HQ. apply List.Forall_rev. induction HQ; constructor; auto.
Qed.

(** X9: on the [getmntinfo] side the options of every entry of the returned
    list are the empty string. *)
Theorem getmntinfo_opts_always_empty {ST SV : Type} (stat0 : ST) (statvfs0 : SV)
    (sys_stat : string -> option ST) (sys_statvfs : string -> option SV)
    (getmntinfo : list Getmntinfo.statfs) :
  (0 < length getmntinfo)%nat ->
  exists heap mtlist,
    Getmntinfo.xgetmountlist stat0 statvfs0 sys_stat sys_statvfs getmntinfo None
    = Return (heap, mtlist)
    /\ Forall (fun oe => exists e o,
                 oe = Some e /\ mt_opts e = Some o
                 /\ cstr_at (mt_type e) o = EmptyString)
         (entries_of heap mtlist).
Proof.
  intros Hn. eexists _, _. split.
  - apply getmntinfo_xgetmountlist_spec. intros ->. cbn in Hn. lia.
  - pose proof (entries_of_rev_seq
      (map (fun me => Getmntinfo.fill_entry sys_stat sys_statvfs me
              (zero_entry stat0 statvfs0 (Getmntinfo.entry_size me))) getmntinfo)) as E.
    rewrite length_map in E. rewrite E.
    apply (Forall_rev_map_Some _ (fun e => exists o, mt_opts e = Some o
                                     /\ cstr_at (mt_type e) o = EmptyString)).
    + intros e (o & H1 & H2). eauto.
    + apply Forall_map. apply Forall_forall. intros me _.
      destruct (getmntinfo_fill_entry_layout stat0 statvfs0 sys_stat sys_statvfs me)
        as (m & d & v & o & -> & _ & _ & _ & _ & Hnul & _).
      exists o. split; [reflexivity|]. now apply cstr_at_nul.
Qed.

Lemma getmntinfo_opts_always_empty_witness :
  exists heap mtlist,
    Getmntinfo.xgetmountlist tt tt (fun _ => None) (fun _ => None) sample_statfs None
    = Return (heap, mtlist)
    /\ Forall (fun oe => exists e o,
                 oe = Some e /\ mt_opts e = Some o
                 /\ cstr_at (mt_type e) o = EmptyString)
         (entries_of heap mtlist).
Proof.
  exact (getmntinfo_opts_always_empty tt tt (fun _ => None) (fun _ => None)
           sample_statfs ltac:(simpl; lia)).
Defined.

(** X10: on the [getmntinfo] side nothing is decoded: the entry finished for
    a record holds its type, mount point and device as the record has them
    (for strings without a NUL byte), the four strings are back to back,
    and the terminator of the empty options is the last byte of the
    block. *)
Theorem getmntinfo_entry_verbatim {ST SV : Type} (stat0 : ST) (statvfs0 : SV)
    (sys_stat : string -> option ST) (sys_statvfs : string -> option SV)
    (me : Getmntinfo.statfs) :
  nul_free (Getmntinfo.f_fstypename me) = true ->
  nul_free (Getmntinfo.f_mntonname me) = true ->
  nul_free (Getmntinfo.f_mntfromname me) = true ->
  let e := Getmntinfo.fill_entry sys_stat sys_statvfs me
             (zero_entry stat0 statvfs0 (Getmntinfo.entry_size me)) in
  exists d v o,
    mt_dir e = Some d /\ mt_device e = Some v /\ mt_opts e = Some o
    /\ cstr_at (mt_type e) 0 = Getmntinfo.f_fstypename me
    /\ cstr_at (mt_type e) d = Getmntinfo.f_mntonname me
    /\ cstr_at (mt_type e) v = Getmntinfo.f_mntfromname me
    /\ cstr_at (mt_type e) o = EmptyString
    /\ fields_adjacent e
    /\ length (mt_type e) = S o.
Proof.
  intros N1 N2 N3 e.
  destruct (getmntinfo_fill_entry_layout stat0 statvfs0 sys_stat sys_statvfs me)
    as (m & d & v & o & He & Hd & Hv & Ho & Hl & Hnul & Hc).
  destruct (Hc N1 N2 N3) as (C0 & C1 & C2).
  subst e. rewrite He. cbn [mt_dir mt_device mt_opts mt_type].
  exists d, v, o. repeat split; try assumption.
  - now apply cstr_at_nul.
  - cbn [mt_dir mt_type]. now rewrite (cstr_at_strlen _ _ _ C0), Hd.
  - cbn [mt_dir mt_device mt_type]. intros d' [= <-].
    rewrite (cstr_at_strlen _ _ _ C1), Hv. f_equal. lia.
  - cbn [mt_opts mt_device mt_type]. intros v' [= <-].
    rewrite (cstr_at_strlen _ _ _ C2), Ho. f_equal. lia.
Qed.

Lemma getmntinfo_entry_verbatim_witness :
  exists d v o,
    mt_dir (Getmntinfo.fill_entry (fun _ => None) (fun _ => None)
              (Getmntinfo.Statfs "apfs" "/Volumes/My Disk" "/dev/disk2s1")
              (zero_entry tt tt
                 (Getmntinfo.entry_size
                    (Getmntinfo.Statfs "apfs" "/Volumes/My Disk" "/dev/disk2s1"))))
    = Some d
    /\ cstr_at (mt_type (Getmntinfo.fill_entry (fun _ => None) (fun _ => None)
              (Getmntinfo.Statfs "apfs" "/Volumes/My Disk" "/dev/disk2s1")
              (zero_entry tt tt
                 (Getmntinfo.entry_size
                    (Getmntinfo.Statfs "apfs" "/Volumes/My Disk" "/dev/disk2s1"))))) d
       = "/Volumes/My Disk"%string
    /\ v = (d + 17)%nat /\ o = (v + 13)%nat.
Proof.
  destruct (getmntinfo_entry_verbatim tt tt (fun _ => None) (fun _ => None)
              (Getmntinfo.Statfs "apfs" "/Volumes/My Disk" "/dev/disk2s1")
              eq_refl eq_refl eq_refl)
    as (d & v & o & Hd & Hv & Ho & _ & C1 & _).
  exists d, v, o. split; [exact Hd|]. split; [exact C1|].
  vm_compute in Hd, Hv, Ho. injection Hd as <-. injection Hv as <-. injection Ho as <-.
  split; reflexivity.
Defined.

Lemma mntent_fill_entry_stat {ST SV : Type}
    (sys_stat : string -> option ST) (sys_statvfs : string -> option SV)
    (path : option string) (me : Mntent.mntent) (mt e : mtab_list ST SV) :
  Mntent.fill_entry sys_stat sys_statvfs path me mt = Some e ->
  mt_stat e = match path with
              | None => default (mt_stat mt) (sys_stat (Mntent.mnt_dir me))
              | Some _ => mt_stat mt
              end
  /\ mt_statvfs e = match path with
                    | None => default (mt_statvfs mt) (sys_statvfs (Mntent.mnt_dir me))
                    | Some _ => mt_statvfs mt
                    end.
Proof.
  unfold Mntent.fill_entry.
  destruct (stpcpy (mt_type mt) 0 (Mntent.mnt_type me)) as [m1 e1].
  destruct (stpcpy m1 (S e1) (Mntent.mnt_dir me)) as [m2 e2].
  destruct (stpcpy m2 (S e2) (Mntent.mnt_fsname me)) as [m3 e3].
  destruct (octal_deslash _ (S e1)) as [m5|]; [|discriminate]. cbn [mbind option_bind].
  destruct (octal_deslash m5 (S e2)) as [m6|]; [|discriminate]. cbn [mbind option_bind].
  intros [= <-]. split; reflexivity.
Qed.

(** X11: the metadata of the entries.  On the [getmntent] side with a null
    path, every entry of the returned list carries what [stat] and
    [statvfs] answer for the directory as the table has it (undecoded), and
    the zeroes where the call failed; with an override path neither is
    called and both stay zero.  On the [getmntinfo] side every entry
    carries the answers for its mount point, or the zeroes.  No failure of
    [stat] or [statvfs] ends the pass. *)
Theorem xgetmountlist_metadata {ST SV : Type} (stat0 : ST) (statvfs0 : SV)
    (sys_stat : string -> option ST) (sys_statvfs : string -> option SV) :
  (forall setmntent path table,
      setmntent (default "/proc/mounts"%string path) = Some table ->
      exists heap mtlist,
        Mntent.xgetmountlist stat0 statvfs0 sys_stat sys_statvfs setmntent path
        = Return (heap, mtlist)
        /\ Forall2 (fun me oe =>
                      exists e, oe = Some e
                        /\ mt_stat e
                           = match path with
                             | None => default stat0 (sys_stat (Mntent.mnt_dir me))
                             | Some _ => stat0
                             end
                        /\ mt_statvfs e
                           = match path with
                             | None => default statvfs0 (sys_statvfs (Mntent.mnt_dir me))
                             | Some _ => statvfs0
                             end)
             (rev table) (entries_of heap mtlist))
  /\ (forall getmntinfo,
        (0 < length getmntinfo)%nat ->
        exists heap mtlist,
          Getmntinfo.xgetmountlist stat0 statvfs0 sys_stat sys_statvfs getmntinfo None
          = Return (heap, mtlist)
          /\ Forall2 (fun me oe =>
                        exists e, oe = Some e
                          /\ mt_stat e
                             = default stat0 (sys_stat (Getmntinfo.f_mntonname me))
                          /\ mt_statvfs e
                             = default statvfs0 (sys_statvfs (Getmntinfo.f_mntonname me)))
               (rev getmntinfo) (entries_of heap mtlist)).
Proof.
  split.
  - intros setmntent path table Ho.
    destruct (mntent_xgetmountlist_spec stat0 statvfs0 sys_stat sys_statvfs
                setmntent path table Ho) as (es & Hx & Hes).
    exists es, (rev (seq 0 (length table))). split; [exact Hx|].
    rewrite (Forall2_length _ _ _ Hes), entries_of_rev_seq.
    apply Forall2_rev_intro. clear Hx Ho.
    induction Hes as [|me e table es H _ IH]; [constructor|].
    cbn [map]. constructor; [|exact IH].
    exists e. split; [reflexivity|].
    apply mntent_fill_entry_stat in H. exact H.
  - intros getmntinfo Hn. eexists _, _. split.
    + apply getmntinfo_xgetmountlist_spec. intros ->. cbn in Hn. lia.
    + pose proof (entries_of_rev_seq
        (map (fun me => Getmntinfo.fill_entry sys_stat sys_statvfs me
                (zero_entry stat0 statvfs0 (Getmntinfo.entry_size me))) getmntinfo)) as E.
      rewrite length_map in E. rewrite E. apply Forall2_rev_intro.
      clear E Hn. induction getmntinfo as [|me l IH]; [constructor|].
      cbn [map]. constructor; [|exact IH].
      destruct (getmntinfo_fill_entry_layout stat0 statvfs0 sys_stat sys_statvfs me)
        as (m & d & v & o & -> & _).
      eexists. split; [reflexivity|]. split; reflexivity.
Qed.

Lemma xgetmountlist_metadata_witness :
  (exists heap mtlist,
      Mntent.xgetmountlist 0 0
        (fun d => if String.eqb d "/" then Some 755 else None) (fun _ => None)
        (fun _ => Some sample_mounts) None = Return (heap, mtlist)
      /\ map (option_map mt_stat) (entries_of heap mtlist) = [Some 0; Some 755])
  /\ (exists heap mtlist,
        Getmntinfo.xgetmountlist 0 0
          (fun d => if String.eqb d "/" then Some 755 else None) (fun _ => None)
          sample_statfs None = Return (heap, mtlist)
        /\ map (option_map mt_stat) (entries_of heap mtlist) = [Some 0; Some 755]).
Proof.
  split.
  - destruct (proj1 (xgetmountlist_metadata 0 0
                       (fun d => if String.eqb d "/" then Some 755 else None)
                       (fun _ => None))
                (fun _ => Some sample_mounts) None sample_mounts eq_refl)
      as (heap & mtlist & H & F).
    exists heap, mtlist. split; [exact H|].
    cbn [sample_mounts rev app] in F.
    apply Forall2_cons_inv_l in F as (o1 & l1 & (e1 & -> & S1 & _) & F & ->).
    apply Forall2_cons_inv_l in F as (o2 & l2 & (e2 & -> & S2 & _) & F & ->).
    apply Forall2_nil_inv_l in F as ->.
    cbn. rewrite S1, S2. reflexivity.
  - destruct (proj2 (xgetmountlist_metadata 0 0
                       (fun d => if String.eqb d "/" then Some 755 else None)
                       (fun _ => None))
                sample_statfs ltac:(simpl; lia))
      as (heap & mtlist & H & F).
    exists heap, mtlist. split; [exact H|].
    cbn [sample_statfs rev app] in F.
    apply Forall2_cons_inv_l in F as (o1 & l1 & (e1 & -> & S1 & _) & F & ->).
    apply Forall2_cons_inv_l in F as (o2 & l2 & (e2 & -> & S2 & _) & F & ->).
    apply Forall2_nil_inv_l in F as ->.
    cbn. rewrite S1, S2. reflexivity.
Defined.

(** ** The watch multiplexer: further properties *)

(** X12: an [xnotify_add] that returns 0 on a structure a caller can hold
    appends exactly one registration, made of the watch identifier the
    native layer gave (on the kqueue side, of the descriptor), the caller's
    tag and the path, and leaves the earlier registrations in place and in
    order. *)
Theorem accepted_add_appends (max0 : Z) :
  0 <= max0 ->
  (forall not fd path wd0 not',
      Inotify.reachable max0 not ->
      Inotify.xnotify_add not fd path wd0 = Return (not', 0) ->
      Inotify.registrations not' = Inotify.registrations not ++ [(wd0, fd, path)])
  /\ (forall not fd path r event not',
        Kqueue.reachable max0 not ->
        Kqueue.xnotify_add not fd path r event = Return (not', 0) ->
        Kqueue.registrations not' = Kqueue.registrations not ++ [(fd, path)]).
Proof.
  intros Hm. split.
  - intros not fd path wd0 not' Hr Ha.
    destruct (inotify_reachable_inv max0 not Hm Hr) as (_ & Hc & _).
    apply inotify_add_accepted in Ha as (_ & _ & _ & ->); [|lia].
    apply inotify_registrations_accepted. lia.
  - intros not fd path r event not' Hr Ha.
    destruct (kqueue_reachable_inv max0 not Hm Hr) as (_ & Hc & _).
    apply kqueue_add_accepted in Ha as (_ & _ & ->); [|lia].
    apply kqueue_registrations_accepted. lia.
Qed.

Lemma accepted_add_appends_witness :
  Inotify.registrations sample_watches
  = Inotify.registrations sample_pair ++ [(3, 8, "/tmp/c"%string)].
Proof.
  apply (proj1 (accepted_add_appends 3 ltac:(lia)) sample_pair 8 "/tmp/c" 3).
  - apply (inotify_run_adds_reachable 3 (take 2 sample_adds) (Xnotify ∅ 3 ∅ 0 7)).
    + apply (Inotify.reach_init 3 7). reflexivity.
    + vm_compute. reflexivity.
  - vm_compute. reflexivity.
Defined.

Lemma inotify_lookup_watch_first (w tag : Z) (path : string)
    (pre post : list (Z * Z * string)) :
  Forall (fun reg => reg.1.1 <> w) pre ->
  Inotify.lookup_watch w (pre ++ (w, tag, path) :: post) = Some (tag, path).
Proof.
  induction 1 as [|[[w' t'] p'] pre H _ IH]; cbn in *.
  - now rewrite Z.eqb_refl.
  - destruct (Z.eqb_spec w w'); [congruence|exact IH].
Qed.

Lemma kqueue_lookup_watch_first (fd : Z) (path : string) (pre post : list (Z * string)) :
  Forall (fun reg => reg.1 <> fd) pre ->
  Kqueue.lookup_watch fd (pre ++ (fd, path) :: post) = Some (fd, path).
Proof.
  induction 1 as [|[f' p'] pre H _ IH]; cbn in *.
  - now rewrite Z.eqb_refl.
  - destruct (Z.eqb_spec f' fd); [congruence|exact IH].
Qed.

Lemma inotify_wait_skip (not : xnotify) (skipped reads : list (Z * Inotify.inotify_event)) :
  Forall (fun rd => rd.1 = Inotify.sizeof_inotify_event
                    /\ Forall (fun reg => reg.1.1 <> Inotify.wd rd.2)
                         (Inotify.registrations not)) skipped ->
  Inotify.xnotify_wait not (skipped ++ reads) = Inotify.xnotify_wait not reads.
Proof.
  induction 1 as [|[n ev] skipped [Hn Hu] _ IH]; [reflexivity|].
  cbn [app]. rewrite inotify_wait_step. cbn [fst snd] in Hn, Hu. subst n.
  rewrite Z.eqb_refl. cbn [negb]. now rewrite inotify_lookup_watch_None.
Qed.

Lemma kqueue_wait_skip (not : xnotify) (skipped reads : list (Z * Kqueue.kevent_t)) :
  Forall (fun rd => rd.1 = -1
                    \/ Forall (fun reg => reg.1 <> Kqueue.ident rd.2)
                         (Kqueue.registrations not)) skipped ->
  Kqueue.xnotify_wait not (skipped ++ reads) = Kqueue.xnotify_wait not reads.
Proof.
  induction 1 as [|[r ev] skipped Hs _ IH]; [reflexivity|].
  cbn [app]. rewrite kqueue_wait_step. cbn [fst snd] in Hs.
  destruct Hs as [->|Hu]; [exact IH|].
  rewrite kqueue_lookup_watch_None by assumption. now destruct (negb (r =? -1)).
Qed.

(** X13: [xnotify_wait] consumes the native reads up to the first one that
    carries the identifier of a registration and returns the tag and path of
    the earliest registration with that identifier, leaving the later reads
    unread; a later registration with the same identifier is never
    reported.  The reads passed over are, on the inotify side, full events
    for identifiers no registration has, and on the kqueue side also failed
    calls. *)
Theorem wait_returns_first_match (not : xnotify) :
  (forall pre w tag path post skipped ev rest,
      Inotify.registrations not = pre ++ (w, tag, path) :: post ->
      Forall (fun reg => reg.1.1 <> w) pre ->
      Forall (fun rd => rd.1 = Inotify.sizeof_inotify_event
                        /\ Forall (fun reg => reg.1.1 <> Inotify.wd rd.2)
                             (Inotify.registrations not)) skipped ->
      Inotify.wd ev = w ->
      Inotify.xnotify_wait not (skipped ++ (Inotify.sizeof_inotify_event, ev) :: rest)
      = Woken tag path rest)
  /\ (forall pre fd path post skipped r ev rest,
        Kqueue.registrations not = pre ++ (fd, path) :: post ->
        Forall (fun reg => reg.1 <> fd) pre ->
        Forall (fun rd => rd.1 = -1
                          \/ Forall (fun reg => reg.1 <> Kqueue.ident rd.2)
                               (Kqueue.registrations not)) skipped ->
        r <> -1 -> Kqueue.ident ev = fd ->
        Kqueue.xnotify_wait not (skipped ++ (r, ev) :: rest) = Woken fd path rest).
Proof.
  split.
  - intros pre w tag path post skipped ev rest Hreg Hpre Hskip Hw.
    rewrite inotify_wait_skip by assumption.
    rewrite inotify_wait_step, Z.eqb_refl. cbn [negb].
    now rewrite Hw, Hreg, inotify_lookup_watch_first.
  - intros pre fd path post skipped r ev rest Hreg Hpre Hskip Hr Hi.
    rewrite kqueue_wait_skip by assumption.
    rewrite kqueue_wait_step.
    destruct (Z.eqb_spec r (-1)); [contradiction|]. cbn [negb].
    now rewrite Hi, Hreg, kqueue_lookup_watch_first.
Qed.

Lemma wait_returns_first_match_witness :
  Inotify.xnotify_wait sample_watches
    [(16, Inotify.Event 9 2 0 0); (16, Inotify.Event 2 2 0 0); (16, Inotify.Event 1 2 0 0)]
  = Woken 6 "/tmp/b" [(16, Inotify.Event 1 2 0 0)]
  /\ Kqueue.xnotify_wait sample_kqueue
       [(-1, Kqueue.Kevent 0 0); (1, Kqueue.Kevent 6 0x21); (1, Kqueue.Kevent 5 0x21)]
     = Woken 6 "/tmp/b" [(1, Kqueue.Kevent 5 0x21)].
Proof.
  split.
  - apply (proj1 (wait_returns_first_match sample_watches)
             [(1, 5, "/tmp/a"%string)] 2 6 "/tmp/b"%string [(3, 8, "/tmp/c"%string)]
             [(16, Inotify.Event 9 2 0 0)] (Inotify.Event 2 2 0 0)
             [(16, Inotify.Event 1 2 0 0)]).
    + vm_compute. reflexivity.
    + repeat constructor. cbn. lia.
    + constructor; [|constructor]. split; [reflexivity|].
      vm_compute. repeat constructor; discriminate.
    + reflexivity.
  - apply (proj2 (wait_returns_first_match sample_kqueue)
             [(5, "/tmp/a"%string)] 6 "/tmp/b"%string []
             [(-1, Kqueue.Kevent 0 0)] 1 (Kqueue.Kevent 6 0x21)
             [(1, Kqueue.Kevent 5 0x21)]).
    + vm_compute. reflexivity.
    + repeat constructor. cbn. lia.
    + constructor; [|constructor]. left. reflexivity.
    + lia.
    + reflexivity.
Defined.

(** X14: without a registration [xnotify_wait] never returns: on the
    inotify side it stays blocked or ends the process on a short read, on
    the kqueue side it stays blocked whatever the native calls answer. *)
Theorem wait_without_registration (not : xnotify) :
  count not <= 0 ->
  (forall reads, Inotify.xnotify_wait not reads = Blocked
                 \/ Inotify.xnotify_wait not reads = Died "inotify")
  /\ (forall reads, Kqueue.xnotify_wait not reads = Blocked).
Proof.
  intros Hc.
  assert (Hi : Inotify.registrations not = []).
  { unfold Inotify.registrations. now rewrite seqZ_nil. }
  assert (Hk : Kqueue.registrations not = []).
  { unfold Kqueue.registrations. now rewrite seqZ_nil. }
  split.
  - induction reads as [|[n ev] reads IH]; [now left|].
    rewrite inotify_wait_step, Hi. cbn [Inotify.lookup_watch].
    destruct (negb (Inotify.sizeof_inotify_event =? n)); [now right|exact IH].
  - induction reads as [|[r ev] reads IH]; [reflexivity|].
    rewrite kqueue_wait_step, Hk. cbn [Kqueue.lookup_watch].
    now destruct (negb (r =? -1)).
Qed.

Lemma wait_without_registration_witness :
  Kqueue.xnotify_wait (Xnotify ∅ 3 ∅ 0 7)
    [(1, Kqueue.Kevent 5 0x21); (-1, Kqueue.Kevent 0 0)] = Blocked.
Proof.
  apply (proj2 (wait_without_registration (Xnotify ∅ 3 ∅ 0 7) ltac:(cbn; lia))).
Defined.

(** X15: registering and waiting compose.  On a structure a caller can hold
    with room left, an [xnotify_add] that the native layer accepts, with an
    identifier no registration has yet, returns 0, and from then on a read
    that reports this identifier makes [xnotify_wait] return the tag and
    the path that were given to that [xnotify_add]. *)
Theorem add_then_wait (max0 : Z) :
  0 <= max0 ->
  (forall not fd path wd0,
      Inotify.reachable max0 not -> count not < max0 -> wd0 <> -1 ->
      Forall (fun reg => reg.1.1 <> wd0) (Inotify.registrations not) ->
      exists not',
        Inotify.xnotify_add not fd path wd0 = Return (not', 0)
        /\ forall ev rest,
             Inotify.wd ev = wd0 ->
             Inotify.xnotify_wait not' ((Inotify.sizeof_inotify_event, ev) :: rest)
             = Woken fd path rest)
  /\ (forall not fd path r event,
        Kqueue.reachable max0 not -> count not < max0 -> r <> -1 ->
        Z.land (Kqueue.flags event) Kqueue.EV_ERROR = 0 ->
        Forall (fun reg => reg.1 <> fd) (Kqueue.registrations not) ->
        exists not',
          Kqueue.xnotify_add not fd path r event = Return (not', 0)
          /\ forall r' ev rest,
               r' <> -1 -> Kqueue.ident ev = fd ->
               Kqueue.xnotify_wait not' ((r', ev) :: rest) = Woken fd path rest).
Proof.
  intros Hm. split.
  - intros not fd path wd0 Hr Hc Hw Hfresh.
    destruct (inotify_reachable_inv max0 not Hm Hr) as (Hmax & Hcnt & _).
    eexists. split.
    + unfold Inotify.xnotify_add.
      destruct (Z.eqb_spec (max not) (count not)); [lia|].
      destruct (Z.eqb_spec wd0 (-1)); [contradiction|]. reflexivity.
    + intros ev rest Hev. rewrite inotify_wait_step, Z.eqb_refl. cbn [negb].
      rewrite inotify_registrations_accepted by lia.
      now rewrite Hev, inotify_lookup_watch_first.
  - intros not fd path r event Hr Hc Hr1 Hfl Hfresh.
    destruct (kqueue_reachable_inv max0 not Hm Hr) as (Hmax & Hcnt & _).
    eexists. split.
    + unfold Kqueue.xnotify_add.
      destruct (Z.eqb_spec (count not) (max not)); [lia|].
      destruct (Z.eqb_spec r (-1)); [contradiction|]. rewrite Hfl. reflexivity.
    + intros r' ev rest Hr' Hev. rewrite kqueue_wait_step.
      destruct (Z.eqb_spec r' (-1)); [contradiction|]. cbn [negb].
      rewrite kqueue_registrations_accepted by lia.
      now rewrite Hev, kqueue_lookup_watch_first.
Qed.

Lemma add_then_wait_witness :
  exists not',
    Inotify.xnotify_add sample_pair 8 "/tmp/c" 3 = Return (not', 0)
    /\ forall ev rest,
         Inotify.wd ev = 3 ->
         Inotify.xnotify_wait not' ((Inotify.sizeof_inotify_event, ev) :: rest)
         = Woken 8 "/tmp/c" rest.
Proof.
  apply (proj1 (add_then_wait 3 ltac:(lia)) sample_pair 8 "/tmp/c"%string 3).
  - apply (inotify_run_adds_reachable 3 (take 2 sample_adds) (Xnotify ∅ 3 ∅ 0 7)).
    + apply (Inotify.reach_init 3 7). reflexivity.
    + vm_compute. reflexivity.
  - vm_compute. reflexivity.
  - lia.
  - vm_compute. repeat constructor; discriminate.
Defined.

(** ** mknodat *)

Lemma mknodat_cases (sys_mknod : Z -> string -> Z -> Z -> Z)
    (p : Mknodat.process) (dirfd : Z) (path : string) (mode dev fd0 : Z)
    (ok1 ok2 : bool) :
  let fds1 := <[fd0 := Mknodat.cwd p]> (Mknodat.open_fds p) in
  Mknodat.mknodat sys_mknod p dirfd path mode dev fd0 ok1 ok2
  = if fd0 =? -1 then Return (p, -1)
    else match fds1 !! dirfd with
         | Some d =>
             if ok1 then
               if ok2 then Return (Mknodat.Process (Mknodat.cwd p) fds1,
                                   sys_mknod d path mode dev)
               else Exit "mknodat couldn't return"
             else Return (Mknodat.Process (Mknodat.cwd p) fds1, -1)
         | None => Return (Mknodat.Process (Mknodat.cwd p) fds1, -1)
         end.
Proof.
  cbn zeta. unfold Mknodat.mknodat, Mknodat.sys_open_dot.
  destruct (Z.eqb_spec fd0 (-1)) as [->|Hfd]; [reflexivity|].
  destruct (Z.eqb_spec fd0 (-1)); [contradiction|].
  unfold Mknodat.sys_fchdir at 1. cbn [Mknodat.open_fds Mknodat.cwd].
  destruct (<[fd0:=Mknodat.cwd p]> (Mknodat.open_fds p) !! dirfd) as [d|] eqn:Ed;
    [|reflexivity].
  destruct ok1; [|reflexivity]. cbn [Z.eqb].
  unfold Mknodat.sys_fchdir. cbn [Mknodat.open_fds Mknodat.cwd].
  rewrite lookup_insert_eq. destruct ok2; reflexivity.
Qed.

(** X16: [mknodat] never returns with the working directory changed: every
    return, also the early one on a failed [fchdir(dirfd)], leaves the
    process where it was, and when the way back fails the process ends
    instead.  When the descriptor [open] hands out is a new one and both
    [fchdir] calls succeed, the value returned is what [mknod] answers in the
    directory that [dirfd] refers to. *)
Theorem mknodat_restores_cwd (sys_mknod : Z -> string -> Z -> Z -> Z)
    (p : Mknodat.process) (dirfd : Z) (path : string) (mode dev fd0 : Z)
    (ok1 ok2 : bool) :
  (forall p' ret,
      Mknodat.mknodat sys_mknod p dirfd path mode dev fd0 ok1 ok2 = Return (p', ret) ->
      Mknodat.cwd p' = Mknodat.cwd p)
  /\ (forall d,
        fd0 <> -1 -> Mknodat.open_fds p !! fd0 = None ->
        Mknodat.open_fds p !! dirfd = Some d ->
        ok1 = true -> ok2 = true ->
        exists p',
          Mknodat.mknodat sys_mknod p dirfd path mode dev fd0 ok1 ok2
          = Return (p', sys_mknod d path mode dev)
          /\ Mknodat.cwd p' = Mknodat.cwd p)
  /\ (forall msg,
        Mknodat.mknodat sys_mknod p dirfd path mode dev fd0 ok1 ok2 = Exit msg ->
        msg = "mknodat couldn't return"%string /\ ok1 = true /\ ok2 = false).
Proof.
  rewrite mknodat_cases. cbn zeta. split; [|split].
  - intros p' ret. destruct (fd0 =? -1); [now intros [= <- _]|].
    destruct (_ !! dirfd) as [d|]; [|now intros [= <- _]].
    destruct ok1; [|now intros [= <- _]].
    destruct ok2; [now intros [= <- _]|discriminate].
  - intros d Hfd Hfresh Hdir -> ->.
    destruct (Z.eqb_spec fd0 (-1)); [contradiction|].
    assert (fd0 <> dirfd) by congruence.
    rewrite lookup_insert_ne, Hdir by assumption.
    eexists. split; reflexivity.
  - intros msg. destruct (fd0 =? -1); [discriminate|].
    destruct (_ !! dirfd) as [d|]; [|discriminate].
    destruct ok1; [|discriminate]. destruct ok2; [discriminate|].
    now intros [= <-].
Qed.

Lemma mknodat_restores_cwd_witness :
  exists p',
    Mknodat.mknodat (fun d _ _ _ => if d =? 20 then 0 else -1)
      (Mknodat.Process 10 {[3 := 20]}) 3 "null" 8630 259 4 true true
    = Return (p', 0)
    /\ Mknodat.cwd p' = 10.
Proof.
  apply (proj1 (proj2 (mknodat_restores_cwd (fun d _ _ _ => if d =? 20 then 0 else -1)
                         (Mknodat.Process 10 {[3 := 20]}) 3 "null" 8630 259 4 true true))
           20).
  - lia.
  - vm_compute. reflexivity.
  - vm_compute. reflexivity.
  - reflexivity.
  - reflexivity.
Defined.

(** ** octal_deslash: an escape for NUL *)

Lemma deslash_app_plain (pre l : list ascii) :
  forallb (fun c => negb (Ascii.eqb c "\"%char)) pre = true ->
  deslash (pre ++ l) = pre ++ deslash l.
Proof.
  induction pre as [|c pre IH]; [reflexivity|]. cbn [forallb app deslash].
  intros H. apply andb_true_iff in H as [Hc Hp]. apply negb_true_iff in Hc.
  rewrite Hc. now rewrite IH.
Qed.

Lemma deslash_nul_escapes (l : list ascii) :
  deslash (list_ascii_of_string "\000" ++ l) = NUL :: deslash l
  /\ deslash (list_ascii_of_string "\400" ++ l) = NUL :: deslash l.
Proof. split; reflexivity. Qed.

(** X17: an escape whose value has the low eight bits zero, [\000] or
    [\400], ends the string: behind a prefix without a backslash, the
    decoded string is that prefix, and what follows the escape is lost. *)
Theorem decode_escaped_nul (pre rest : string) :
  nul_free pre = true -> nul_free rest = true ->
  forallb (fun c => negb (Ascii.eqb c "\"%char)) (list_ascii_of_string pre) = true ->
  decode (pre +:+ "\000" +:+ rest) = Some pre
  /\ decode (pre +:+ "\400" +:+ rest) = Some pre.
Proof.
  intros Hp Hr Hb. split.
  - rewrite decode_deslash.
    + rewrite !chars_app, deslash_app_plain by assumption.
      rewrite (proj1 (deslash_nul_escapes _)).
      rewrite cstr_of_app_nul. f_equal. now apply cstr_of_chars_id.
    + rewrite !nul_free_app, Hp, Hr. reflexivity.
  - rewrite decode_deslash.
    + rewrite !chars_app, deslash_app_plain by assumption.
      rewrite (proj2 (deslash_nul_escapes _)).
      rewrite cstr_of_app_nul. f_equal. now apply cstr_of_chars_id.
    + rewrite !nul_free_app, Hp, Hr. reflexivity.
Qed.

Lemma decode_escaped_nul_witness :
  decode "/mnt/a\000b" = Some "/mnt/a"%string
  /\ decode "/mnt/a\400b" = Some "/mnt/a"%string.
Proof.
  exact (decode_escaped_nul "/mnt/a" "b" eq_refl eq_refl eq_refl).
Defined.

(** ** The snapshot and the filter together *)

Lemma strchr_app_None (a b : string) (c : ascii) :
  strchr a c = None -> strchr b c = None -> strchr (a +:+ b) c = None.
Proof.
  induction a as [|d a IH]; [auto|].
  change (String d a +:+ b) with (String d (a +:+ b)). cbn.
  destruct (Ascii.eqb d c); [discriminate|].
  destruct (strchr a c); [discriminate|]. intros _ Hb. now rewrite IH.
Qed.

(** X18: an entry of the snapshot against its own type.  For the entry
    finished for a record whose type is not empty and has no comma, the
    exclusion list "no" followed by the type answers 0; the type itself as
    the list answers 1 unless the type starts with "no", in which case the
    list is read as an exclusion list. *)
Theorem entry_against_own_type {ST SV : Type} (stat0 : ST) (statvfs0 : SV)
    (sys_stat : string -> option ST) (sys_statvfs : string -> option SV)
    (path : option string) (me : Mntent.mntent) (e : mtab_list ST SV) :
  nul_free (Mntent.mnt_type me) && nul_free (Mntent.mnt_dir me)
  && nul_free (Mntent.mnt_fsname me) && nul_free (Mntent.mnt_opts me) = true ->
  Mntent.fill_entry sys_stat sys_statvfs path me
    (zero_entry stat0 statvfs0 (Mntent.entry_size me)) = Some e ->
  Mntent.mnt_type me <> EmptyString ->
  strchr (Mntent.mnt_type me) "," = None ->
  mountlist_istype e (Some ("no" +:+ Mntent.mnt_type me)) = Return 0
  /\ (starts_with "no" (Mntent.mnt_type me) = false ->
      mountlist_istype e (Some (Mntent.mnt_type me)) = Return 1)
  /\ (starts_with "no" (Mntent.mnt_type me) = true ->
      mountlist_istype e (Some (Mntent.mnt_type me))
      = Return (if starts_with (remainder (Mntent.mnt_type me)) (Mntent.mnt_type me)
                then 0 else 1)).
Proof.
  intros Hn He Hne Hc.
  apply andb_true_iff in Hn as [Hn N4]. apply andb_true_iff in Hn as [Hn N3].
  apply andb_true_iff in Hn as [N1 N2].
  destruct (mntent_fill_entry_contents stat0 statvfs0 sys_stat sys_statvfs
              path me e N1 N2 N3 N4 He) as (Hty & _).
  fold (type_of e) in Hty. set (ty := Mntent.mnt_type me) in *.
  assert (Htok : comma_tokens ty = [ty]) by now apply comma_tokens_last.
  split; [|split].
  - assert (Hc' : strchr ("no" +:+ ty) "," = None).
    { apply strchr_app_None; [reflexivity|exact Hc]. }
    rewrite istype_exclusion_list.
    + rewrite (comma_tokens_last _ Hc') by discriminate.
      cbn [existsb]. change (remainder ("no" +:+ ty)) with ty.
      now rewrite Hty, starts_with_refl.
    + rewrite nul_free_app, N1. reflexivity.
    + rewrite (comma_tokens_last _ Hc') by discriminate. discriminate.
    + rewrite (comma_tokens_last _ Hc') by discriminate. reflexivity.
  - intros Hno.
    assert (Hs : strncmp ty "no" 2 <> 0).
    { apply Z.eqb_neq. now rewrite strncmp_no. }
    rewrite mountlist_istype_tokens, istype_tokens_inclusion, Htok by assumption.
    cbn [existsb]. now rewrite Hty, String.eqb_refl.
  - intros Hno. rewrite istype_exclusion_list.
    + rewrite Htok. cbn [existsb]. now rewrite Hty, orb_false_r.
    + exact N1.
    + rewrite Htok. discriminate.
    + rewrite Htok. cbn [forallb]. unfold marked. now rewrite Hno.
Qed.

Lemma entry_against_own_type_witness :
  exists e,
    Mntent.fill_entry (fun _ => None) (fun _ => None) None
      (Mntent.Mntent "/dev/sda1" "/mnt/a\040b" "ext4" "rw" 0 0)
      (zero_entry tt tt
         (Mntent.entry_size (Mntent.Mntent "/dev/sda1" "/mnt/a\040b" "ext4" "rw" 0 0)))
    = Some e
    /\ mountlist_istype e (Some "noext4") = Return 0
    /\ mountlist_istype e (Some "ext4") = Return 1.
Proof.
  destruct (mntent_fill_entry_spec tt tt (fun _ => None) (fun _ => None) None
              (Mntent.Mntent "/dev/sda1" "/mnt/a\040b" "ext4" "rw" 0 0))
    as (e & He & _).
  exists e. split; [exact He|].
  destruct (entry_against_own_type tt tt (fun _ => None) (fun _ => None) None
              (Mntent.Mntent "/dev/sda1" "/mnt/a\040b" "ext4" "rw" 0 0) e
              eq_refl He ltac:(discriminate) eq_refl) as (H0 & H1 & _).
  split; [exact H0|exact (H1 eq_refl)].
Defined.
